(** * Crystal Store: order store, payment webhooks and ticket closing

    A shallow embedding of the order-reconciliation code of the Crystal Store
    bot (utils/store.js, utils/stripe.js, utils/crypto.js and the handlers of
    index.js) and the properties its specification states about it.

    Layout:
    - [JS]      the fragment of ECMAScript values the program computes with;
    - [Store]   utils/store.js, the orders file and its four operations;
    - the handlers of index.js as functions of an explicit world;
    - the theorems, one per specified property. *)

From Stdlib Require Import ZArith Lia Bool List Ascii String.
From Stdlib Require Import Floats.SpecFloat.
From stdpp Require Import base option list gmap strings fin_maps relations.

Local Open Scope string_scope.
Local Open Scope list_scope.
Set Warnings "-register-all".

(* ===================================================================== *)
(** * Strings *)
(* ===================================================================== *)

Module Text.

(** A string is the UTF-8 encoding of the JavaScript string (the ids,
    statuses, commands and amounts of the program are ASCII, one byte for
    one code unit).  The functions below that look for ASCII text
    ([startsWith], [includes], the split at a colon) act on the bytes,
    which is the same as acting on the code units; [trim] knows the white
    space of the language in its encoded form. *)

Definition is_digit (c : ascii) : bool :=
  let n := nat_of_ascii c in (48 <=? n)%nat && (n <=? 57)%nat.

Definition digit_val (c : ascii) : N := N.of_nat (nat_of_ascii c - 48).

Definition lower (c : ascii) : ascii :=
  let n := nat_of_ascii c in
  if (65 <=? n)%nat && (n <=? 90)%nat then ascii_of_nat (n + 32) else c.

Definition upper (c : ascii) : ascii :=
  let n := nat_of_ascii c in
  if (97 <=? n)%nat && (n <=? 122)%nat then ascii_of_nat (n - 32) else c.

Fixpoint map_string (f : ascii -> ascii) (s : string) : string :=
  match s with
  | EmptyString => EmptyString
  | String c s' => String (f c) (map_string f s')
  end.

(** [s.toLowerCase()] and [s.toUpperCase()] on the ASCII letters; the
    bytes of the other characters are left as they are. *)
Definition toLowerCase (s : string) : string := map_string lower s.
Definition toUpperCase (s : string) : string := map_string upper s.

(** Every character of [s] is ASCII. *)
Definition is_ascii (s : string) : bool :=
  forallb (fun c => (nat_of_ascii c <? 128)%nat) (list_ascii_of_string s).

(** WhiteSpace and LineTerminator of ECMAScript, each as its UTF-8 bytes:
    U+0009 to U+000D, U+0020, U+00A0, U+1680, U+2000 to U+200A, U+2028,
    U+2029, U+202F, U+205F, U+3000 and U+FEFF. *)
Definition white_space : list (list ascii) :=
  map (map ascii_of_nat)
    [ [9]; [10]; [11]; [12]; [13]; [32];
      [194; 160];
      [225; 154; 128];
      [226; 128; 128]; [226; 128; 129]; [226; 128; 130]; [226; 128; 131];
      [226; 128; 132]; [226; 128; 133]; [226; 128; 134]; [226; 128; 135];
      [226; 128; 136]; [226; 128; 137]; [226; 128; 138];
      [226; 128; 168]; [226; 128; 169]; [226; 128; 175];
      [226; 129; 159];
      [227; 128; 128];
      [239; 187; 191] ]%nat.

(** [l] without the prefix [p], when it starts with it. *)
Fixpoint strip_prefix (p l : list ascii) : option (list ascii) :=
  match p, l with
  | [], _ => Some l
  | c :: p', d :: l' => if Ascii.eqb c d then strip_prefix p' l' else None
  | _ :: _, [] => None
  end.

(** [l] without the first of the patterns it starts with. *)
Fixpoint strip_one (pats : list (list ascii)) (l : list ascii)
  : option (list ascii) :=
  match pats with
  | [] => None
  | p :: pats' =>
      match strip_prefix p l with
      | Some l' => Some l'
      | None => strip_one pats' l
      end
  end.

(** [l] without the patterns it starts with, one after the other; no
    pattern is empty, so the length of [l] bounds their number. *)
Fixpoint strip_all (fuel : nat) (pats : list (list ascii)) (l : list ascii)
  : list ascii :=
  match fuel with
  | O => l
  | S fuel' =>
      match strip_one pats l with
      | Some l' => strip_all fuel' pats l'
      | None => l
      end
  end.

Definition drop_spaces (l : list ascii) : list ascii :=
  strip_all (length l) white_space l.

(** The same at the end of [l], given reversed. *)
Definition drop_spaces_rev (l : list ascii) : list ascii :=
  strip_all (length l) (map (@rev ascii) white_space) l.

(** [s.trim()]. *)
Definition trim (s : string) : string :=
  string_of_list_ascii
    (rev (drop_spaces_rev (rev (drop_spaces (list_ascii_of_string s))))).

(** [s.startsWith(p)]. *)
Definition startsWith (p s : string) : bool := String.prefix p s.

(** [s.slice(0, n)] for an [s] whose first [n] bytes are ASCII: its first
    [n] code units. *)
Definition slice0 (n : nat) (s : string) : string := String.substring 0 n s.

Fixpoint until_colon (s : string) : string :=
  match s with
  | EmptyString => EmptyString
  | String c s' => if Ascii.eqb c ":" then EmptyString else String c (until_colon s')
  end.

Fixpoint after_colon (s : string) : option string :=
  match s with
  | EmptyString => None
  | String c s' => if Ascii.eqb c ":" then Some s' else after_colon s'
  end.

(** [s.split(":")[1]]: the text between the first and the second colon;
    [None] stands for [undefined], when [s] has no colon. *)
Definition split_colon_1 (s : string) : option string :=
  until_colon <$> after_colon s.

(** [s.replace(/\/$/, "")]: one trailing slash removed. *)
Definition strip_trailing_slash (s : string) : string :=
  match rev (list_ascii_of_string s) with
  | c :: l => if Ascii.eqb c "/" then string_of_list_ascii (rev l) else s
  | [] => s
  end.

(** [s.includes(p)]. *)
Definition includes (p s : string) : bool :=
  match String.index 0 p s with
  | Some _ => true
  | None => false
  end.

Definition digit_char (d : N) : ascii := ascii_of_N (48 + d).

(** The decimal digits of [n], the last one first computed; [fuel] bounds
    their number. *)
Fixpoint digits_before (fuel : nat) (n : N) (acc : list ascii) : list ascii :=
  match fuel with
  | O => acc
  | S fuel' =>
      let acc' := digit_char (n mod 10) :: acc in
      if (n / 10 =? 0)%N then acc' else digits_before fuel' (n / 10) acc'
  end.

(** The decimal digits of a natural number, without leading zeros (a
    number has no more decimal digits than binary ones). *)
Definition decimal_digits (n : N) : list ascii :=
  digits_before (S (N.size_nat n)) n [].

Definition decimal (n : N) : string := string_of_list_ascii (decimal_digits n).

End Text.

(* ===================================================================== *)
(** * Numbers: IEEE-754 binary64 *)
(* ===================================================================== *)

Module F64.

Definition prec : Z := 53.
Definition emax : Z := 1024.

Abbreviation float := spec_float.

Definition nan : float := S754_nan.
Definition zero : float := S754_zero false.

(** [x * y] and [x / y]. *)
Definition mul : float -> float -> float := SFmul prec emax.
Definition div : float -> float -> float := SFdiv prec emax.

(** The Number nearest to an integer. *)
Definition of_Z (n : Z) : float := binary_normalize prec emax n 0 false.

Definition hundred : float := of_Z 100.


(** The Number nearest to [n * 10 ^ k] (ties to even), with the given sign:
    the value of a decimal literal. *)
Definition of_decimal (neg : bool) (n : N) (k : Z) : float :=
  match n with
  | N0 => S754_zero neg
  | Npos p =>
      match k with
      | Zneg q =>
          SFdiv prec emax (S754_finite neg p 0)
            (S754_finite false (Pos.pow 10 q) 0)
      | _ => binary_round prec emax neg (p * Z.to_pos (10 ^ k)) 0
      end
  end.

(** The mathematical value of a finite Number as a fraction [num / den],
    [den] a power of two. *)
Definition num_den (m : positive) (e : Z) : Z * Z :=
  match e with
  | Zneg q => (Zpos m, Zpos (Pos.pow 2 q))
  | _ => (Zpos m * 2 ^ e, 1)%Z
  end.

(** The integer nearest to [num / den], the larger one of two. *)
Definition round_half_up (num den : Z) : Z := ((2 * num + den) / (2 * den))%Z.

(** [Math.round(x)]: the integral Number closest to [x], the larger one
    of two; [-0] for [x] in [[-0.5, 0)]. *)
Definition round (x : float) : float :=
  match x with
  | S754_finite s m e =>
      let '(num, den) := num_den m e in
      let n := round_half_up (if s then - num else num)%Z den in
      if (n =? 0)%Z then S754_zero s else of_Z n
  | _ => x
  end.

(** ** Values *)








(** ** Number::toString *)

(** The text of [n / 100] with two fraction digits: the digits of [n],
    padded with zeros to three at least, with a point before the last
    two. *)
Definition fixed2_chars (n : N) : list ascii :=
  let m := Text.decimal_digits n in
  let m := if (length m <=? 2)%nat
           then repeat "0"%char (3 - length m) ++ m else m in
  let k := length m in
  take (k - 2) m ++ "."%char :: drop (k - 2) m.

Definition fixed2 (n : N) : string := string_of_list_ascii (fixed2_chars n).

Definition ten21 : Z := 10 ^ 21.

(** Number of decimal digits of a positive integer. *)
Definition ndigits (n : Z) : Z := Z.of_nat (String.length (Text.decimal (Z.to_N n))).

(** [n] with [10^(n-1) <= num/den < 10^n], for [num/den > 0]. *)
Definition decimal_exponent (num den : Z) : Z :=
  if (den <=? num)%Z then ndigits (num / den)
  else
    (* num/den < 1: the least j with num * 10^j >= den *)
    let j0 := (ndigits den - ndigits num)%Z in
    let j := if (den <=? num * 10 ^ j0)%Z then j0 else (j0 + 1)%Z in
    (1 - j)%Z.

(** The two integers next to [num/den * 10^(k-n)]. *)
Definition scaled_floor (num den n k : Z) : Z :=
  if (0 <=? k - n)%Z then (num * 10 ^ (k - n) / den)%Z
  else (num / (den * 10 ^ (n - k)))%Z.

(** A candidate [(s, n)] with [k] digits denotes [s * 10^(n-k)]. *)
Definition denotes (x : float) (k : Z) (c : Z * Z) : bool :=
  let '(s, n) := c in
  match x, of_decimal false (Z.to_N s) (n - k) with
  | S754_finite _ m e, S754_finite _ m' e' => Pos.eqb m m' && Z.eqb e e'
  | _, _ => false
  end.

(** [|s * 10^(n-k) - num/den|] times [den * 10^(-emin)], for an [emin]
    that is at most [0] and at most the exponent [n - k]. *)
Definition distance (num den k emin : Z) (c : Z * Z) : Z :=
  let '(s, n) := c in
  Z.abs (s * 10 ^ (n - k - emin) * den - num * 10 ^ (- emin)).

Definition normalize_candidate (k : Z) (c : Z * Z) : Z * Z :=
  let '(s, n) := c in
  if (s =? 10 ^ k)%Z then (10 ^ (k - 1), n + 1)%Z else c.

(** The digits [s], the exponent [n] and the length [k] of the shortest
    decimal [s * 10^(n-k)] that denotes [x], the closest one to [x] among
    those of that length (the even one of two).  Lengths from [k] on are
    tried, [fuel] more of them. *)
Fixpoint shortest (fuel : nat) (x : float) (num den n0 k : Z) : Z * Z * Z :=
  let lo := scaled_floor num den n0 k in
  let c1 := (lo, n0) in
  let c2 := normalize_candidate k (lo + 1, n0)%Z in
  let emin := Z.min 0 (n0 - k) in
  let pick :=
    match denotes x k c1, denotes x k c2 with
    | true, false => Some c1
    | false, true => Some c2
    | true, true =>
        match (distance num den k emin c1 ?= distance num den k emin c2)%Z with
        | Lt => Some c1
        | Gt => Some c2
        | Eq => if Z.even lo then Some c1 else Some c2
        end
    | false, false => None
    end in
  match pick with
  | Some (s, n) => (s, n, k)
  | None =>
      match fuel with
      | O => (lo, n0, k)
      | S fuel' => shortest fuel' x num den n0 (k + 1)
      end
  end.

Definition zeros (n : Z) : string :=
  string_of_list_ascii (repeat "0"%char (Z.to_nat n)).

Definition str_take (n : Z) (s : string) : string :=
  String.substring 0 (Z.to_nat n) s.
Definition str_drop (n : Z) (s : string) : string :=
  String.substring (Z.to_nat n) (String.length s) s.

(** The text of a positive finite Number from its shortest digits. *)
Definition format_shortest (s n k : Z) : string :=
  let d := Text.decimal (Z.to_N s) in
  if (k <=? n)%Z && (n <=? 21)%Z then d +:+ zeros (n - k)
  else if (0 <? n)%Z && (n <=? 21)%Z then str_take n d +:+ "." +:+ str_drop n d
  else if (-6 <? n)%Z && (n <=? 0)%Z then "0." +:+ zeros (- n) +:+ d
  else
    let e := (n - 1)%Z in
    let etxt := (if (e <? 0)%Z then "-" else "+") +:+ Text.decimal (Z.to_N (Z.abs e)) in
    if (k =? 1)%Z then d +:+ "e" +:+ etxt
    else str_take 1 d +:+ "." +:+ str_drop 1 d +:+ "e" +:+ etxt.

(** Number::toString(x), radix 10. *)
Definition toString (x : float) : string :=
  match x with
  | S754_nan => "NaN"
  | S754_zero _ => "0"
  | S754_infinity s => if s then "-Infinity" else "Infinity"
  | S754_finite s m e =>
      let '(num, den) := num_den m e in
      let '(d, n, k) := shortest 20 x num den (decimal_exponent num den) 1 in
      (if s then "-" else "") +:+ format_shortest d n k
  end.

(** [x.toFixed(2)]. *)
Definition toFixed2 (x : float) : string :=
  match x with
  | S754_finite s m e =>
      let '(num, den) := num_den m e in
      if (ten21 * den <=? num)%Z then toString x
      else (if s then "-" else "") +:+ fixed2 (Z.to_N (round_half_up (100 * num) den))
  | S754_zero _ => "0.00"
  | _ => toString x
  end.

(** ** StringToNumber *)

Fixpoint digits_value (acc : N) (l : list ascii) : N :=
  match l with
  | [] => acc
  | c :: l' => digits_value (10 * acc + Text.digit_val c) l'
  end.

Fixpoint span_digits (l : list ascii) : list ascii * list ascii :=
  match l with
  | c :: l' =>
      if Text.is_digit c then let '(d, r) := span_digits l' in (c :: d, r)
      else ([], l)
  | [] => ([], [])
  end.

Definition radix_digit (radix : N) (c : ascii) : option N :=
  let n := N.of_nat (nat_of_ascii (Text.lower c)) in
  let v := if Text.is_digit c then Some (n - 48)%N
           else if (97 <=? n)%N && (n <=? 102)%N then Some (n - 87)%N
           else None in
  match v with
  | Some d => if (d <? radix)%N then Some d else None
  | None => None
  end.

Fixpoint radix_value (radix acc : N) (l : list ascii) : option N :=
  match l with
  | [] => Some acc
  | c :: l' =>
      match radix_digit radix c with
      | Some d => radix_value radix (radix * acc + d) l'
      | None => None
      end
  end.

(** The exponent part [e[+-]digits], or nothing: [None] when malformed. *)
Definition parse_exponent (l : list ascii) : option Z :=
  match l with
  | [] => Some 0%Z
  | c :: l' =>
      if Ascii.eqb (Text.lower c) "e" then
        let '(neg, l'') :=
          match l' with
          | "-"%char :: r => (true, r)
          | "+"%char :: r => (false, r)
          | _ => (false, l')
          end in
        let '(d, r) := span_digits l'' in
        match d, r with
        | _ :: _, [] =>
            let v := Z.of_N (digits_value 0 d) in Some (if neg then - v else v)%Z
        | _, _ => None
        end
      else None
  end.

(** StrUnsignedDecimalLiteral. *)
Definition parse_unsigned (neg : bool) (l : list ascii) : float :=
  if String.eqb (string_of_list_ascii l) "Infinity" then S754_infinity neg
  else
    let '(ip, r) := span_digits l in
    let '(fp, r') :=
      match r with
      | "."%char :: r1 => span_digits r1
      | _ => ([], r)
      end in
    match ip ++ fp, parse_exponent r' with
    | _ :: _, Some e =>
        of_decimal neg (digits_value 0 (ip ++ fp)) (e - Z.of_nat (length fp))
    | _, _ => nan
    end.

(** StringToNumber: the Number a string converts to. *)
Definition of_string (s : string) : float :=
  match list_ascii_of_string (Text.trim s) with
  | [] => zero
  | "0"%char :: c :: (_ :: _) as l =>
      let radix :=
        match Text.lower c with
        | "x"%char => Some 16%N
        | "o"%char => Some 8%N
        | "b"%char => Some 2%N
        | _ => None
        end in
      match radix with
      | Some r =>
          match radix_value r 0 l with
          | Some v => of_Z (Z.of_N v)
          | None => nan
          end
      | None => parse_unsigned false ("0"%char :: c :: l)
      end
  | "-"%char :: l => parse_unsigned true l
  | "+"%char :: l => parse_unsigned false l
  | l => parse_unsigned false l
  end.

(** ** Decimal strings with two fraction digits *)


End F64.

(* ===================================================================== *)
(** * ECMAScript values *)
(* ===================================================================== *)

Module JS.

(** A JavaScript value as the program meets it: the data that [JSON.parse]
    produces, plus [undefined].  A Number is an IEEE-754 binary64 value
    ([spec_float] with precision 53 and [emax] 1024); an object is a finite
    map from property names to values (property order plays no role in the
    program).  No value of the program carries a callable property. *)
Inductive value : Type :=
| VUndef
| VNull
| VBool (b : bool)
| VNum (x : spec_float)
| VStr (s : string)
| VArr (l : list value)
| VObj (o : gmap string value).

Abbreviation obj := (gmap string value).

(** An abrupt completion ([throw]) or a normal one. *)
Inductive result (A : Type) : Type :=
| Ok (a : A)
| Throw (msg : string).
Arguments Ok {A} a.
Arguments Throw {A} msg.

Definition bind {A B} (r : result A) (k : A -> result B) : result B :=
  match r with
  | Ok a => k a
  | Throw m => Throw m
  end.

(** ** Sizes, for recursion and induction through the nested containers *)

Fixpoint value_size (v : value) : nat :=
  match v with
  | VArr l => S (list_sum (map value_size l))
  | VObj o => S (map_fold (fun _ x acc => value_size x + acc) 0 o)
  | _ => 1
  end.

(** ** Predicates of the language *)

(** ToBoolean. *)
Definition truthy (v : value) : bool :=
  match v with
  | VUndef | VNull => false
  | VBool b => b
  | VNum (S754_zero _) | VNum S754_nan => false
  | VNum _ => true
  | VStr s => negb (String.eqb s "")
  | VArr _ | VObj _ => true
  end.

(** [a || b] and [a ?? b] on values already evaluated (the program only
    uses them with operands free of effects). *)
Definition or_else (a b : value) : value := if truthy a then a else b.

(** IsStrictlyEqual, [a === b].  Objects and arrays are compared by
    identity; every comparison of the program has a freshly parsed or
    freshly built operand on one side, so two objects never coincide. *)
Definition strict_eq (a b : value) : bool :=
  match a, b with
  | VUndef, VUndef => true
  | VNull, VNull => true
  | VBool x, VBool y => Bool.eqb x y
  | VNum x, VNum y => SFeqb x y
  | VStr x, VStr y => String.eqb x y
  | _, _ => false
  end.

(** [o.k] on an object: a missing property reads as [undefined]. *)
Definition prop (o : obj) (k : string) : value := default VUndef (o !! k).

(** [v.k] for the property names the program reads (none of them is a
    member of a built-in prototype, an index or [length]): a TypeError on
    [undefined] and [null], the own property of an object, [undefined] on
    every other value. *)
Definition get (v : value) (k : string) : result value :=
  match v with
  | VUndef | VNull => Throw "TypeError"
  | VObj o => Ok (prop o k)
  | _ => Ok VUndef
  end.

(** [v?.k]. *)
Definition get_opt (v : value) (k : string) : value :=
  match v with
  | VObj o => prop o k
  | _ => VUndef
  end.

(** Own enumerable properties copied by [{...v}]: those of an object, the
    indexed elements of an array, the indexed characters of a string, and
    nothing for the other values. *)
Definition index_props (l : list value) : obj :=
  list_to_map (imap (fun i x => (Text.decimal (N.of_nat i), x)) l).

Definition chars (s : string) : list value :=
  map (fun c => VStr (String c EmptyString)) (list_ascii_of_string s).

Definition spread (v : value) : obj :=
  match v with
  | VObj o => o
  | VArr l => index_props l
  | VStr s => index_props (chars s)
  | _ => ∅
  end.

(** [{...a, ...b}]: the properties of [b] win. *)
Definition assign (a b : obj) : obj := b ∪ a.

(** ** Conversions *)

(** ToString, [String(v)] and the conversion of a template literal.  An
    array is joined with commas, [undefined] and [null] elements giving the
    empty text.  An object has no callable property of its own, so an own
    [toString] shadows the inherited one and the conversion throws;
    without it the inherited one gives [[object Object]]. *)
Fixpoint ToString (v : value) : result string :=
  match v with
  | VUndef => Ok "undefined"
  | VNull => Ok "null"
  | VBool b => Ok (if b then "true" else "false")
  | VNum x => Ok (F64.toString x)
  | VStr s => Ok s
  | VArr l =>
      bind
        ((fix items (l : list value) : result (list string) :=
            match l with
            | [] => Ok []
            | e :: l' =>
                bind (match e with
                      | VUndef | VNull => Ok ""
                      | _ => ToString e
                      end)
                  (fun s => bind (items l') (fun r => Ok (s :: r)))
            end) l)
        (fun ss => Ok (String.concat "," ss))
  | VObj o =>
      match o !! "toString" with
      | Some _ => Throw "TypeError"
      | None => Ok "[object Object]"
      end
  end.

(** ToNumber, [Number(v)] and the conversion of an arithmetic operand. *)
Definition ToNumber (v : value) : result F64.float :=
  match v with
  | VUndef => Ok F64.nan
  | VNull => Ok F64.zero
  | VBool b => Ok (if b then F64.of_Z 1 else F64.zero)
  | VNum x => Ok x
  | VStr s => Ok (F64.of_string s)
  | VArr _ | VObj _ => bind (ToString v) (fun s => Ok (F64.of_string s))
  end.

(** ** JSON round trip *)

Definition json_number (x : spec_float) : value :=
  match x with
  | S754_nan | S754_infinity _ => VNull
  | S754_zero _ => VNum (S754_zero false)
  | S754_finite _ _ _ => VNum x
  end.

(** [JSON.parse(JSON.stringify(v))] for a value in array or property
    position: a property holding [undefined] is dropped, an array element
    holding it becomes [null], a Number that is not finite becomes [null]
    and [-0] becomes [0]. *)
Fixpoint jsonify (v : value) : value :=
  match v with
  | VUndef => VNull
  | VNum x => json_number x
  | VArr l => VArr (map jsonify l)
  | VObj o =>
      VObj (omap (fun x => match x with
                           | VUndef => None
                           | _ => Some (jsonify x)
                           end) o)
  | _ => v
  end.

Definition jsonify_prop (x : value) : option value :=
  match x with
  | VUndef => None
  | _ => Some (jsonify x)
  end.

Definition jsonify_obj (o : obj) : obj := omap jsonify_prop o.

(** The values of JSON: no [undefined], and no Number that is [NaN],
    infinite or [-0], at any depth. *)
Fixpoint is_json (v : value) : bool :=
  match v with
  | VUndef => false
  | VNull | VBool _ | VStr _ => true
  | VNum x =>
      match x with
      | S754_finite _ _ _ | S754_zero false => true
      | _ => false
      end
  | VArr l => forallb is_json l
  | VObj o => map_fold (fun _ x acc => is_json x && acc) true o
  end.

(** A value that a JSON text denotes: the round trip leaves it as it is. *)
Definition json_clean (v : value) : Prop := jsonify v = v.
Definition json_clean_obj (o : obj) : Prop := jsonify_obj o = o.

End JS.

(* ===================================================================== *)
(** * utils/store.js: the orders file *)
(* ===================================================================== *)

Module Store.
Import JS.

(** The [orders] array of the document kept in data/orders.json, as
    [JSON.parse] returns it.  Every element is an order object. *)
Abbreviation db := (list obj).

(** The file: [None] while data/orders.json does not exist. *)
Abbreviation file := (option db).

(** What [JSON.stringify] writes, read back. *)
Definition stored (d : db) : db := map jsonify_obj d.

(** The file holds a JSON text: what [saveOrders] or [ensureDataFiles]
    wrote. *)
Definition json_file (f : file) : Prop :=
  match f with
  | None => True
  | Some d => stored d = d
  end.

Definition ensureDataFiles (f : file) : file :=
  match f with
  | None => Some []
  | Some _ => f
  end.

Definition loadOrders (f : file) : db * file :=
  let f' := ensureDataFiles f in (default [] f', f').

Definition saveOrders (d : db) (f : file) : file :=
  match ensureDataFiles f with
  | _ => Some (stored d)
  end.

(** The callback [o => o.id === id] of [find] and [findIndex]. *)
Definition has_id (id : value) (o : obj) : Prop :=
  strict_eq (prop o "id") id = true.

(** The callback [o => o.channelId === channelId]. *)
Definition in_channel (channelId : value) (o : obj) : Prop :=
  strict_eq (prop o "channelId") channelId = true.

#[export] Instance has_id_dec id o : Decision (has_id id o).
Proof. unfold has_id. apply _. Defined.

#[export] Instance in_channel_dec ch o : Decision (in_channel ch o).
Proof. unfold in_channel. apply _. Defined.

(** [upsertOrder(order)]: the first record with the id of [order] is
    replaced by [{...old, ...order}], or [order] is pushed; the whole
    document is written back and the argument is returned. *)
Definition upsertOrder (order : obj) (f : file) : obj * file :=
  let '(d, f1) := loadOrders f in
  let d' :=
    match list_find (has_id (prop order "id")) d with
    | None => d ++ [order]
    | Some (idx, old) => <[idx := assign old order]> d
    end in
  (order, saveOrders d' f1).

(** [getOrderById(id)]: the first record with that id, or [null] (here
    [None]). *)
Definition getOrderById (id : value) (f : file) : option obj * file :=
  let '(d, f1) := loadOrders f in
  (snd <$> list_find (has_id id) d, f1).

Definition getOrderByChannelId (channelId : value) (f : file)
  : option obj * file :=
  let '(d, f1) := loadOrders f in
  (snd <$> list_find (in_channel channelId) d, f1).

(** [markPaid(id, payment)].  [now] is the text that
    [new Date().toISOString()] returns at the call. *)
Definition markPaid (now : string) (id payment : value) (f : file)
  : option obj * file :=
  let '(found, f1) := getOrderById id f in
  match found with
  | None => (None, f1)
  | Some order =>
      let order1 := <["status" := VStr "paid"]> order in
      let order2 := <["paidAt" := VStr now]> order1 in
      let order3 :=
        <["payment" :=
            VObj (assign (spread (prop order2 "payment")) (spread payment))]>
          order2 in
      let '(_, f2) := upsertOrder order3 f1 in
      (Some order3, f2)
  end.

(** The record [markPaid] builds from the one it found. *)
Definition paid_order (now : string) (payment : value) (order : obj) : obj :=
  <["payment" :=
      VObj (assign (spread (prop (<["paidAt" := VStr now]>
                                    (<["status" := VStr "paid"]> order))
                                 "payment"))
                   (spread payment))]>
    (<["paidAt" := VStr now]> (<["status" := VStr "paid"]> order)).

(** The orders a file holds, as [loadOrders] returns them. *)
Definition orders_of (f : file) : db := fst (loadOrders f).

End Store.

(* ===================================================================== *)
(** * index.js: the world the handlers run in *)
(* ===================================================================== *)

Module Bot.
Import JS Store.

(** [process.env]: a variable is a string or is not set. *)
Abbreviation env := (gmap string string).

Definition env_get (e : env) (k : string) : value :=
  match e !! k with
  | Some s => VStr s
  | None => VUndef
  end.

(** What a message sent to the chat platform is about; the texts around
    these data are constants of the program. *)
Inductive message : Type :=
| PaymentMethods (product total : string)
| PaymentInstructions (method order_id product total : string) (url : value)
| PaidNotice (order_id product amount method : string) (mention : value)
| NotPaidWarning
| ClosingNotice
| CompletedOrder (buyer_id buyer_tag order_id product method amount : string).

Inductive reply : Type :=
| ProductNotFound
| PendingOrderExists (order_id : string)
| UseInsideTicket
| OnlyOwnerOrStaff
| ChoosePaymentMethod
| OrderNotFound
| AlreadyPaid
| PaymentLinkSent
| CheckoutLinkSent
| ErrorReply (msg : string).

(** What a handler does to the outside. *)
Inductive effect : Type :=
| Respond (status : nat) (body : string)
| ConsoleLog (what : string)
| ChannelSend (channel : value) (m : message)
| InteractionReply (r : reply)
| InvoicePDF (data : obj) (invoiceId : string)
| DirectMessage (user : value) (order_id invoiceId : string)
| DeleteChannelAfter (channel : string) (ms : N).

(** The collaborators of the program: the chat platform, the two payment
    providers, the PDF renderer, [JSON.parse] and [JSON.stringify], and the
    case tables of the language.  [resolves] tells whether a call to the
    outside resolves or rejects.  [slice_upper id] is
    [id.slice(0, 8).toUpperCase()] for an [id] that has a character outside
    ASCII among its first eight bytes. *)
Record platform : Type := {
  resolves : effect -> bool;
  channel_exists : value -> bool;
  user_exists : value -> bool;
  constructEvent : string -> value -> string -> result value;
  JSON_parse : string -> result value;
  JSON_stringify : value -> string;
  cryptomus_payment : obj -> result (bool * value);
  stripe_sessions_create : obj -> result value;
  link_button : value -> bool;
  slice_upper : string -> string;
}.

(** The state of the process and of its disk, and what it did so far:
    - [file]: data/orders.json;
    - [globals]: the [_force_<channel>] counters kept on [globalThis];
    - [trace]: the effects, oldest first. *)
Record world : Type := {
  file : Store.file;
  globals : gmap string nat;
  trace : list effect;
}.

Definition set_file (f : Store.file) (w : world) : world :=
  {| file := f; globals := globals w; trace := trace w |}.
Definition set_globals (g : gmap string nat) (w : world) : world :=
  {| file := file w; globals := g; trace := trace w |}.
Definition add_trace (e : effect) (w : world) : world :=
  {| file := file w; globals := globals w; trace := trace w ++ [e] |}.

(** A handler: it reads and changes the world, and completes normally or
    throws. *)
Definition M (A : Type) : Type := world -> result A * world.

Definition ret {A} (a : A) : M A := fun w => (Ok a, w).

Definition bindM {A B} (m : M A) (k : A -> M B) : M B :=
  fun w =>
    match m w with
    | (Ok a, w') => k a w'
    | (Throw e, w') => (Throw e, w')
    end.

#[export] Instance M_ret : MRet M := @ret.
#[export] Instance M_bind : MBind M := fun A B k m => bindM m k.

(** [try { m } catch (e) { h e }]. *)
Definition try_catch {A} (m : M A) (h : string -> M A) : M A :=
  fun w =>
    match m w with
    | (Ok a, w') => (Ok a, w')
    | (Throw e, w') => h e w'
    end.

Definition lift {A} (r : result A) : M A := fun w => (r, w).

Definition emit (e : effect) : M unit := fun w => (Ok tt, add_trace e w).

(** [await] of a call to the outside. *)
Definition await (X : platform) (e : effect) : M unit :=
  fun w => if resolves X e then (Ok tt, add_trace e w) else (Throw "rejected", w).

(** A call into utils/store.js. *)
Definition store {A} (op : Store.file -> A * Store.file) : M A :=
  fun w => let '(a, f') := op (file w) in (Ok a, set_file f' w).

(** [money(n)]: [`$${Number(n).toFixed(2)}`]. *)
Definition money (n : value) : result string :=
  bind (ToNumber n) (fun x => Ok ("$" +:+ F64.toFixed2 x)).

Definition STORE_NAME (e : env) : value :=
  or_else (env_get e "STORE_NAME") (VStr "Crystal Store").

(** ** notifyPaid *)

Definition notifyPaid (X : platform) (e : env) (order : obj) : M unit :=
  try_catch
    (if negb (channel_exists X (prop order "channelId")) then ret tt
     else
       id ← lift (ToString (prop order "id"));
       name ← lift (bind (get (prop order "product") "name") ToString);
       amount ← lift (bind (get (prop order "product") "price") money);
       method ← lift (bind (get (prop order "payment") "method") ToString);
       let mention :=
         if truthy (env_get e "OWNER_ID")
         then VStr ("<@" +:+ default "" (e !! "OWNER_ID") +:+ ">")
         else VUndef in
       await X (ChannelSend (prop order "channelId")
                  (PaidNotice id name amount method mention)))
    (fun _ => emit (ConsoleLog "notifyPaid error:")).

(** ** POST /webhook/cryptomus *)

(** utils/crypto.js, [isCryptomusWebhookTrusted(req, env)]. *)
Definition isCryptomusWebhookTrusted (e : env) : bool :=
  if negb (truthy (env_get e "CRYPTOMUS_WEBHOOK_SECRET")) then true else true.

Definition paidStatuses (status : string) : bool :=
  String.eqb status "paid" || String.eqb status "paid_over"
  || String.eqb status "paid_partial".

(** The payment fields the Crypto webhook passes to [markPaid]. *)
Definition cryptomus_fields (payload : value) : value :=
  VObj {[ "method" := VStr "crypto";
          "provider" := VStr "cryptomus";
          "transactionId" :=
            or_else (get_opt payload "uuid")
              (or_else (get_opt payload "txid")
                 (or_else (get_opt payload "payment_uuid") VNull));
          "paidAmount" := or_else (get_opt payload "amount") VNull ]}.

(** [String(payload?.status || "").toLowerCase()].  No character outside
    ASCII lowers to a text of the letters of the three paid statuses, so
    the bytes that [Text.toLowerCase] leaves in place keep a status out of
    the set as the lowered characters do. *)
Definition cryptomus_status (payload : value) : result string :=
  bind (ToString (or_else (get_opt payload "status") (VStr "")))
    (fun text => Ok (Text.toLowerCase text)).

(** [body] is [req.body] as [express.json] left it and [now] the time the
    clock shows. *)
Definition cryptomus_webhook (X : platform) (e : env) (now : string)
    (body : value) : M unit :=
  try_catch
    (if negb (isCryptomusWebhookTrusted e) then emit (Respond 401 "untrusted")
     else
       let payload := or_else body (VObj ∅) in
       let orderId := get_opt payload "order_id" in
       status ← lift (cryptomus_status payload);
       if negb (truthy orderId) then emit (Respond 200 "no order")
       else if negb (paidStatuses status) then emit (Respond 200 "not paid")
       else
         order ← store (markPaid now orderId (cryptomus_fields payload));
         match order with
         | Some o => notifyPaid X e o
         | None => ret tt
         end;;
         emit (Respond 200 "ok"))
    (fun _ =>
       emit (ConsoleLog "Cryptomus webhook error:");;
       emit (Respond 200 "ok")).

(** ** POST /webhook/stripe *)

(** utils/stripe.js, [getStripe(env)]: the client, or an error without a
    key. *)
Definition getStripe (e : env) : result unit :=
  if negb (truthy (env_get e "STRIPE_SECRET_KEY"))
  then Throw "Missing STRIPE_SECRET_KEY" else Ok tt.

(** [session?.amount_total ? `$${(session.amount_total / 100).toFixed(2)}`
    : null]. *)
Definition stripe_paidAmount (session : value) : result value :=
  let total := get_opt session "amount_total" in
  if truthy total then
    bind (ToNumber total)
      (fun x => Ok (VStr ("$" +:+ F64.toFixed2 (F64.div x F64.hundred))))
  else Ok VNull.

Definition stripe_fields (session : value) : result value :=
  let txid :=
    or_else (get_opt session "payment_intent")
      (or_else (get_opt session "id") VNull) in
  bind (stripe_paidAmount session)
    (fun amount =>
       Ok (VObj {[ "method" := VStr "stripe";
                   "provider" := VStr "stripe";
                   "transactionId" := txid;
                   "paidAmount" := amount ]})).

(** A request to the Card endpoint: the raw body and the
    [stripe-signature] header. *)
Record stripe_request : Type := {
  raw_body : string;
  signature : value;
}.

(** What the endpoint does with an event: a completed checkout whose
    metadata carry an order id marks that order paid. *)
Definition on_stripe_event (X : platform) (e : env) (now : string)
    (event : value) : M unit :=
  type ← lift (get event "type");
  if strict_eq type (VStr "checkout.session.completed") then
    session ← lift (bind (get event "data") (fun d => get d "object"));
    let orderId := get_opt (get_opt session "metadata") "orderId" in
    if truthy orderId then
      fields ← lift (stripe_fields session);
      order ← store (markPaid now orderId fields);
      match order with
      | Some o => notifyPaid X e o
      | None => ret tt
      end
    else ret tt
  else ret tt.

Definition stripe_webhook (X : platform) (e : env) (now : string)
    (req : stripe_request) : M unit :=
  try_catch
    (lift (getStripe e);;
     let sig := signature req in
     let whSecret := env_get e "STRIPE_WEBHOOK_SECRET" in
     event ← lift (if truthy whSecret
                   then constructEvent X (raw_body req) sig
                          (default "" (e !! "STRIPE_WEBHOOK_SECRET"))
                   else JSON_parse X (raw_body req));
     on_stripe_event X e now event;;
     emit (Respond 200 "ok"))
    (fun _ =>
       emit (ConsoleLog "Stripe webhook error:");;
       emit (Respond 200 "ok")).

(** ** utils/stripe.js *)

(** [Math.round(Number(amountUsd) * 100)]. *)
Definition unit_amount (amountUsd : value) : result F64.float :=
  bind (ToNumber amountUsd) (fun x => Ok (F64.round (F64.mul x F64.hundred))).

(** The argument of [stripe.checkout.sessions.create]. *)
Definition checkout_params (amountUsd orderId productName successUrl
    cancelUrl : value) : result obj :=
  bind (unit_amount amountUsd)
    (fun cents =>
       Ok {[ "mode" := VStr "payment";
             "line_items" :=
               VArr [VObj {[ "price_data" :=
                               VObj {[ "currency" := VStr "usd";
                                       "unit_amount" := VNum cents;
                                       "product_data" :=
                                         VObj {[ "name" := productName ]} ]};
                             "quantity" := VNum (F64.of_Z 1) ]}];
             "metadata" := VObj {[ "orderId" := orderId ]};
             "success_url" :=
               or_else successUrl (VStr "https://example.com/success");
             "cancel_url" :=
               or_else cancelUrl (VStr "https://example.com/cancel") ]}).

(** [{ url: session.url, id: session.id }], what the adapter makes of the
    session the provider answered. *)
Definition checkout_answer (session : value) : result obj :=
  bind (get session "url") (fun url =>
  bind (get session "id") (fun id =>
  Ok ({[ "url" := url; "id" := id ]} : obj))).

Definition createStripeCheckout (X : platform) (e : env)
    (amountUsd orderId productName successUrl cancelUrl : value)
  : result obj :=
  bind (getStripe e) (fun _ =>
  bind (checkout_params amountUsd orderId productName successUrl cancelUrl)
    (fun params =>
  bind (stripe_sessions_create X params) checkout_answer)).

(** ** utils/crypto.js *)

Definition getEnv (e : env) : value * value :=
  (or_else (env_get e "CRYPTOMUS_MERCHANT_UUID")
     (or_else (env_get e "CRYPTOMUS_MERCHANT")
        (or_else (env_get e "CRYPTOMUS_MERCHAN") (VStr ""))),
   or_else (env_get e "CRYPTOMUS_API_KEY") (VStr "")).

(** [String(Number(amountUsd).toFixed(2))]. *)
Definition invoice_amount (amountUsd : value) : result string :=
  bind (ToNumber amountUsd) (fun x => Ok (F64.toFixed2 x)).

(** The body posted to the invoice API. *)
Definition invoice_body (amountUsd orderId description successUrl
    callbackUrl : value) : result obj :=
  bind (invoice_amount amountUsd)
    (fun amount =>
       Ok {[ "amount" := VStr amount;
             "currency" := VStr "USD";
             "order_id" := orderId;
             "url_return" := or_else successUrl VUndef;
             "url_callback" := or_else callbackUrl VUndef;
             "is_payment_multiple" := VBool false;
             "lifetime" := VNum (F64.of_Z 3600);
             "additional_data" := or_else description (VStr "") ]}).

(** What the adapter makes of the answer of the provider, [ok] being
    [res.ok] and [data] the body of the answer (or [{}]): the link and the
    id of the invoice, or an error that quotes the answer. *)
Definition invoice_answer (X : platform) (answer : bool * value)
  : result obj :=
  let '(ok, data) := answer in
  let result := get_opt data "result" in
  if negb ok || negb (truthy (get_opt result "url"))
  then
    let msg :=
      or_else (get_opt data "message")
        (or_else (get_opt data "error") (VStr (JSON_stringify X data))) in
    bind (ToString msg)
      (fun text => Throw ("Cryptomus invoice failed: " +:+ text))
  else Ok ({[ "url" := get_opt result "url";
              "uuid" := get_opt result "uuid";
              "data" := data ]} : obj).

Definition createCryptomusInvoice (X : platform) (e : env)
    (amountUsd orderId description successUrl callbackUrl : value)
  : result obj :=
  let '(merchant, apiKey) := getEnv e in
  if negb (truthy merchant) then Throw "Missing CRYPTOMUS_MERCHANT_UUID"
  else if negb (truthy apiKey) then Throw "Missing CRYPTOMUS_API_KEY"
  else
    bind (invoice_body amountUsd orderId description successUrl callbackUrl)
      (fun body => bind (cryptomus_payment X body) (invoice_answer X)).

(** ** Button interactions *)

(** What the handlers read of a button interaction: [i.customId],
    [i.guildId], [i.channelId], [i.channel.name], [i.user.id],
    [i.user.tag] and, in the guarded variant, [isStaff(i.member)]. *)
Record interaction : Type := {
  customId : string;
  guildId : value;
  channelId : string;
  channel_name : option string;
  user_id : string;
  user_tag : string;
  is_staff : bool;
}.

(** [i.customId.split(":")[1]]. *)
Definition custom_arg (i : interaction) : value :=
  match Text.split_colon_1 (customId i) with
  | Some s => VStr s
  | None => VUndef
  end.

(** [products.find(p => p.id === prodId)]. *)
Definition find_product (products : list obj) (prodId : value) : option obj :=
  snd <$> list_find (has_id prodId) products.

(** The order a product selection creates; [uuid] is the id that [uuid()]
    returned and [now] the reading of the clock. *)
Definition new_order (uuid now : string) (i : interaction) (prod : obj) : obj :=
  {[ "id" := VStr uuid;
     "status" := VStr "pending";
     "createdAt" := VStr now;
     "guildId" := guildId i;
     "channelId" := VStr (channelId i);
     "userId" := VStr (user_id i);
     "userTag" := VStr (user_tag i);
     "product" := VObj {[ "id" := prop prod "id";
                          "name" := prop prod "name";
                          "price" := prop prod "price" ]};
     "payment" := VObj {[ "method" := VNull; "provider" := VNull;
                          "url" := VNull; "transactionId" := VNull;
                          "paidAmount" := VNull ]} ]}.

(** What a branch of the button handler hands back: [return i.reply(...)]
    calls [reply] and returns its promise without awaiting it, so the
    promise of the handler settles as the reply does, outside the [try];
    a plain [return] hands back nothing. *)
Definition return_reply (r : reply) : M (option reply) := ret (Some r).
Definition return_nothing : M (option reply) := ret None.

(** The middle of both variants of the branch: the order is stored and the
    payment methods are offered in the channel. *)
Definition create_order (X : platform) (uuid now : string) (i : interaction)
    (prod : obj) : M unit :=
  store (upsertOrder (new_order uuid now i prod));;
  name ← lift (ToString (prop prod "name"));
  total ← lift (money (prop prod "price"));
  await X (ChannelSend (VStr (channelId i)) (PaymentMethods name total)).

(** The branch [choose_prod:] of index.js. *)
Definition choose_prod (X : platform) (products : list obj)
    (uuid now : string) (i : interaction) : M (option reply) :=
  match find_product products (custom_arg i) with
  | None => return_reply ProductNotFound
  | Some prod =>
      create_order X uuid now i prod;;
      await X (InteractionReply ChoosePaymentMethod);;
      return_nothing
  end.

(** The same branch in the variant of part_004, which looks for an order
    of the channel first ("prevent creating many orders in same channel")
    and returns every reply without awaiting it. *)
Definition choose_prod_guarded (X : platform) (products : list obj)
    (uuid now : string) (i : interaction) : M (option reply) :=
  match channel_name i with
  | Some name =>
      if negb (Text.startsWith "ticket-" name)
      then return_reply UseInsideTicket
      else
        let ticketOwner := String.substring 7 (String.length name) name in
        if negb (String.eqb ticketOwner (user_id i)) && negb (is_staff i)
        then return_reply OnlyOwnerOrStaff
        else
          match find_product products (custom_arg i) with
          | None => return_reply ProductNotFound
          | Some prod =>
              existing ← store (getOrderByChannelId (VStr (channelId i)));
              match existing with
              | Some o =>
                  if negb (strict_eq (prop o "status") (VStr "paid")) then
                    id ← lift (ToString (prop o "id"));
                    return_reply (PendingOrderExists id)
                  else
                    create_order X uuid now i prod;;
                    return_reply ChoosePaymentMethod
              | None =>
                  create_order X uuid now i prod;;
                  return_reply ChoosePaymentMethod
              end
          end
  | None => return_reply UseInsideTicket
  end.

(** [{ ...order, payment: { ...order.payment, method, provider, url,
    transactionId } }]. *)
Definition with_session (order : obj) (method provider : string)
    (url transactionId : value) : obj :=
  <["payment" :=
      VObj (<["transactionId" := transactionId]>
              (<["url" := url]>
                 (<["provider" := VStr provider]>
                    (<["method" := VStr method]>
                       (spread (prop order "payment"))))))]> order.

(** [paymentInstructionsEmbed(method, order)] sent with the pay link. *)
Definition send_instructions (X : platform) (i : interaction)
    (method : string) (order : obj) (url : value) : M unit :=
  (if link_button X url then ret tt else lift (Throw "invalid URL"));;
  id ← lift (ToString (prop order "id"));
  name ← lift (bind (get (prop order "product") "name") ToString);
  total ← lift (bind (get (prop order "product") "price") money);
  await X (ChannelSend (VStr (channelId i))
             (PaymentInstructions method id name total url)).

Definition join_text (a : value) (sep : string) (b : value) : result value :=
  bind (ToString a) (fun x => bind (ToString b) (fun y => Ok (VStr (x +:+ sep +:+ y)))).

(** The call [createCryptomusInvoice({...})] of the branch [pay_crypto:]
    for [order], with its arguments. *)
Definition crypto_invoice_for (X : platform) (e : env) (order : obj)
  : result obj :=
  let base := default "" (e !! "PUBLIC_BASE_URL") in
  let cb := Text.strip_trailing_slash base +:+ "/webhook/cryptomus" in
  bind (get (prop order "product") "price") (fun price =>
  bind (get (prop order "product") "name") (fun name =>
  bind (join_text (STORE_NAME e) " | " name) (fun description =>
  createCryptomusInvoice X e price (prop order "id") description
    (or_else (env_get e "PUBLIC_BASE_URL") VUndef)
    (if Text.includes "http" cb then VStr cb else VUndef)))).

(** The branch [pay_crypto:]. *)
Definition pay_crypto (X : platform) (e : env) (i : interaction)
  : M (option reply) :=
  found ← store (getOrderById (custom_arg i));
  match found with
  | None => return_reply OrderNotFound
  | Some order =>
      if strict_eq (prop order "status") (VStr "paid")
      then return_reply AlreadyPaid
      else
        inv ← lift (crypto_invoice_for X e order);
        store (upsertOrder (with_session order "crypto" "cryptomus"
                              (prop inv "url") (prop inv "uuid")));;
        send_instructions X i "crypto" order (prop inv "url");;
        await X (InteractionReply PaymentLinkSent);;
        return_nothing
  end.

(** The call [createStripeCheckout({...})] of the branch [pay_stripe:] for
    [order], with its arguments. *)
Definition stripe_checkout_for (X : platform) (e : env) (order : obj)
  : result obj :=
  let base :=
    or_else (env_get e "PUBLIC_BASE_URL") (VStr "https://example.com") in
  bind (join_text base "/success?order=" (prop order "id")) (fun successUrl =>
  bind (join_text base "/cancel?order=" (prop order "id")) (fun cancelUrl =>
  bind (get (prop order "product") "price") (fun price =>
  bind (get (prop order "product") "name") (fun name =>
  bind (join_text (STORE_NAME e) " - " name) (fun productName =>
  createStripeCheckout X e price (prop order "id") productName successUrl
    cancelUrl))))).

(** The branch [pay_stripe:]. *)
Definition pay_stripe (X : platform) (e : env) (i : interaction)
  : M (option reply) :=
  found ← store (getOrderById (custom_arg i));
  match found with
  | None => return_reply OrderNotFound
  | Some order =>
      if strict_eq (prop order "status") (VStr "paid")
      then return_reply AlreadyPaid
      else
        session ← lift (stripe_checkout_for X e order);
        store (upsertOrder (with_session order "stripe" "stripe"
                              (prop session "url") (prop session "id")));;
        send_instructions X i "stripe" order (prop session "url");;
        await X (InteractionReply CheckoutLinkSent);;
        return_nothing
  end.

(** The handler around a branch: the [try]/[catch] of index.js, which
    logs and tries to tell the user; after it the handler settles as the
    reply the branch returned, if it returned one. *)
Definition button (X : platform) (branch : M (option reply)) : M unit :=
  returned ←
    try_catch branch
      (fun msg =>
         emit (ConsoleLog "Button error:");;
         try_catch (await X (InteractionReply (ErrorReply msg)))
           (fun _ => ret tt);;
         return_nothing);
  match returned with
  | Some r => await X (InteractionReply r)
  | None => ret tt
  end.

(** The same around the branches of part_004, whose [catch] logs another
    text (no reply was made or deferred when an awaited call of
    [choose_prod:] fails, so the error goes out with [reply]). *)
Definition button_guarded (X : platform) (branch : M (option reply)) : M unit :=
  returned ←
    try_catch branch
      (fun msg =>
         emit (ConsoleLog "Interaction error:");;
         try_catch (await X (InteractionReply (ErrorReply msg)))
           (fun _ => ret tt);;
         return_nothing);
  match returned with
  | Some r => await X (InteractionReply r)
  | None => ret tt
  end.

(** ** The close command [+dn] *)

(** What the handler reads of a message: [m.guild], [m.channel.name],
    [m.channel.id], [m.content], [m.author.id] and whether the member has
    the ManageChannels permission. *)
Record chat_message : Type := {
  in_guild : bool;
  m_channel_name : option string;
  m_channel_id : string;
  content : option string;
  author_id : string;
  has_manage : bool;
}.

(** The guards of the handler: a ticket channel of a guild, the exact
    command, and an author who is the owner or may manage channels. *)
Definition authorized_close (e : env) (m : chat_message) : bool :=
  in_guild m
  && match m_channel_name m with
     | Some name => Text.startsWith "ticket-" name
     | None => false
     end
  && match content m with
     | Some c => String.eqb (Text.trim c) "+dn"
     | None => false
     end
  && ((truthy (env_get e "OWNER_ID")
       && strict_eq (VStr (author_id m)) (env_get e "OWNER_ID"))
      || has_manage m).

Definition forceKey (m : chat_message) : string := "_force_" +:+ m_channel_id m.

(** [`INV-${order.id.slice(0, 8).toUpperCase()}`]: [slice] and
    [toUpperCase] exist on a string only.  When the first eight bytes of
    the id are ASCII they are its first eight code units and their upper
    case is that of the letters; otherwise the answer is the engine's. *)
Definition invoiceId (X : platform) (order : obj) : result string :=
  match prop order "id" with
  | VStr id =>
      let head := Text.slice0 8 id in
      Ok ("INV-" +:+ (if Text.is_ascii head then Text.toUpperCase head
                      else slice_upper X id))
  | _ => Throw "TypeError"
  end.

(** The argument of [createInvoicePDF]. *)
Definition invoice_data (e : env) (now : string) (order : obj) (inv : string)
  : result obj :=
  bind (get (prop order "product") "name") (fun name =>
  bind (get (prop order "product") "price") (fun price =>
  bind (get (prop order "payment") "method") (fun method =>
  bind (get (prop order "payment") "paidAmount") (fun paid =>
  bind (if truthy paid then Ok paid
        else bind (money price) (fun t => Ok (VStr t))) (fun paymentAmount =>
  bind (get (prop order "payment") "transactionId") (fun txid =>
  Ok ({[ "storeName" := STORE_NAME e;
         "orderId" := prop order "id";
         "invoiceId" := VStr inv;
         "buyerTag" := prop order "userTag";
         "buyerId" := prop order "userId";
         "productName" := name;
         "amountUsd" := price;
         "paymentMethod" := or_else method (VStr "-");
         "paymentAmount" := paymentAmount;
         "transactionId" := or_else txid (VStr "-");
         "createdAt" := VStr now ]} : obj))))))).

(** The summary posted to the log channel. *)
Definition completed_order (order : obj) : result message :=
  bind (ToString (prop order "userId")) (fun uid =>
  bind (ToString (prop order "userTag")) (fun tag =>
  bind (ToString (prop order "id")) (fun id =>
  bind (bind (get (prop order "product") "name") ToString) (fun name =>
  bind (bind (get (prop order "payment") "method") ToString) (fun method =>
  bind (bind (get (prop order "product") "price") money) (fun amount =>
  Ok (CompletedOrder uid tag id name method amount))))))).

(** Invoice, direct message to the buyer and log entry for [order]. *)
Definition deliver_invoice (X : platform) (e : env) (now : string)
    (order : obj) : M unit :=
  inv ← lift (invoiceId X order);
  data ← lift (invoice_data e now order inv);
  await X (InvoicePDF data inv);;
  (if user_exists X (prop order "userId") then
     id ← lift (ToString (prop order "id"));
     try_catch (await X (DirectMessage (prop order "userId") id inv))
       (fun _ => ret tt)
   else ret tt);;
  if truthy (env_get e "LOG_CHANNEL_ID") then
    if channel_exists X (env_get e "LOG_CHANNEL_ID") then
      summary ← lift (completed_order order);
      await X (ChannelSend (env_get e "LOG_CHANNEL_ID") summary)
    else ret tt
  else ret tt.

(** What follows once the command goes through: the notice, the invoice
    when the channel has an order, and the deletion timer. *)
Definition finish_close (X : platform) (e : env) (now : string)
    (m : chat_message) (order : option obj) : M unit :=
  await X (ChannelSend (VStr (m_channel_id m)) ClosingNotice);;
  match order with
  | Some o => deliver_invoice X e now o
  | None => ret tt
  end;;
  emit (DeleteChannelAfter (m_channel_id m) 10000).

(** [globalThis[forceKey] = (globalThis[forceKey] || 0) + 1], read back. *)
Definition count_force (m : chat_message) : M nat :=
  fun w =>
    let c := default 0%nat (globals w !! forceKey m) + 1 in
    (Ok c, set_globals (<[forceKey m := c]> (globals w)) w).

(** The [MessageCreate] handler. *)
Definition close_command (X : platform) (e : env) (now : string)
    (m : chat_message) : M unit :=
  if negb (authorized_close e m) then ret tt
  else
    order ← store (getOrderByChannelId (VStr (m_channel_id m)));
    match order with
    | Some o =>
        if negb (strict_eq (prop o "status") (VStr "paid")) then
          count ← count_force m;
          if Nat.ltb count 2
          then await X (ChannelSend (VStr (m_channel_id m)) NotPaidWarning)
          else finish_close X e now m order
        else finish_close X e now m order
    | None => finish_close X e now m order
    end.

(** ** The buttons the program builds *)

(** The [customId] of the two payment buttons of an order,
    [`pay_crypto:${orderId}`] and [`pay_stripe:${orderId}`]. *)
Definition pay_crypto_id (orderId : string) : string := "pay_crypto:" +:+ orderId.
Definition pay_stripe_id (orderId : string) : string := "pay_stripe:" +:+ orderId.

(** A product button: [customId], label and emoji. *)
Record product_button : Type := {
  button_id : string;
  button_label : string;
  button_emoji : value;
}.

(** [new ButtonBuilder().setCustomId(`choose_prod:${p.id}`)
    .setLabel(`${p.name} (${money(p.price)})`).setEmoji(p.emoji)]. *)
Definition product_button_of (p : obj) : result product_button :=
  bind (ToString (prop p "id")) (fun id =>
  bind (ToString (prop p "name")) (fun name =>
  bind (money (prop p "price")) (fun total =>
  Ok {| button_id := "choose_prod:" +:+ id;
        button_label := name +:+ " (" +:+ total +:+ ")";
        button_emoji := prop p "emoji" |}))).

(** The loop that lays the buttons out in rows: a full row (five buttons)
    is pushed before the next button is added to a new one.  [mk] builds
    the component of a product. *)
Fixpoint rows_loop {B} (mk : obj -> result B) (ps : list obj)
    (rows : list (list B)) (row : list B) (count : nat)
  : result (list (list B) * list B * nat) :=
  match ps with
  | [] => Ok (rows, row, count)
  | p :: ps' =>
      let '(rows, row, count) :=
        if (count =? 5)%nat then (rows ++ [row], [], 0%nat)
        else (rows, row, count) in
      bind (mk p) (fun b => rows_loop mk ps' rows (row ++ [b]) (S count))
  end.

(** The rows sent with the products message: the last row is pushed when
    it holds a button. *)
Definition component_rows {B} (mk : obj -> result B) (ps : list obj)
  : result (list (list B)) :=
  bind (rows_loop mk ps [] [] 0%nat)
    (fun '(rows, row, count) =>
       Ok (if (count =? 0)%nat then rows else rows ++ [row])).

Definition product_rows (ps : list obj) : result (list (list product_button)) :=
  component_rows product_button_of ps.

(** ** Ticket anti-double lock *)

(** [creatingTickets]: user id to the time of the last lock, in
    milliseconds ([Date.now()] is an integer). *)
Abbreviation locks := (gmap string Z).

(** [acquireLock(userId, ttlMs)] at the time [now]; the timer it sets is
    [release_timer now userId]. *)
Definition acquireLock (now : Z) (userId : string) (ttlMs : Z) (m : locks)
  : bool * locks :=
  let last := match m !! userId with
              | Some t => if (t =? 0)%Z then 0%Z else t
              | None => 0%Z
              end in
  if (now - last <? ttlMs)%Z then (false, m)
  else (true, <[userId := now]> m).

(** The callback of the timer: [if (creatingTickets.get(userId) === now)
    creatingTickets.delete(userId)], [now] being the time the lock was
    taken. *)
Definition release_timer (stamp : Z) (userId : string) (m : locks) : locks :=
  match m !! userId with
  | Some t => if (t =? stamp)%Z then delete userId m else m
  | None => m
  end.

(** ** What the adapters ask for *)



(** ** What a trace shows *)

(** The HTTP responses sent, oldest first. *)
Definition responses (t : list effect) : list (nat * string) :=
  omap (fun e => match e with
                 | Respond code body => Some (code, body)
                 | _ => None
                 end) t.

(** The messages sent to chat channels. *)
Definition is_channel_send (e : effect) : bool :=
  match e with
  | ChannelSend _ _ => true
  | _ => false
  end.

Definition is_invoice (e : effect) : bool :=
  match e with
  | InvoicePDF _ _ => true
  | _ => false
  end.


(** A computation that leaves the [globalThis] counters alone. *)
Definition keeps_globals {A} (m : M A) : Prop :=
  forall w, globals (snd (m w)) = globals w.

(** A handler run: the outcome and the world it leaves. *)
Definition run {A} (m : M A) (w : world) : world := snd (m w).

(** A computation that does not write the orders file. *)
Definition quiet {A} (m : M A) : Prop :=
  forall w, file (snd (m w)) = file w.

(** ** Orders as the program creates them *)

(** A value that is neither an object nor an array. *)
Definition plain (v : value) : bool :=
  match v with
  | VArr _ | VObj _ => false
  | _ => true
  end.


(** The id of an order and its product snapshot [{id, name, price}]. *)
Definition snapshot (order : obj) : option value * option value :=
  (order !! "id", order !! "product").

(** Every order of [f] is still in [f'], at its place, with its id and
    its product snapshot. *)
Definition keeps_snapshots (f f' : Store.file) : Prop :=
  forall i r,
    orders_of f !! i = Some r ->
    exists r', orders_of f' !! i = Some r' /\ snapshot r' = snapshot r.

(** One run of a handler that may write the orders file, from a world to
    the next.  The id that [uuid()] hands to a product selection is one
    that no stored order has. *)
Inductive handler_run (products : list obj) : world -> world -> Prop :=
| run_cryptomus_webhook X e now body w :
    handler_run products w (run (cryptomus_webhook X e now body) w)
| run_stripe_webhook X e now req w :
    handler_run products w (run (stripe_webhook X e now req) w)
| run_pay_crypto X e i w :
    handler_run products w (run (button X (pay_crypto X e i)) w)
| run_pay_stripe X e i w :
    handler_run products w (run (button X (pay_stripe X e i)) w)
| run_close_command X e now m w :
    handler_run products w (run (close_command X e now m) w)
| run_choose_prod X uuid now i w :
    Forall (fun o => ~ has_id (VStr uuid) o) (orders_of (file w)) ->
    handler_run products w
      (run (button X (choose_prod X products uuid now i)) w).

End Bot.

(* ===================================================================== *)
(** * Sample data *)
(* ===================================================================== *)

Module Sample.
Import JS Store Bot.

(** The Number a decimal literal denotes. *)
Definition num (literal : string) : value := VNum (F64.of_string literal).

Definition gold : obj :=
  {[ "id" := VStr "gold"; "name" := VStr "Gold Pack"; "price" := num "9.99" ]}.

Definition products : list obj := [gold].

Definition click (custom channel user : string) : interaction :=
  {| customId := custom; guildId := VStr "G1"; channelId := channel;
     channel_name := Some ("ticket-" +:+ user); user_id := user;
     user_tag := "buyer#0001"; is_staff := false |}.

(** The order that choosing the Gold Pack in a channel creates. *)
Definition order (id channel : string) : obj :=
  new_order id "2024-05-01T09:00:00.000Z"
    (click "choose_prod:gold" channel "U1") gold.

(** The same order after [markPaid] at [paidAt]. *)
Definition paid_order_at (id channel paidAt : string) : obj :=
  paid_order paidAt
    (VObj {[ "method" := VStr "crypto"; "provider" := VStr "cryptomus";
             "transactionId" := VStr "tx-1"; "paidAmount" := VStr "9.99" ]})
    (order id channel).

(** A completed checkout for order O1. *)
Definition checkout_completed : value :=
  VObj {[ "type" := VStr "checkout.session.completed";
          "data" :=
            VObj {[ "object" :=
                      VObj {[ "id" := VStr "cs_1";
                              "payment_intent" := VStr "pi_1";
                              "amount_total" := num "999";
                              "metadata" := VObj {[ "orderId" := VStr "O1" ]} ]} ]} ]}.

(** A platform whose calls resolve; its signature check accepts one
    header only. *)
Definition good_signature : value := VStr "t=1,v1=5257a869".

Definition platform_ok : platform :=
  {| resolves := fun _ => true;
     channel_exists := fun _ => true;
     user_exists := fun _ => true;
     constructEvent := fun _ header _ =>
       if strict_eq header good_signature then Ok checkout_completed
       else Throw "No signatures found matching the expected signature";
     JSON_parse := fun _ => Throw "SyntaxError";
     JSON_stringify := fun _ => "{}";
     cryptomus_payment := fun _ =>
       Ok (true, VObj {[ "result" := VObj {[ "url" := VStr "https://pay.example/1";
                                              "uuid" := VStr "inv-1" ]} ]});
     stripe_sessions_create := fun _ =>
       Ok (VObj {[ "url" := VStr "https://checkout.example/1";
                   "id" := VStr "cs_1" ]});
     link_button := fun _ => true;
     slice_upper := fun id => id |}.


Definition environment : env :=
  {[ "STRIPE_SECRET_KEY" := "sk_test"; "STRIPE_WEBHOOK_SECRET" := "whsec_1";
     "OWNER_ID" := "owner"; "CRYPTOMUS_MERCHANT_UUID" := "merchant";
     "CRYPTOMUS_API_KEY" := "key" ]}.

(** The file after [saveOrders] wrote the given orders. *)
Definition saved (orders : list obj) : Store.file := Some (stored orders).

(** A fresh process over that file. *)
Definition world_with (orders : list obj) : world :=
  {| file := saved orders; globals := ∅; trace := [] |}.

Definition close_by_owner (channel : string) : chat_message :=
  {| in_guild := true; m_channel_name := Some "ticket-U1";
     m_channel_id := channel; content := Some "+dn"; author_id := "owner";
     has_manage := false |}.


(** What the examples look at in a stored order. *)
Definition summary (o : obj) : value * value * value :=
  (prop o "id", prop o "channelId", prop o "status").

End Sample.

(* ===================================================================== *)
(** * Properties of the value fragment *)
(* ===================================================================== *)

Import JS Store Bot Sample.

Lemma value_size_elem (l : list value) (v : value) :
  v ∈ l -> value_size v < value_size (VArr l).
Proof.
  induction 1 as [x l | x y l _ IH]; simpl in *; lia.
Qed.

Lemma value_size_lookup (o : obj) (k : string) (v : value) :
  o !! k = Some v -> value_size v < value_size (VObj o).
Proof.
  simpl. revert k v.
  induction o as [| i x m Hi IH] using map_ind; intros k v Hk.
  - by rewrite lookup_empty in Hk.
  - rewrite map_fold_insert_L; [| intros; lia | done].
    destruct (decide (i = k)) as [-> | Hne].
    + rewrite lookup_insert_eq in Hk. injection Hk as ->. lia.
    + rewrite lookup_insert_ne in Hk by done.
      specialize (IH k v Hk). lia.
Qed.

(** Induction on values through arrays and objects. *)
Lemma value_nested_ind (P : value -> Prop) :
  P VUndef -> P VNull -> (forall b, P (VBool b)) -> (forall x, P (VNum x)) ->
  (forall s, P (VStr s)) ->
  (forall l, Forall P l -> P (VArr l)) ->
  (forall o, map_Forall (fun _ v => P v) o -> P (VObj o)) ->
  forall v, P v.
Proof.
  intros HU HN HB HX HS HA HO v.
  remember (value_size v) as n eqn:Hn.
  revert v Hn. induction n as [n IH] using lt_wf_ind. intros v ->.
  destruct v as [| | b | x | s | l | o]; auto.
  - apply HA. apply Forall_forall. intros w Hw.
    eapply IH; [| reflexivity]. by apply value_size_elem.
  - apply HO. intros k w Hk.
    eapply IH; [| reflexivity]. by eapply value_size_lookup.
Qed.

Lemma jsonify_obj_unfold (o : obj) : jsonify (VObj o) = VObj (jsonify_obj o).
Proof. reflexivity. Qed.

Lemma json_number_not_undef (x : spec_float) : json_number x <> VUndef.
Proof. by destruct x. Qed.

Lemma jsonify_not_undef (v : value) : jsonify v <> VUndef.
Proof. destruct v; simpl; try done. apply json_number_not_undef. Qed.

Lemma json_number_idem (x : spec_float) :
  jsonify (json_number x) = json_number x.
Proof. by destruct x. Qed.

(** The round trip is idempotent: what was written once is read back
    unchanged ever after. *)
Lemma jsonify_idem (v : value) : jsonify (jsonify v) = jsonify v.
Proof.
  induction v as [| | b | x | s | l IH | o IH] using value_nested_ind;
    try reflexivity.
  - apply json_number_idem.
  - simpl. f_equal. rewrite map_map. apply map_ext_Forall.
    eapply Forall_impl; [exact IH |]. auto.
  - rewrite !jsonify_obj_unfold. f_equal. apply map_eq. intros k.
    unfold jsonify_obj. rewrite !lookup_omap.
    destruct (o !! k) as [w |] eqn:Hk; simpl; [| done].
    specialize (IH k w Hk). simpl in IH.
    destruct w; simpl in *; try done.
    + by destruct x.
    + by rewrite IH.
    + by rewrite IH.
Qed.

Lemma jsonify_prop_idem (v w : value) :
  jsonify_prop v = Some w -> jsonify_prop w = Some w.
Proof.
  unfold jsonify_prop. destruct v; intros [= <-]; simpl; try done.
  - by destruct x.
  - f_equal. apply (jsonify_idem (VArr l)).
  - f_equal. apply (jsonify_idem (VObj o)).
Qed.

Lemma jsonify_obj_idem (o : obj) : jsonify_obj (jsonify_obj o) = jsonify_obj o.
Proof.
  apply map_eq. intros k. unfold jsonify_obj. rewrite !lookup_omap.
  destruct (o !! k) as [w |]; simpl; [| done].
  destruct (jsonify_prop w) as [u |] eqn:Hw; simpl; [| done].
  by eapply jsonify_prop_idem.
Qed.

Lemma stored_idem (d : Store.db) : Store.stored (Store.stored d) = Store.stored d.
Proof.
  unfold Store.stored. rewrite map_map. apply map_ext. intros o.
  apply jsonify_obj_idem.
Qed.

(* ===================================================================== *)
(** * The order store *)
(* ===================================================================== *)

Lemma SFeqb_trans_l (a b c : spec_float) :
  SFeqb a b = true -> SFeqb c a = SFeqb c b.
Proof.
  unfold SFeqb.
  destruct a as [sa | sa | | sa ma ea], b as [sb | sb | | sb mb eb];
    simpl; try discriminate;
    try (destruct sa, sb; simpl; try discriminate);
    try (intros _; destruct c as [[] | [] | | [] mc ec]; reflexivity).
  - destruct (Z.compare ea eb) eqn:He; try discriminate.
    destruct (Pos.compare_cont Eq ma mb) eqn:Hm; try discriminate.
    apply Z.compare_eq in He. apply Pos.compare_eq in Hm. by subst.
  - destruct (Z.compare ea eb) eqn:He; try discriminate.
    destruct (Pos.compare_cont Eq ma mb) eqn:Hm; try discriminate.
    apply Z.compare_eq in He. apply Pos.compare_eq in Hm. by subst.
Qed.

Lemma strict_eq_trans_l (a b c : value) :
  strict_eq a b = true -> strict_eq c a = strict_eq c b.
Proof.
  destruct a, b; simpl; try discriminate; intros H.
  - reflexivity.
  - reflexivity.
  - apply Bool.eqb_prop in H. by subst.
  - destruct c; try reflexivity. simpl. by apply SFeqb_trans_l.
  - apply String.eqb_eq in H. by subst.
Qed.

Lemma has_id_same (id id' : value) (o : obj) :
  strict_eq id id' = true -> has_id id o <-> has_id id' o.
Proof.
  intros H. unfold has_id. by rewrite (strict_eq_trans_l _ _ _ H).
Qed.

Lemma list_find_ext_iff {A} (P Q : A -> Prop)
    `{!forall x, Decision (P x)} `{!forall x, Decision (Q x)} (l : list A) :
  (forall x, P x <-> Q x) -> list_find P l = list_find Q l.
Proof.
  intros HPQ. induction l as [| x l IH]; simpl; [done |].
  rewrite IH. destruct (decide (P x)), (decide (Q x)); try done; exfalso; firstorder.
Qed.

Lemma loadOrders_eq (f : Store.file) :
  loadOrders f = (orders_of f, Some (orders_of f)).
Proof. by destruct f. Qed.

Lemma orders_of_Some (d : db) : orders_of (Some d) = d.
Proof. reflexivity. Qed.

Lemma json_file_orders (f : Store.file) : json_file f -> stored (orders_of f) = orders_of f.
Proof. by destruct f. Qed.

Lemma json_file_lookup (d : db) (i : nat) (o : obj) :
  stored d = d -> d !! i = Some o -> jsonify_obj o = o.
Proof.
  unfold stored. intros Hd Ho.
  assert (map jsonify_obj d !! i = Some (jsonify_obj o)) as H.
  { by rewrite list_lookup_fmap, Ho. }
  rewrite Hd, Ho in H. by injection H.
Qed.

Lemma stored_insert (d : db) (i : nat) (o : obj) :
  stored (<[i := o]> d) = <[i := jsonify_obj o]> (stored d).
Proof. unfold stored. apply list_fmap_insert. Qed.

Lemma stored_app (d : db) (o : obj) :
  stored (d ++ [o]) = stored d ++ [jsonify_obj o].
Proof. unfold stored. by rewrite fmap_app. Qed.

(** What [upsertOrder] leaves in the file. *)
Lemma upsertOrder_new (order : obj) (f : Store.file) :
  list_find (has_id (prop order "id")) (orders_of f) = None ->
  upsertOrder order f = (order, Some (stored (orders_of f) ++ [jsonify_obj order])).
Proof.
  intros H. unfold upsertOrder. rewrite loadOrders_eq, H.
  unfold saveOrders. by rewrite stored_app.
Qed.

Lemma upsertOrder_old (order old : obj) (idx : nat) (f : Store.file) :
  list_find (has_id (prop order "id")) (orders_of f) = Some (idx, old) ->
  upsertOrder order f
  = (order, Some (<[idx := jsonify_obj (assign old order)]> (stored (orders_of f)))).
Proof.
  intros H. unfold upsertOrder. rewrite loadOrders_eq, H.
  unfold saveOrders. by rewrite stored_insert.
Qed.

Lemma paid_order_id (now : string) (payment : value) (order : obj) :
  prop (paid_order now payment order) "id" = prop order "id".
Proof.
  unfold paid_order, prop. by rewrite !lookup_insert_ne by done.
Qed.

Lemma assign_absorb (old new : obj) :
  (forall k, is_Some (old !! k) -> is_Some (new !! k)) ->
  assign old new = new.
Proof.
  intros Hdom. unfold assign. apply map_eq. intros k.
  destruct (new !! k) as [v |] eqn:Hk.
  - by apply lookup_union_Some_l.
  - rewrite lookup_union_r by done.
    destruct (old !! k) as [w |] eqn:Ho; [| done].
    destruct (Hdom k) as [u Hu]; [by eexists | congruence].
Qed.

Lemma assign_paid_order (now : string) (payment : value) (order : obj) :
  assign order (paid_order now payment order) = paid_order now payment order.
Proof.
  apply assign_absorb. intros k Hk. unfold paid_order.
  rewrite !lookup_insert_is_Some'. auto.
Qed.

Lemma markPaid_missing (now : string) (id payment : value) (f : Store.file) :
  list_find (has_id id) (orders_of f) = None ->
  markPaid now id payment f = (None, Some (orders_of f)).
Proof.
  intros H. unfold markPaid, getOrderById. by rewrite loadOrders_eq, H.
Qed.

Lemma markPaid_found (now : string) (id payment : value) (f : Store.file)
    (idx : nat) (old : obj) :
  list_find (has_id id) (orders_of f) = Some (idx, old) ->
  markPaid now id payment f
  = (Some (paid_order now payment old),
     Some (<[idx := jsonify_obj (paid_order now payment old)]>
             (stored (orders_of f)))).
Proof.
  intros H. unfold markPaid, getOrderById. rewrite loadOrders_eq, H.
  cbn [fmap option_fmap option_map snd].
  fold (paid_order now payment old).
  assert (list_find (has_id (prop (paid_order now payment old) "id"))
            (orders_of (Some (orders_of f))) = Some (idx, old)) as H'.
  { rewrite orders_of_Some, paid_order_id, <- H.
    apply list_find_ext_iff. intros o. apply has_id_same.
    apply list_find_Some in H as (_ & H & _). exact H. }
  rewrite (upsertOrder_old _ _ _ _ H'), assign_paid_order.
  by rewrite orders_of_Some.
Qed.

Lemma paid_order_lookup_status (now : string) (payment : value) (order : obj) :
  paid_order now payment order !! "status" = Some (VStr "paid").
Proof. unfold paid_order. by rewrite !lookup_insert_ne, lookup_insert_eq by done. Qed.

Lemma paid_order_lookup_paidAt (now : string) (payment : value) (order : obj) :
  paid_order now payment order !! "paidAt" = Some (VStr now).
Proof. unfold paid_order. by rewrite lookup_insert_ne, lookup_insert_eq by done. Qed.

Lemma paid_order_lookup_payment (now : string) (payment : value) (order : obj) :
  paid_order now payment order !! "payment"
  = Some (VObj (assign (spread (prop order "payment")) (spread payment))).
Proof.
  unfold paid_order. rewrite lookup_insert_eq. unfold prop.
  by rewrite !lookup_insert_ne by done.
Qed.

Lemma paid_order_lookup_other (now : string) (payment : value) (order : obj)
    (k : string) :
  k <> "status" -> k <> "paidAt" -> k <> "payment" ->
  paid_order now payment order !! k = order !! k.
Proof. intros. unfold paid_order. by rewrite !lookup_insert_ne by done. Qed.

Lemma jsonify_obj_lookup (o : obj) (k : string) :
  jsonify_obj o !! k = o !! k ≫= jsonify_prop.
Proof. unfold jsonify_obj. apply lookup_omap. Qed.

Lemma json_clean_lookup (o : obj) (k : string) :
  jsonify_obj o = o -> o !! k ≫= jsonify_prop = o !! k.
Proof. intros H. by rewrite <- jsonify_obj_lookup, H. Qed.

(** The written form of a marked order keeps the id of a record read from
    a JSON file. *)
Lemma written_paid_order_id (now : string) (payment : value) (order : obj) :
  jsonify_obj order = order ->
  prop (jsonify_obj (paid_order now payment order)) "id" = prop order "id".
Proof.
  intros Hc. unfold prop.
  rewrite jsonify_obj_lookup, paid_order_lookup_other by done.
  by rewrite json_clean_lookup.
Qed.

Lemma stored_insert_clean (d : db) (i : nat) (o : obj) :
  stored d = d -> stored (<[i := jsonify_obj o]> d) = <[i := jsonify_obj o]> d.
Proof. intros Hd. by rewrite stored_insert, jsonify_obj_idem, Hd. Qed.

(** After [markPaid] found a record, the same index is found again. *)
Lemma list_find_after_mark (id : value) (d : db) (idx : nat) (old new : obj) :
  list_find (has_id id) d = Some (idx, old) ->
  has_id id new ->
  list_find (has_id id) (<[idx := new]> d) = Some (idx, new).
Proof.
  intros Hf Hnew. apply list_find_Some in Hf as (Hl & Hold & Hleast).
  apply list_find_Some. split_and!.
  - apply list_lookup_insert_eq. by eapply lookup_lt_Some.
  - done.
  - intros j y Hj Hlt. rewrite list_lookup_insert_ne in Hj by lia. eauto.
Qed.

Lemma jsonify_prop_bind_idem (x : option value) :
  (x ≫= jsonify_prop) ≫= jsonify_prop = x ≫= jsonify_prop.
Proof.
  destruct x as [v |]; simpl; [| done].
  destruct (jsonify_prop v) as [w |] eqn:Hv; simpl; [| done].
  by eapply jsonify_prop_idem.
Qed.

(** Merging the same fields a second time over the written merge changes
    nothing in what is written. *)
Lemma jsonify_assign_twice (a b : obj) :
  jsonify_obj (assign (jsonify_obj (assign a b)) b) = jsonify_obj (assign a b).
Proof.
  unfold assign. apply map_eq. intros k.
  rewrite !jsonify_obj_lookup, !lookup_union, jsonify_obj_lookup, lookup_union.
  destruct (b !! k) as [v |] eqn:Hb; simpl.
  - assert ((Some v ∪ a !! k) = Some v) as -> by (by destruct (a !! k)).
    simpl. by destruct (jsonify_prop v) eqn:Hv; simpl.
  - destruct (a !! k) as [w |]; simpl; [| done].
    destruct (jsonify_prop w) as [u |] eqn:Hw; simpl; [| done].
    by eapply jsonify_prop_idem.
Qed.

(** Marking the written form of a marked order gives, once written, the
    order marked once at the later time. *)
Lemma written_paid_order_twice (t1 t2 : string) (payment : value) (old : obj) :
  jsonify_obj (paid_order t2 payment (jsonify_obj (paid_order t1 payment old)))
  = jsonify_obj (paid_order t2 payment old).
Proof.
  apply map_eq. intros k. rewrite !jsonify_obj_lookup.
  destruct (decide (k = "status")) as [-> | Hs].
  { by rewrite !paid_order_lookup_status. }
  destruct (decide (k = "paidAt")) as [-> | Ht].
  { by rewrite !paid_order_lookup_paidAt. }
  destruct (decide (k = "payment")) as [-> | Hp].
  { rewrite !paid_order_lookup_payment. simpl. do 2 f_equal.
    unfold prop at 1. rewrite jsonify_obj_lookup, paid_order_lookup_payment.
    simpl. apply jsonify_assign_twice. }
  rewrite !paid_order_lookup_other by done.
  rewrite jsonify_obj_lookup, paid_order_lookup_other by done.
  apply jsonify_prop_bind_idem.
Qed.

(** The state [markPaid] leaves when it found the order: a JSON file again,
    with the marked order, as written, found under the same id. *)
Lemma markPaid_found_state (now : string) (id payment : value) (f : Store.file)
    (idx : nat) (old : obj) :
  json_file f ->
  list_find (has_id id) (orders_of f) = Some (idx, old) ->
  snd (markPaid now id payment f)
  = Some (<[idx := jsonify_obj (paid_order now payment old)]> (orders_of f))
  /\ json_file (snd (markPaid now id payment f))
  /\ list_find (has_id id) (orders_of (snd (markPaid now id payment f)))
     = Some (idx, jsonify_obj (paid_order now payment old)).
Proof.
  intros Hf Hfind. pose proof (json_file_orders f Hf) as Hd.
  rewrite (markPaid_found _ _ _ _ _ _ Hfind), Hd. cbn [snd].
  split_and!.
  - done.
  - simpl. by apply stored_insert_clean.
  - rewrite orders_of_Some. apply (list_find_after_mark _ _ _ old); [done |].
    unfold has_id. rewrite written_paid_order_id.
    + by apply list_find_Some in Hfind as (_ & ? & _).
    + apply list_find_Some in Hfind as (Hl & _ & _).
      by eapply json_file_lookup.
Qed.

(** C5. For an id that no stored record has, [markPaid] returns the
    not-found signal ([null]) and the stored orders are what they were:
    nothing is added, removed or modified (an existing file is left as it
    is, byte for byte). *)
Theorem markPaid_unknown_id (now : string) (id payment : value) (f : Store.file) :
  Forall (fun o => ~ has_id id o) (orders_of f) ->
  fst (markPaid now id payment f) = None
  /\ orders_of (snd (markPaid now id payment f)) = orders_of f
  /\ (forall d, f = Some d -> snd (markPaid now id payment f) = Some d).
Proof.
  intros Hnone. apply (list_find_None (has_id _)) in Hnone.
  rewrite (markPaid_missing _ _ _ _ Hnone). cbn [fst snd].
  split_and!; [done | done |]. by intros d ->.
Qed.

(** C6 (as the code has it). [upsertOrder(o)] returns its argument [o].
    When no stored record has the id of [o], the written form of [o] is
    appended; otherwise the first record with that id is replaced by the
    written form of the shallow merge [{...old, ...o}], in which every
    field of [o] wins and the other fields of the old record stay. *)
Theorem upsertOrder_returns_argument (order : obj) (f : Store.file) :
  fst (upsertOrder order f) = order
  /\ (Forall (fun o => ~ has_id (prop order "id") o) (orders_of f) ->
      snd (upsertOrder order f)
      = Some (stored (orders_of f) ++ [jsonify_obj order]))
  /\ (forall idx old,
        list_find (has_id (prop order "id")) (orders_of f) = Some (idx, old) ->
        snd (upsertOrder order f)
        = Some (<[idx := jsonify_obj (assign old order)]> (stored (orders_of f)))
        /\ forall k, assign old order !! k
                     = match order !! k with
                       | Some v => Some v
                       | None => old !! k
                       end).
Proof.
  split_and!.
  - unfold upsertOrder. rewrite loadOrders_eq.
    by destruct (list_find _ _) as [[] |].
  - intros Hnone. apply (list_find_None (has_id _)) in Hnone.
    by rewrite (upsertOrder_new _ _ Hnone).
  - intros idx old Hfind. rewrite (upsertOrder_old _ _ _ _ Hfind).
    split; [done |]. intros k. unfold assign. rewrite lookup_union.
    destruct (order !! k), (old !! k); done.
Qed.

(** C10. Every call of [markPaid] on an existing order writes the time of
    that call into [paidAt]: after a first call at [now1] the stored order
    carries [now1], and after a second call at [now2] it carries [now2],
    the time of the first call being lost. *)
Theorem markPaid_restamps_paidAt (now1 now2 : string) (id p1 p2 : value)
    (f : Store.file) (order : obj) :
  json_file f ->
  fst (getOrderById id f) = Some order ->
  exists r1 r2,
    fst (getOrderById id (snd (markPaid now1 id p1 f))) = Some r1
    /\ r1 !! "paidAt" = Some (VStr now1)
    /\ fst (getOrderById id
              (snd (markPaid now2 id p2 (snd (markPaid now1 id p1 f)))))
       = Some r2
    /\ r2 !! "paidAt" = Some (VStr now2).
Proof.
  intros Hf Hget. unfold getOrderById in Hget. rewrite loadOrders_eq in Hget.
  cbn [fst] in Hget.
  destruct (list_find (has_id id) (orders_of f)) as [[idx old] |] eqn:Hfind;
    [| discriminate].
  destruct (markPaid_found_state now1 id p1 f idx old Hf Hfind)
    as (_ & Hf1 & Hfind1).
  set (f1 := snd (markPaid now1 id p1 f)) in *.
  destruct (markPaid_found_state now2 id p2 f1 idx _ Hf1 Hfind1)
    as (_ & Hf2 & Hfind2).
  eexists _, _. unfold getOrderById. rewrite !loadOrders_eq. cbn [fst].
  rewrite Hfind1, Hfind2. cbn [fmap option_fmap option_map snd].
  split_and!; try reflexivity.
  - by rewrite jsonify_obj_lookup, paid_order_lookup_paidAt.
  - by rewrite jsonify_obj_lookup, paid_order_lookup_paidAt.
Qed.

(** C1 (as the code has it). Two calls of [markPaid] with the same payment
    fields leave the file as one call made at the time of the second call
    leaves it: the stored record is the same but for [paidAt], which holds
    the time of the second call, and its status is [paid]. *)
Theorem markPaid_twice_as_last (t1 t2 : string) (id payment : value)
    (f : Store.file) (order : obj) :
  json_file f ->
  fst (getOrderById id f) = Some order ->
  snd (markPaid t2 id payment (snd (markPaid t1 id payment f)))
  = snd (markPaid t2 id payment f)
  /\ exists r,
      fst (getOrderById id
             (snd (markPaid t2 id payment (snd (markPaid t1 id payment f)))))
      = Some r
      /\ r !! "status" = Some (VStr "paid")
      /\ r !! "paidAt" = Some (VStr t2).
Proof.
  intros Hf Hget. unfold getOrderById in Hget. rewrite loadOrders_eq in Hget.
  cbn [fst] in Hget.
  destruct (list_find (has_id id) (orders_of f)) as [[idx old] |] eqn:Hfind;
    [| discriminate].
  destruct (markPaid_found_state t1 id payment f idx old Hf Hfind)
    as (Hs1 & Hf1 & Hfind1).
  destruct (markPaid_found_state t2 id payment f idx old Hf Hfind)
    as (Hs & _ & _).
  set (f1 := snd (markPaid t1 id payment f)) in *.
  destruct (markPaid_found_state t2 id payment f1 idx _ Hf1 Hfind1)
    as (Hs2 & Hf2 & Hfind2).
  split.
  - rewrite Hs2, Hs, Hs1, orders_of_Some, list_insert_insert_eq.
    by rewrite written_paid_order_twice.
  - eexists. unfold getOrderById. rewrite loadOrders_eq. cbn [fst].
    rewrite Hfind2. cbn [fmap option_fmap option_map snd].
    split_and!; [reflexivity | |].
    + by rewrite jsonify_obj_lookup, paid_order_lookup_status.
    + by rewrite jsonify_obj_lookup, paid_order_lookup_paidAt.
Qed.

(* ===================================================================== *)
(** * The handlers *)
(* ===================================================================== *)

#[local] Arguments markPaid : simpl never.
#[local] Arguments upsertOrder : simpl never.
#[local] Arguments getOrderById : simpl never.
#[local] Arguments getOrderByChannelId : simpl never.
#[local] Arguments notifyPaid : simpl never.
#[local] Arguments cryptomus_fields : simpl never.
#[local] Arguments stripe_fields : simpl never.
#[local] Arguments get_opt : simpl never.
#[local] Arguments or_else : simpl never.
#[local] Arguments truthy : simpl never.
#[local] Arguments strict_eq : simpl never.

(** Unfolds the plumbing of a handler run. *)
Ltac step :=
  unfold mbind, M_bind, bindM, mret, M_ret, ret, store, emit, lift, await,
    try_catch in *;
  cbn beta iota zeta in *.

(** [notifyPaid] completes normally, sends no HTTP response, and touches
    neither the file nor the counters; all it may add to the trace is one
    message to the channel of the order, or one log line. *)
Lemma notifyPaid_spec (X : platform) (e : env) (order : obj) (w : world) :
  exists t,
    notifyPaid X e order w
    = (Ok tt, {| file := file w; globals := globals w; trace := trace w ++ t |})
    /\ responses t = []
    /\ (t = [] \/ (exists m, t = [ChannelSend (prop order "channelId") m])
        \/ t = [ConsoleLog "notifyPaid error:"]).
Proof.
  unfold notifyPaid. step.
  destruct (channel_exists X _); cbn.
  2: { exists []. rewrite app_nil_r. destruct w; auto. }
  destruct (ToString (prop order "id")) as [id |]; cbn.
  2: { eexists; split_and!; [reflexivity | done | auto]. }
  destruct (bind (get (prop order "product") "name") ToString); cbn.
  2: { eexists; split_and!; [reflexivity | done | auto]. }
  destruct (bind (get (prop order "product") "price") money); cbn.
  2: { eexists; split_and!; [reflexivity | done | auto]. }
  destruct (bind (get (prop order "payment") "method") ToString); cbn.
  2: { eexists; split_and!; [reflexivity | done | auto]. }
  destruct (resolves X _); cbn.
  - eexists; split_and!; [reflexivity | done | eauto].
  - eexists; split_and!; [reflexivity | done | auto].
Qed.

Lemma isCryptomusWebhookTrusted_true (e : env) :
  isCryptomusWebhookTrusted e = true.
Proof. unfold isCryptomusWebhookTrusted. by destruct (negb _). Qed.

Lemma responses_app (t1 t2 : list effect) :
  responses (t1 ++ t2) = responses t1 ++ responses t2.
Proof. unfold responses. apply omap_app. Qed.

(** C7 (as the code has it). The Crypto endpoint answers every payload
    with one response, of status 200, and leaves the counters alone.  The
    status it filters on is the lower-cased text of the payload's status:
    when that text is none of [paid], [paid_over], [paid_partial] (or the
    status has no text), the orders file is left as it is and no message is
    sent to a channel; when it is one of them and the payload carries an
    order id, the file is what [markPaid] makes of it. *)
Theorem cryptomus_webhook_filters_status (X : platform) (e : env)
    (now : string) (body : value) (w : world) :
  let payload := or_else body (VObj ∅) in
  let w' := run (cryptomus_webhook X e now body) w in
  exists t,
    trace w' = trace w ++ t
    /\ (exists b, responses t = [(200, b)])
    /\ globals w' = globals w
    /\ ((forall s, cryptomus_status payload = Ok s -> paidStatuses s = false) ->
        file w' = file w /\ filter (fun x => is_channel_send x = true) t = [])
    /\ (forall s, cryptomus_status payload = Ok s -> paidStatuses s = true ->
        truthy (get_opt payload "order_id") = true ->
        file w' = snd (markPaid now (get_opt payload "order_id")
                         (cryptomus_fields payload) (file w))).
Proof.
  intros payload w'. subst w'. unfold run, cryptomus_webhook.
  rewrite isCryptomusWebhookTrusted_true. fold payload. step.
  destruct (cryptomus_status payload) as [s | err] eqn:Hs; cbn.
  2: { rewrite <- app_assoc.
       eexists. split_and!; [reflexivity | by eexists | done | | ].
       - intros _. split; [done |]. reflexivity.
       - intros ? [=]. }
  destruct (truthy (get_opt payload "order_id")) eqn:Hid; cbn.
  2: { eexists. split_and!; [reflexivity | by eexists | done | | ].
       - intros _. split; [done |]. reflexivity.
       - intros ? _ _ [=]. }
  destruct (paidStatuses s) eqn:Hp; cbn.
  2: { eexists. split_and!; [reflexivity | by eexists | done | | ].
       - intros _. split; [done |]. reflexivity.
       - intros ? [= <-]. congruence. }
  destruct (markPaid now (get_opt payload "order_id")
              (cryptomus_fields payload) (file w)) as [[o |] f'] eqn:Hm; cbn.
  - destruct (notifyPaid_spec X e o (set_file f' w)) as (t & -> & Hr & Ht).
    cbn. eexists (t ++ [Respond 200 "ok"]). split_and!.
    + by rewrite app_assoc.
    + rewrite responses_app, Hr. by eexists.
    + done.
    + intros Hno. specialize (Hno s eq_refl). congruence.
    + done.
  - eexists. split_and!; [reflexivity | by eexists | done | | done].
    intros Hno. specialize (Hno s eq_refl). congruence.
Qed.

(** The handling of a Card event sends no HTTP response and leaves the
    counters alone, whether it completes or throws. *)
Lemma on_stripe_event_spec (X : platform) (e : env) (now : string)
    (event : value) (w : world) :
  exists r f' t,
    on_stripe_event X e now event w
    = (r, {| file := f'; globals := globals w; trace := trace w ++ t |})
    /\ responses t = []
    /\ (f' = file w \/ exists id fields, f' = snd (markPaid now id fields (file w))).
Proof.
  unfold on_stripe_event. step.
  assert (forall r : result unit,
            exists r' f' t,
              (r, w) = (r', {| file := f'; globals := globals w;
                               trace := trace w ++ t |})
              /\ responses t = []
              /\ (f' = file w
                  \/ exists id fields,
                      f' = snd (markPaid now id fields (file w)))) as Hid.
  { intros r. exists r, (file w), []. rewrite app_nil_r.
    destruct w; auto. }
  destruct (get event "type") as [type | err]; cbn; [| apply Hid].
  destruct (strict_eq type _); [| apply Hid].
  destruct (bind (get event "data") _) as [session | err]; cbn; [| apply Hid].
  destruct (truthy _); [| apply Hid].
  destruct (stripe_fields session) as [fields | err]; cbn; [| apply Hid].
  destruct (markPaid now _ fields (file w)) as [[o |] f'] eqn:Hm; cbn.
  - destruct (notifyPaid_spec X e o (set_file f' w)) as (t & -> & Hr & _).
    cbn. exists (Ok tt), f', t. split_and!; [done | done |].
    right. eexists _, _. by rewrite Hm.
  - exists (Ok tt), f', []. rewrite app_nil_r. split_and!; [done | done |].
    right. eexists _, _. by rewrite Hm.
Qed.

(** C2 (as the code has it). The Card endpoint answers every request with
    exactly one response, [200 ok], also when the signature does not
    verify: with a configured secret and a request that [constructEvent]
    rejects, the answer is still [200 ok], the orders file is left as it is
    and no message is sent to a channel. *)
Theorem stripe_webhook_always_200 (X : platform) (e : env) (now : string)
    (req : stripe_request) (w : world) :
  let w' := run (stripe_webhook X e now req) w in
  exists t,
    trace w' = trace w ++ t
    /\ responses t = [(200, "ok")]
    /\ globals w' = globals w
    /\ (truthy (env_get e "STRIPE_WEBHOOK_SECRET") = true ->
        (exists err,
           constructEvent X (raw_body req) (signature req)
             (default "" (e !! "STRIPE_WEBHOOK_SECRET")) = Throw err) ->
        file w' = file w
        /\ t = [ConsoleLog "Stripe webhook error:"; Respond 200 "ok"]).
Proof.
  intros w'. subst w'. unfold run, stripe_webhook. step.
  assert (forall w0 : world,
            globals w0 = globals w ->
            (exists t0, trace w0 = trace w ++ t0 /\ responses t0 = []) ->
            exists t,
              trace (add_trace (Respond 200 "ok")
                       (add_trace (ConsoleLog "Stripe webhook error:") w0))
              = trace w ++ t
              /\ responses t = [(200, "ok")]
              /\ globals w0 = globals w) as Hcatch.
  { intros w0 Hg (t0 & Ht & Hr). cbn. rewrite Ht, <- !app_assoc. eexists.
    split_and!; [reflexivity | | done]. by rewrite responses_app, Hr. }
  assert (exists t,
            trace (add_trace (Respond 200 "ok")
                     (add_trace (ConsoleLog "Stripe webhook error:") w))
            = trace w ++ t
            /\ responses t = [(200, "ok")]
            /\ globals w = globals w
            /\ (file w = file w
                /\ t = [ConsoleLog "Stripe webhook error:"; Respond 200 "ok"]))
    as Hfail.
  { cbn. rewrite <- app_assoc. eexists. split_and!; done. }
  destruct (getStripe e) as [[] | err0]; cbn.
  2: { destruct Hfail as (t & ? & ? & ? & ? & ?). exists t. split_and!; auto. }
  set (ev := if truthy (env_get e "STRIPE_WEBHOOK_SECRET") then _ else _).
  destruct ev as [event | err1] eqn:Hev; cbn.
  2: { destruct Hfail as (t & ? & ? & ? & ? & ?). exists t. split_and!; auto. }
  destruct (on_stripe_event_spec X e now event w)
    as (r & f' & t0 & -> & Hr0 & _).
  cbn. destruct r as [[] | err2]; cbn.
  - exists (t0 ++ [Respond 200 "ok"]). split_and!.
    + by rewrite app_assoc.
    + by rewrite responses_app, Hr0.
    + done.
    + intros Hsecret (err & Hthrow). subst ev. rewrite Hsecret in Hev.
      congruence.
  - destruct (Hcatch {| file := f'; globals := globals w;
                        trace := trace w ++ t0 |} eq_refl)
      as (t & Ht & Hr & _); [by eexists |].
    exists t. split_and!; [exact Ht | exact Hr | done |].
    intros Hsecret (err & Hthrow). subst ev. rewrite Hsecret in Hev.
    congruence.
Qed.

Lemma plain_ToString (v : value) :
  plain v = true -> exists s, ToString v = Ok s.
Proof. destruct v; try discriminate; intros _; cbn; eauto. Qed.


Lemma getOrderByChannelId_eq (ch : value) (f : Store.file) :
  getOrderByChannelId ch f
  = (snd <$> list_find (in_channel ch) (orders_of f), Some (orders_of f)).
Proof. unfold getOrderByChannelId. by rewrite loadOrders_eq. Qed.

Lemma getOrderById_eq (id : value) (f : Store.file) :
  getOrderById id f
  = (snd <$> list_find (has_id id) (orders_of f), Some (orders_of f)).
Proof. unfold getOrderById. by rewrite loadOrders_eq. Qed.



(** ** Computations that leave the file alone *)

Lemma quiet_ret {A} (a : A) : quiet (ret a).
Proof. by intros w. Qed.

Lemma quiet_lift {A} (r : result A) : quiet (lift r).
Proof. by intros w. Qed.

Lemma quiet_emit (eff : effect) : quiet (emit eff).
Proof. by intros w. Qed.

Lemma quiet_await (X : platform) (eff : effect) : quiet (await X eff).
Proof. intros w. unfold await. by destruct (resolves X eff). Qed.

Lemma quiet_bind {A B} (m : M A) (k : A -> M B) :
  quiet m -> (forall a, quiet (k a)) -> quiet (m ≫= k).
Proof.
  intros Hm Hk w. step. specialize (Hm w).
  destruct (m w) as [[a | err] w1]; cbn in *; [| done].
  by rewrite Hk.
Qed.

Lemma quiet_try_catch {A} (m : M A) (h : string -> M A) :
  quiet m -> (forall err, quiet (h err)) -> quiet (try_catch m h).
Proof.
  intros Hm Hh w. step. specialize (Hm w).
  destruct (m w) as [[a | err] w1]; cbn in *; [done |].
  by rewrite Hh.
Qed.

Ltac quiet_tac :=
  repeat match goal with
         | |- quiet (if ?b then _ else _) => destruct b
         | |- quiet (_ ≫= _) => apply quiet_bind
         | |- quiet (try_catch _ _) => apply quiet_try_catch
         | |- quiet (lift _) => apply quiet_lift
         | |- quiet (ret _) => apply quiet_ret
         | |- quiet (emit _) => apply quiet_emit
         | |- quiet (await _ _) => apply quiet_await
         | |- forall _, quiet _ => intro
         end.

Lemma quiet_notifyPaid (X : platform) (e : env) (order : obj) :
  quiet (notifyPaid X e order).
Proof.
  intros w. destruct (notifyPaid_spec X e order w) as (t & -> & _). done.
Qed.

Lemma quiet_send_instructions (X : platform) (i : interaction)
    (method : string) (order : obj) (url : value) :
  quiet (send_instructions X i method order url).
Proof.
  unfold send_instructions. quiet_tac.
Qed.

Lemma quiet_deliver_invoice (X : platform) (e : env) (now : string)
    (order : obj) :
  quiet (deliver_invoice X e now order).
Proof.
  unfold deliver_invoice. quiet_tac.
Qed.

(** The catch clause of the button handler. *)
Lemma quiet_button_catch (X : platform) (msg : string) :
  quiet (emit (ConsoleLog "Button error:");;
         try_catch (await X (InteractionReply (ErrorReply msg)))
           (fun _ => ret tt)).
Proof.
  quiet_tac.
Qed.

(** Under the [try]/[catch] of the button handler the file is what the
    branch left. *)
Lemma button_file (X : platform) (branch : M (option reply)) (w : world) :
  file (run (button X branch) w) = file (run branch w).
Proof.
  unfold run, button, return_nothing. step.
  destruct (branch w) as [[[r |] | err] w1]; cbn.
  - by destruct (resolves X _).
  - done.
  - by destruct (resolves X _).
Qed.

Lemma button_guarded_file (X : platform) (branch : M (option reply))
    (w : world) :
  file (run (button_guarded X branch) w) = file (run branch w).
Proof.
  unfold run, button_guarded, return_nothing. step.
  destruct (branch w) as [[[r |] | err] w1]; cbn.
  - by destruct (resolves X _).
  - done.
  - by destruct (resolves X _).
Qed.

#[local] Arguments orders_of : simpl never.
#[local] Arguments createCryptomusInvoice : simpl never.
#[local] Arguments createStripeCheckout : simpl never.
#[local] Arguments join_text : simpl never.
#[local] Arguments with_session : simpl never.
#[local] Arguments send_instructions : simpl never.
#[local] Arguments custom_arg : simpl never.
#[local] Arguments get : simpl never.
#[local] Arguments prop : simpl never.
#[local] Arguments crypto_invoice_for : simpl never.
#[local] Arguments stripe_checkout_for : simpl never.

(** The file a payment-method branch leaves: the one it read, or that one
    after the upsert of the order it read, with its payment session. *)
Lemma pay_crypto_file (X : platform) (e : env) (i : interaction) (w : world) :
  file (run (pay_crypto X e i) w) = Some (orders_of (file w))
  \/ exists idx order url txid,
      list_find (has_id (custom_arg i)) (orders_of (file w)) = Some (idx, order)
      /\ file (run (pay_crypto X e i) w)
         = snd (upsertOrder (with_session order "crypto" "cryptomus" url txid)
                  (Some (orders_of (file w)))).
Proof.
  unfold run, pay_crypto, return_reply, return_nothing. step.
  rewrite getOrderById_eq.
  destruct (list_find _ _) as [[idx order] |] eqn:Hfind; cbn; [| by left].
  destruct (strict_eq _ _); [by left |].
  destruct (crypto_invoice_for X e order) as [inv |]; cbn; [| by left].
  right. exists idx, order, (prop inv "url"), (prop inv "uuid").
  split; [done |].
  destruct (upsertOrder _ _) as [o f2] eqn:Hup. cbn.
  match goal with
  | |- file (snd (match ?m ?w0 with _ => _ end)) = _ =>
      pose proof (quiet_send_instructions X i "crypto" order (prop inv "url") w0)
        as Hq;
      destruct (m w0) as [[[] | err] w3]; cbn in *
  end.
  - by destruct (resolves X _).
  - exact Hq.
Qed.

Lemma pay_stripe_file (X : platform) (e : env) (i : interaction) (w : world) :
  file (run (pay_stripe X e i) w) = Some (orders_of (file w))
  \/ exists idx order url txid,
      list_find (has_id (custom_arg i)) (orders_of (file w)) = Some (idx, order)
      /\ file (run (pay_stripe X e i) w)
         = snd (upsertOrder (with_session order "stripe" "stripe" url txid)
                  (Some (orders_of (file w)))).
Proof.
  unfold run, pay_stripe, return_reply, return_nothing. step.
  rewrite getOrderById_eq.
  destruct (list_find _ _) as [[idx order] |] eqn:Hfind; cbn; [| by left].
  destruct (strict_eq _ _); [by left |].
  destruct (stripe_checkout_for X e order) as [session |]; cbn; [| by left].
  right. exists idx, order, (prop session "url"), (prop session "id").
  split; [done |].
  destruct (upsertOrder _ _) as [o f2] eqn:Hup. cbn.
  match goal with
  | |- file (snd (match ?m ?w0 with _ => _ end)) = _ =>
      pose proof (quiet_send_instructions X i "stripe" order
                    (prop session "url") w0) as Hq;
      destruct (m w0) as [[[] | err] w3]; cbn in *
  end.
  - by destruct (resolves X _).
  - exact Hq.
Qed.

Lemma cryptomus_webhook_file (X : platform) (e : env) (now : string)
    (body : value) (w : world) :
  file (run (cryptomus_webhook X e now body) w) = file w
  \/ exists id fields,
      file (run (cryptomus_webhook X e now body) w)
      = snd (markPaid now id fields (file w)).
Proof.
  unfold run, cryptomus_webhook. rewrite isCryptomusWebhookTrusted_true. step.
  destruct (cryptomus_status _) as [s | err]; cbn; [| by left].
  destruct (truthy _); cbn; [| by left].
  destruct (paidStatuses s); cbn; [| by left].
  destruct (markPaid now _ _ (file w)) as [[o |] f'] eqn:Hm; cbn.
  - destruct (notifyPaid_spec X e o (set_file f' w)) as (t & -> & _).
    cbn. right. eexists _, _. by rewrite Hm.
  - right. eexists _, _. by rewrite Hm.
Qed.

Lemma stripe_webhook_file (X : platform) (e : env) (now : string)
    (req : stripe_request) (w : world) :
  file (run (stripe_webhook X e now req) w) = file w
  \/ exists id fields,
      file (run (stripe_webhook X e now req) w)
      = snd (markPaid now id fields (file w)).
Proof.
  unfold run, stripe_webhook. step.
  destruct (getStripe e) as [[] |]; cbn; [| by left].
  match goal with
  | |- context [if ?b then constructEvent _ _ _ _ else _] =>
      destruct (if b then constructEvent X (raw_body req) (signature req)
                            (default "" (e !! "STRIPE_WEBHOOK_SECRET"))
                else JSON_parse X (raw_body req)) as [event |]
  end; cbn; [| by left].
  destruct (on_stripe_event_spec X e now event w)
    as (r & f' & t0 & -> & _ & Hf).
  destruct r as [[] |]; cbn; exact Hf.
Qed.

Lemma close_command_file (X : platform) (e : env) (now : string)
    (m : chat_message) (w : world) :
  file (run (close_command X e now m) w) = file w
  \/ file (run (close_command X e now m) w) = Some (orders_of (file w)).
Proof.
  unfold run, close_command.
  destruct (negb (authorized_close e m)); [by left |]. right.
  step. rewrite getOrderByChannelId_eq.
  assert (forall o w0, file w0 = Some (orders_of (file w)) ->
            file (snd (finish_close X e now m o w0)) = Some (orders_of (file w)))
    as Hfinish.
  { intros o w0 <-.
    assert (quiet (finish_close X e now m o)) as Hq; [| apply Hq].
    unfold finish_close. destruct o; quiet_tac.
    apply quiet_deliver_invoice. }
  destruct (snd <$> list_find _ _) as [o |]; cbn.
  - destruct (negb _); cbn.
    + unfold count_force. cbn.
      match goal with
      | |- context [if ?c then _ else finish_close _ _ _ _ _] => destruct c
      end.
      * by destruct (resolves X _).
      * by apply Hfinish.
    + by apply Hfinish.
  - by apply Hfinish.
Qed.

Lemma choose_prod_file (X : platform) (products : list obj)
    (uuid now : string) (i : interaction) (w : world) :
  file (run (choose_prod X products uuid now i) w) = file w
  \/ exists prod,
      file (run (choose_prod X products uuid now i) w)
      = snd (upsertOrder (new_order uuid now i prod) (file w)).
Proof.
  unfold run, choose_prod, return_reply, return_nothing.
  destruct (find_product _ _) as [prod |]; [| by left].
  right. exists prod. unfold create_order. step.
  destruct (upsertOrder _ _) as [o f2]. cbn.
  destruct (ToString _); cbn; [| done].
  destruct (money _); cbn; [| done].
  destruct (resolves X _); cbn; [| done].
  by destruct (resolves X _).
Qed.

(* ===================================================================== *)
(** * The product snapshot *)
(* ===================================================================== *)

Lemma keeps_snapshots_refl (f : Store.file) : keeps_snapshots f f.
Proof. intros i r Hr. eauto. Qed.

Lemma keeps_snapshots_load (f : Store.file) :
  keeps_snapshots f (Some (orders_of f)).
Proof. intros i r Hr. rewrite orders_of_Some. eauto. Qed.

Lemma keeps_snapshots_trans (f1 f2 f3 : Store.file) :
  keeps_snapshots f1 f2 -> keeps_snapshots f2 f3 -> keeps_snapshots f1 f3.
Proof.
  intros H12 H23 i r Hr.
  destruct (H12 i r Hr) as (r2 & Hr2 & Hs2).
  destruct (H23 i r2 Hr2) as (r3 & Hr3 & Hs3).
  exists r3. split; [done | congruence].
Qed.

Lemma json_file_load (f : Store.file) : json_file f -> json_file (Some (orders_of f)).
Proof. intros Hf. cbn. by apply json_file_orders. Qed.

(** Replacing the record at [idx] by one with the same snapshot keeps
    every snapshot. *)
Lemma keeps_snapshots_insert (f : Store.file) (idx : nat) (old new : obj) :
  orders_of f !! idx = Some old ->
  snapshot new = snapshot old ->
  keeps_snapshots f (Some (<[idx := new]> (orders_of f))).
Proof.
  intros Hold Hsnap i r Hr. rewrite orders_of_Some.
  destruct (decide (i = idx)) as [-> | Hne].
  - exists new. split.
    + apply list_lookup_insert_eq. by eapply lookup_lt_Some.
    + congruence.
  - exists r. by rewrite list_lookup_insert_ne.
Qed.

Lemma snapshot_written_paid_order (now : string) (payment : value) (old : obj) :
  jsonify_obj old = old ->
  snapshot (jsonify_obj (paid_order now payment old)) = snapshot old.
Proof.
  intros Hc. unfold snapshot.
  rewrite !jsonify_obj_lookup, !paid_order_lookup_other by done.
  by rewrite !json_clean_lookup.
Qed.

(** [markPaid] keeps every id and every product snapshot. *)
Lemma markPaid_keeps_snapshots (now : string) (id payment : value)
    (f : Store.file) :
  json_file f ->
  keeps_snapshots f (snd (markPaid now id payment f))
  /\ json_file (snd (markPaid now id payment f)).
Proof.
  intros Hf.
  destruct (list_find (has_id id) (orders_of f)) as [[idx old] |] eqn:Hfind.
  - destruct (markPaid_found_state now id payment f idx old Hf Hfind)
      as (-> & Hf' & _).
    split; [| exact Hf'].
    apply list_find_Some in Hfind as (Hold & _ & _).
    apply keeps_snapshots_insert with (old := old); [done |].
    apply snapshot_written_paid_order.
    apply (json_file_lookup (orders_of f) idx); [by apply json_file_orders | done].
  - rewrite (markPaid_missing _ _ _ _ Hfind). cbn [snd].
    split; [apply keeps_snapshots_load | by apply json_file_load].
Qed.

Lemma with_session_lookup_other (order : obj) (method provider : string)
    (url txid : value) (k : string) :
  k <> "payment" ->
  with_session order method provider url txid !! k = order !! k.
Proof. intros. unfold with_session. by rewrite lookup_insert_ne. Qed.

(** The upsert of a copy of an order with a payment session, the copy
    having the id and the product of the stored order (it was read from the
    file now or earlier), keeps every id and every product snapshot. *)
Lemma upsert_session_keeps_snapshots (f : Store.file) (idx : nat)
    (cur copy : obj) (method provider : string) (url txid : value) :
  json_file f ->
  list_find (has_id (prop copy "id")) (orders_of f) = Some (idx, cur) ->
  snapshot copy = snapshot cur ->
  keeps_snapshots f
    (snd (upsertOrder (with_session copy method provider url txid) f))
  /\ json_file
      (snd (upsertOrder (with_session copy method provider url txid) f)).
Proof.
  intros Hf Hfind Hsnap. pose proof (json_file_orders f Hf) as Hd.
  injection Hsnap as Hid Hproduct.
  assert (prop (with_session copy method provider url txid) "id"
          = prop copy "id") as Hpid.
  { unfold prop. by rewrite with_session_lookup_other. }
  rewrite <- Hpid in Hfind.
  rewrite (upsertOrder_old _ _ _ _ Hfind), Hd. cbn [snd].
  split.
  - apply list_find_Some in Hfind as (Hcur & _ & _).
    apply keeps_snapshots_insert with (old := cur); [done |].
    assert (jsonify_obj cur = cur) as Hc
      by (by apply (json_file_lookup (orders_of f) idx)).
    unfold snapshot, assign.
    rewrite !jsonify_obj_lookup, !lookup_union,
      !with_session_lookup_other by done.
    rewrite Hid, Hproduct.
    assert (forall x : option value, x ∪ x = x) as Hidem by (by intros []).
    by rewrite !Hidem, !json_clean_lookup.
  - unfold json_file. by apply stored_insert_clean.
Qed.

(** A new order with an id that no record has is appended. *)
Lemma upsert_new_keeps_snapshots (f : Store.file) (order : obj) :
  json_file f ->
  Forall (fun o => ~ has_id (prop order "id") o) (orders_of f) ->
  keeps_snapshots f (snd (upsertOrder order f))
  /\ json_file (snd (upsertOrder order f)).
Proof.
  intros Hf Hfresh. pose proof (json_file_orders f Hf) as Hd.
  apply (list_find_None (has_id _)) in Hfresh.
  rewrite (upsertOrder_new _ _ Hfresh), Hd. cbn [snd]. split.
  - intros i r Hr. rewrite orders_of_Some. exists r.
    split; [by apply lookup_app_l_Some | done].
  - unfold json_file. by rewrite stored_app, Hd, jsonify_obj_idem.
Qed.

Lemma list_find_has_id_self (id : value) (d : db) (idx : nat) (order : obj) :
  list_find (has_id id) d = Some (idx, order) ->
  list_find (has_id (prop order "id")) d = Some (idx, order).
Proof.
  intros Hfind. rewrite <- Hfind. apply list_find_ext_iff. intros o.
  apply has_id_same. by apply list_find_Some in Hfind as (_ & ? & _).
Qed.

Lemma new_order_id (uuid now : string) (i : interaction) (prod : obj) :
  prop (new_order uuid now i prod) "id" = VStr uuid.
Proof. reflexivity. Qed.

(** One handler run keeps every id and every product snapshot. *)
Lemma handler_run_keeps_snapshots (products : list obj) (w w' : world) :
  handler_run products w w' ->
  json_file (file w) ->
  keeps_snapshots (file w) (file w') /\ json_file (file w').
Proof.
  intros Hrun Hf.
  assert (keeps_snapshots (file w) (file w) /\ json_file (file w)) as Hsame
    by (split; [apply keeps_snapshots_refl | done]).
  assert (keeps_snapshots (file w) (Some (orders_of (file w)))
          /\ json_file (Some (orders_of (file w)))) as Hload
    by (split; [apply keeps_snapshots_load | by apply json_file_load]).
  assert (forall (pay : platform -> env -> interaction -> M (option reply)) X e i
            method provider,
            (file (run (pay X e i) w) = Some (orders_of (file w))
             \/ exists idx order url txid,
                 list_find (has_id (custom_arg i)) (orders_of (file w))
                 = Some (idx, order)
                 /\ file (run (pay X e i) w)
                    = snd (upsertOrder
                             (with_session order method provider url txid)
                             (Some (orders_of (file w))))) ->
            keeps_snapshots (file w) (file (run (button X (pay X e i)) w))
            /\ json_file (file (run (button X (pay X e i)) w))) as Hpay.
  { intros pay X e i method provider Hcases. rewrite button_file.
    destruct Hcases as [-> | (idx & order & url & txid & Hfind & ->)];
      [done |].
    destruct Hload as [Hk Hj].
    apply list_find_has_id_self in Hfind.
    destruct (upsert_session_keeps_snapshots (Some (orders_of (file w))) idx
                order order method provider url txid Hj Hfind eq_refl)
      as [Hk' Hj'].
    split; [| done]. exact (keeps_snapshots_trans _ _ _ Hk Hk'). }
  destruct Hrun as [X e now body w | X e now req w | X e i w | X e i w
                   | X e now m w | X uuid now i w Hfresh].
  - destruct (cryptomus_webhook_file X e now body w)
      as [-> | (id & fields & ->)]; [done |].
    by apply markPaid_keeps_snapshots.
  - destruct (stripe_webhook_file X e now req w)
      as [-> | (id & fields & ->)]; [done |].
    by apply markPaid_keeps_snapshots.
  - eapply Hpay. apply pay_crypto_file.
  - eapply Hpay. apply pay_stripe_file.
  - by destruct (close_command_file X e now m w) as [-> | ->].
  - rewrite button_file.
    destruct (choose_prod_file X products uuid now i w) as [-> | (prod & ->)];
      [done |].
    apply upsert_new_keeps_snapshots; [done |].
    by rewrite new_order_id.
Qed.

(** C9. Through any sequence of handler runs (the two webhooks, which call
    [markPaid]; the two payment-method branches, which upsert the payment
    session; the close command; product selections, which create orders
    with fresh ids), every order that was stored at the start is still
    stored at the same place with the [id] and the [product] snapshot
    [{id, name, price}] it had. *)
Theorem product_snapshot_immutable (products : list obj) (w w' : world) :
  json_file (file w) ->
  rtc (handler_run products) w w' ->
  keeps_snapshots (file w) (file w').
Proof.
  intros Hf Hruns.
  cut (keeps_snapshots (file w) (file w') /\ json_file (file w'));
    [by intros [] |].
  induction Hruns as [w | w w1 w' Hrun _ IH].
  - split; [apply keeps_snapshots_refl | done].
  - destruct (handler_run_keeps_snapshots products w w1 Hrun Hf) as [Hk Hj].
    destruct (IH Hj) as [Hk' Hj'].
    split; [| done]. exact (keeps_snapshots_trans _ _ _ Hk Hk').
Qed.

(* ===================================================================== *)
(** * Amounts *)
(* ===================================================================== *)








(** Reading back the digits: with enough fuel, the digits of [n] put
    before [acc] denote [n * 10^|acc| + acc]. *)
Lemma digits_value_app (acc : N) (l1 l2 : list ascii) :
  F64.digits_value acc (l1 ++ l2) = F64.digits_value (F64.digits_value acc l1) l2.
Proof. revert acc. induction l1 as [| c l1 IH]; intros acc; cbn; [done |]. apply IH. Qed.



(** *** Reading a two-decimal string back *)







(** *** Fractions and rounding to an integer *)





(** *** The product of an amount and 100 does not overflow *)











(** *** What reaches the payment providers *)


(* ===================================================================== *)
(** * The specified scenarios, run *)
(* ===================================================================== *)

Lemma json_file_saved (orders : list obj) : json_file (saved orders).
Proof. unfold saved, json_file. apply stored_idem. Qed.

(** C5, at an input: order O1 is stored and O2 is asked for. *)
Lemma markPaid_unknown_id_witness :
  fst (markPaid "2024-05-01T10:00:00.000Z" (VStr "O2") (VObj ∅)
         (saved [order "O1" "C1"])) = None
  /\ orders_of (snd (markPaid "2024-05-01T10:00:00.000Z" (VStr "O2") (VObj ∅)
                      (saved [order "O1" "C1"])))
     = orders_of (saved [order "O1" "C1"])
  /\ (forall d, saved [order "O1" "C1"] = Some d ->
        snd (markPaid "2024-05-01T10:00:00.000Z" (VStr "O2") (VObj ∅)
               (saved [order "O1" "C1"])) = Some d).
Proof.
  apply markPaid_unknown_id.
  constructor; [| constructor]. intros H. vm_compute in H. discriminate.
Defined.

(** C1, counterexample: two deliveries of the same paid webhook, five
    seconds apart.  The record stored after the second call is not the one
    stored after the first: [paidAt] moved. *)
Lemma markPaid_twice_differs :
  let f := saved [order "O1" "C1"] in
  let p := VObj {[ "method" := VStr "crypto"; "paidAmount" := VStr "9.99" ]} in
  let f1 := snd (markPaid "2024-05-01T10:00:00.000Z" (VStr "O1") p f) in
  let f2 := snd (markPaid "2024-05-01T10:00:05.000Z" (VStr "O1") p f1) in
  (fun o => prop o "paidAt") <$> orders_of f1
  = [VStr "2024-05-01T10:00:00.000Z"]
  /\ (fun o => prop o "paidAt") <$> orders_of f2
     = [VStr "2024-05-01T10:00:05.000Z"]
  /\ f2 <> f1.
Proof.
  cbv zeta. split_and!; [vm_compute; reflexivity | vm_compute; reflexivity |].
  intros H.
  apply (f_equal (fun f => (fun o => prop o "paidAt") <$> orders_of f)) in H.
  vm_compute in H. discriminate.
Qed.

(** C1, at an input. *)
Lemma markPaid_twice_as_last_witness :
  snd (markPaid "2024-05-01T10:00:05.000Z" (VStr "O1") (VObj ∅)
         (snd (markPaid "2024-05-01T10:00:00.000Z" (VStr "O1") (VObj ∅)
                 (saved [order "O1" "C1"]))))
  = snd (markPaid "2024-05-01T10:00:05.000Z" (VStr "O1") (VObj ∅)
           (saved [order "O1" "C1"]))
  /\ exists r,
      fst (getOrderById (VStr "O1")
             (snd (markPaid "2024-05-01T10:00:05.000Z" (VStr "O1") (VObj ∅)
                     (snd (markPaid "2024-05-01T10:00:00.000Z" (VStr "O1")
                             (VObj ∅) (saved [order "O1" "C1"]))))))
      = Some r
      /\ r !! "status" = Some (VStr "paid")
      /\ r !! "paidAt" = Some (VStr "2024-05-01T10:00:05.000Z").
Proof.
  apply (markPaid_twice_as_last _ _ _ _ _ (jsonify_obj (order "O1" "C1"))).
  - apply json_file_saved.
  - reflexivity.
Defined.

(** C10, at an input. *)
Lemma markPaid_restamps_paidAt_witness :
  exists r1 r2,
    fst (getOrderById (VStr "O1")
           (snd (markPaid "2024-05-01T10:00:00.000Z" (VStr "O1") (VObj ∅)
                   (saved [order "O1" "C1"])))) = Some r1
    /\ r1 !! "paidAt" = Some (VStr "2024-05-01T10:00:00.000Z")
    /\ fst (getOrderById (VStr "O1")
              (snd (markPaid "2024-05-01T10:00:05.000Z" (VStr "O1") (VObj ∅)
                      (snd (markPaid "2024-05-01T10:00:00.000Z" (VStr "O1")
                              (VObj ∅) (saved [order "O1" "C1"]))))))
       = Some r2
    /\ r2 !! "paidAt" = Some (VStr "2024-05-01T10:00:05.000Z").
Proof.
  apply (markPaid_restamps_paidAt _ _ _ _ _ _ (jsonify_obj (order "O1" "C1"))).
  - apply json_file_saved.
  - reflexivity.
Defined.

(** C6, counterexample: a payment-method branch read order O1 while it was
    pending and upserts its copy after the webhook marked the order paid.
    [upsertOrder] returns the copy, which is not the record it stored: the
    stored one carries [paidAt], the returned one does not. *)
Lemma upsertOrder_result_not_stored :
  let f := saved [paid_order_at "O1" "C1" "2024-05-01T10:00:00.000Z"] in
  let copy := jsonify_obj (order "O1" "C1") in
  (fun o => prop o "paidAt") <$> orders_of (snd (upsertOrder copy f))
  = [VStr "2024-05-01T10:00:00.000Z"]
  /\ prop (fst (upsertOrder copy f)) "paidAt" = VUndef
  /\ orders_of (snd (upsertOrder copy f)) <> [fst (upsertOrder copy f)].
Proof.
  cbv zeta. split_and!; [vm_compute; reflexivity | vm_compute; reflexivity |].
  intros H. apply (f_equal (fmap (fun o : obj => prop o "paidAt"))) in H.
  vm_compute in H. discriminate.
Qed.

(** C6, at an input: the same upsert. *)
Lemma upsertOrder_returns_argument_witness :
  let f := saved [paid_order_at "O1" "C1" "2024-05-01T10:00:00.000Z"] in
  let old := jsonify_obj (paid_order_at "O1" "C1" "2024-05-01T10:00:00.000Z") in
  let copy := jsonify_obj (order "O1" "C1") in
  fst (upsertOrder copy f) = copy
  /\ snd (upsertOrder copy f)
     = Some (<[0%nat := jsonify_obj (assign old copy)]> (stored (orders_of f))).
Proof.
  cbv zeta.
  destruct (upsertOrder_returns_argument (jsonify_obj (order "O1" "C1"))
              (saved [paid_order_at "O1" "C1" "2024-05-01T10:00:00.000Z"]))
    as (Hret & _ & Hold).
  split; [exact Hret |].
  apply (Hold 0%nat
           (jsonify_obj (paid_order_at "O1" "C1" "2024-05-01T10:00:00.000Z"))).
  reflexivity.
Defined.

(** C7, counterexample: the provider's status arrives in capitals.  [PAID]
    is none of [paid], [paid_over], [paid_partial], yet order O1 becomes
    paid and the channel is notified. *)
Lemma cryptomus_upper_case_status_pays :
  let body := VObj {[ "order_id" := VStr "O1"; "status" := VStr "PAID";
                      "uuid" := VStr "tx-1"; "amount" := VStr "9.99" ]} in
  let w' := run (cryptomus_webhook platform_ok environment
                   "2024-05-01T10:00:00.000Z" body)
              (world_with [order "O1" "C1"]) in
  paidStatuses "PAID" = false
  /\ summary <$> orders_of (file w') = [(VStr "O1", VStr "C1", VStr "paid")]
  /\ trace w'
     = [ChannelSend (VStr "C1")
          (PaidNotice "O1" "Gold Pack" "$9.99" "crypto" (VStr "<@owner>"));
        Respond 200 "ok"].
Proof. cbv zeta. split_and!; vm_compute; reflexivity. Qed.

(** C7, at an input: the scenario of the specification, a payload with
    status [confirm_check]. *)
Lemma cryptomus_webhook_filters_status_witness :
  let body := VObj {[ "order_id" := VStr "O2";
                      "status" := VStr "confirm_check" ]} in
  let w := world_with [order "O2" "C2"] in
  let w' := run (cryptomus_webhook platform_ok environment
                   "2024-05-01T10:00:00.000Z" body) w in
  file w' = file w /\ trace w' = [Respond 200 "not paid"].
Proof.
  cbv zeta.
  destruct (cryptomus_webhook_filters_status platform_ok environment
              "2024-05-01T10:00:00.000Z"
              (VObj {[ "order_id" := VStr "O2";
                       "status" := VStr "confirm_check" ]})
              (world_with [order "O2" "C2"]))
    as (t & Ht & _ & _ & Hno & _).
  split; [| vm_compute; reflexivity].
  apply Hno. intros s Hs. vm_compute in Hs. injection Hs as <-. vm_compute; reflexivity.
Defined.

(** C2, counterexample: a secret is configured and the signature header
    does not verify; the endpoint answers 200. *)
Lemma stripe_bad_signature_answers_200 :
  let req := {| raw_body := "{}"; signature := VStr "t=1,v1=00000000" |} in
  let w := world_with [order "O1" "C1"] in
  let w' := run (stripe_webhook platform_ok environment
                   "2024-05-01T10:00:00.000Z" req) w in
  truthy (env_get environment "STRIPE_WEBHOOK_SECRET") = true
  /\ constructEvent platform_ok (raw_body req) (signature req) "whsec_1"
     = Throw "No signatures found matching the expected signature"
  /\ responses (trace w') = [(200, "ok")]
  /\ file w' = file w.
Proof.
  cbv zeta. split_and!; [vm_compute; reflexivity .. | reflexivity].
Qed.

(** C2, at an input: the scenario of the specification, a verified
    completed checkout of 999 cents for order O1. *)
Lemma stripe_webhook_always_200_witness :
  let req := {| raw_body := "{}"; signature := good_signature |} in
  let w' := run (stripe_webhook platform_ok environment
                   "2024-05-01T10:00:00.000Z" req)
              (world_with [order "O1" "C1"]) in
  (exists t, trace w' = [] ++ t /\ responses t = [(200, "ok")])
  /\ summary <$> orders_of (file w') = [(VStr "O1", VStr "C1", VStr "paid")]
  /\ (fun o => get_opt (prop o "payment") "paidAmount") <$> orders_of (file w')
     = [VStr "$9.99"]
  /\ trace w'
     = [ChannelSend (VStr "C1")
          (PaidNotice "O1" "Gold Pack" "$9.99" "stripe" (VStr "<@owner>"));
        Respond 200 "ok"].
Proof.
  cbv zeta.
  destruct (stripe_webhook_always_200 platform_ok environment
              "2024-05-01T10:00:00.000Z"
              {| raw_body := "{}"; signature := good_signature |}
              (world_with [order "O1" "C1"]))
    as (t & Ht & Hr & _).
  split_and!; [by exists t | vm_compute; reflexivity | vm_compute; reflexivity | vm_compute; reflexivity].
Defined.

(** C3, the code at a failing input: channel C1 holds the pending order O1
    and a product is chosen there again.  The branch of index.js stores a
    second pending order for the channel. *)
Lemma choose_prod_second_pending_order :
  let w' := run (button platform_ok
                   (choose_prod platform_ok products "O2"
                      "2024-05-01T09:05:00.000Z"
                      (click "choose_prod:gold" "C1" "U1")))
              (world_with [order "O1" "C1"]) in
  summary <$> orders_of (file w')
  = [(VStr "O1", VStr "C1", VStr "pending");
     (VStr "O2", VStr "C1", VStr "pending")].
Proof. vm_compute; reflexivity. Qed.

(** The guarded variants refuse in that situation. *)
Lemma choose_prod_guarded_refuses :
  let w' := run (button_guarded platform_ok
                   (choose_prod_guarded platform_ok products "O2"
                      "2024-05-01T09:05:00.000Z"
                      (click "choose_prod:gold" "C1" "U1")))
              (world_with [order "O1" "C1"]) in
  summary <$> orders_of (file w') = [(VStr "O1", VStr "C1", VStr "pending")]
  /\ trace w' = [InteractionReply (PendingOrderExists "O1")].
Proof. split; vm_compute; reflexivity. Qed.

(** They look at the first order of the channel only: behind a paid order
    a pending one goes unnoticed, and a second pending order is stored. *)
Lemma choose_prod_guarded_misses_later_order :
  let w' := run (button_guarded platform_ok
                   (choose_prod_guarded platform_ok products "O3"
                      "2024-05-01T11:00:00.000Z"
                      (click "choose_prod:gold" "C1" "U1")))
              (world_with [paid_order_at "O1" "C1" "2024-05-01T10:00:00.000Z";
                           order "O2" "C1"]) in
  summary <$> orders_of (file w')
  = [(VStr "O1", VStr "C1", VStr "paid");
     (VStr "O2", VStr "C1", VStr "pending");
     (VStr "O3", VStr "C1", VStr "pending")].
Proof. vm_compute; reflexivity. Qed.



(** C9, at an input: order O1 goes through the Crypto payment branch and
    the paid webhook. *)
Lemma product_snapshot_immutable_witness :
  let w := world_with [order "O1" "C1"] in
  let w1 := run (button platform_ok
                   (pay_crypto platform_ok environment
                      (click "pay_crypto:O1" "C1" "U1"))) w in
  let w2 := run (cryptomus_webhook platform_ok environment
                   "2024-05-01T10:00:00.000Z"
                   (VObj {[ "order_id" := VStr "O1";
                            "status" := VStr "paid" ]})) w1 in
  keeps_snapshots (file w) (file w2)
  /\ summary <$> orders_of (file w2) = [(VStr "O1", VStr "C1", VStr "paid")].
Proof.
  cbv zeta. split; [| vm_compute; reflexivity].
  apply (product_snapshot_immutable products).
  - apply json_file_saved.
  - eapply rtc_l; [apply run_pay_crypto |].
    eapply rtc_l; [apply run_cryptomus_webhook |]. apply rtc_refl.
Defined.



(** The unit amount is rounded from the Number product, the invoice amount
    from the amount itself: [0.615 * 100] is the Number [61.5]. *)
Lemma unit_amount_rounds_the_product :
  let x := F64.of_string "0.615" in
  unit_amount (VNum x) = Ok (F64.of_Z 62)
  /\ invoice_amount (VNum x) = Ok "0.61".
Proof. split; vm_compute; reflexivity. Qed.

(** Outside the amounts: [toFixed] switches to exponent notation from
    [10^21] on, and [NaN] stays [NaN]. *)
Lemma invoice_amount_not_an_amount :
  invoice_amount (num "1e21") = Ok "1e+21"
  /\ invoice_amount VUndef = Ok "NaN"
  /\ unit_amount VUndef = Ok F64.nan.
Proof. repeat split; vm_compute; reflexivity. Qed.

(* ===================================================================== *)
(** * More about the orders file *)
(* ===================================================================== *)

Lemma is_json_obj (o : obj) :
  is_json (VObj o) = true <-> forall k v, o !! k = Some v -> is_json v = true.
Proof.
  cbn [is_json].
  induction o as [| i x m Hi IH] using map_ind.
  - rewrite map_fold_empty. split; [| done]. intros _ k v Hk.
    by rewrite lookup_empty in Hk.
  - rewrite map_fold_insert_L; [| | done].
    2: { intros. by destruct (is_json z1), (is_json z2). }
    rewrite andb_true_iff, IH. split.
    + intros [Hx Hm] k v Hk. destruct (decide (i = k)) as [-> | Hne].
      * rewrite lookup_insert_eq in Hk. by injection Hk as <-.
      * rewrite lookup_insert_ne in Hk by done. by apply (Hm k).
    + intros Hall. split.
      * apply (Hall i). apply lookup_insert_eq.
      * intros k v Hk. apply (Hall k). rewrite lookup_insert_ne; [done |].
        intros ->. congruence.
Qed.

(** What the round trip gives is a value of JSON. *)
Lemma jsonify_is_json (v : value) : is_json (jsonify v) = true.
Proof.
  induction v as [| | b | x | s | l IH | o IH] using value_nested_ind;
    try reflexivity.
  - by destruct x as [[] | | |].
  - cbn. apply forallb_forall. intros w Hw.
    apply in_map_iff in Hw as (u & <- & Hu).
    apply list_elem_of_In in Hu. by apply (proj1 (Forall_forall _ _) IH).
  - rewrite jsonify_obj_unfold. apply is_json_obj. intros k v.
    rewrite jsonify_obj_lookup. destruct (o !! k) as [u |] eqn:Hu; [| done].
    cbn. unfold jsonify_prop. specialize (IH k u Hu). cbn in IH.
    destruct u; intros [= <-]; done.
Qed.

(** A value of JSON goes through the round trip unchanged. *)
Lemma jsonify_of_json (v : value) : is_json v = true -> jsonify v = v.
Proof.
  induction v as [| | b | x | s | l IH | o IH] using value_nested_ind;
    try done.
  - by destruct x as [[] | | |].
  - cbn. intros Hl. f_equal. rewrite <- (map_id l) at 2.
    apply map_ext_in. intros w Hw.
    apply (proj1 (Forall_forall _ _) IH); [by apply list_elem_of_In |].
    by apply (proj1 (forallb_forall _ _) Hl).
  - intros Ho. rewrite jsonify_obj_unfold. f_equal. apply map_eq. intros k.
    rewrite jsonify_obj_lookup. destruct (o !! k) as [u |] eqn:Hu; [| done].
    cbn. pose proof (proj1 (is_json_obj o) Ho k u Hu) as Hj.
    specialize (IH k u Hu Hj). cbn in IH. unfold jsonify_prop.
    destruct u; try done; by rewrite IH.
Qed.

(** X1. What [loadOrders] reads back after [saveOrders] are the orders
    written, place by place, as values of JSON: no [undefined], [NaN],
    infinite Number or [-0] is left at any depth; each record keeps exactly
    the properties that were not [undefined]; and orders that were values
    of JSON already are read back as they were written (a second save
    changes nothing). *)
Theorem saveOrders_then_loadOrders (d : db) (f : Store.file) :
  let back := fst (loadOrders (saveOrders d f)) in
  length back = length d
  /\ Forall (fun r => is_json (VObj r) = true) back
  /\ (forall i r,
        d !! i = Some r ->
        exists r',
          back !! i = Some r'
          /\ forall k, is_Some (r' !! k)
                       <-> exists v, r !! k = Some v /\ v <> VUndef)
  /\ (Forall (fun r => is_json (VObj r) = true) d ->
      loadOrders (saveOrders d f) = (d, Some d)).
Proof.
  cbv zeta.
  assert (loadOrders (saveOrders d f) = (stored d, Some (stored d))) as ->
    by (by destruct f).
  cbn [fst]. unfold stored. split_and!.
  - apply length_map.
  - apply Forall_forall. intros r' Hr'.
    apply list_elem_of_In, in_map_iff in Hr' as (r & <- & _).
    apply (jsonify_is_json (VObj r)).
  - intros i r Hr. exists (jsonify_obj r). split.
    + change (map jsonify_obj d) with (jsonify_obj <$> d).
      by rewrite list_lookup_fmap, Hr.
    + intros k. rewrite jsonify_obj_lookup.
      destruct (r !! k) as [v |]; cbn.
      * unfold jsonify_prop. destruct v; split; intros H;
          try (by eexists); try (by destruct H as (? & [= <-] & ?));
          by destruct H.
      * split; [by intros [] | by intros (? & ? & _)].
  - intros Hd.
    assert (map jsonify_obj d = d) as ->; [| done].
    rewrite <- (map_id d) at 2. apply map_ext_in. intros r Hr.
    apply list_elem_of_In in Hr.
    pose proof (proj1 (Forall_forall _ _) Hd r Hr) as Hj.
    pose proof (jsonify_of_json (VObj r) Hj) as Hr'.
    rewrite jsonify_obj_unfold in Hr'. by injection Hr'.
Qed.

(** X1, at an input: an [undefined] note is dropped and a price that is
    not a Number is read back as [null]. *)
Lemma saveOrders_then_loadOrders_witness :
  let o : obj := {[ "id" := VStr "O1"; "note" := VUndef;
                    "price" := VNum F64.nan ]} in
  fst (loadOrders (saveOrders [o] None))
  = [{[ "id" := VStr "O1"; "price" := VNull ]}]
  /\ Forall (fun r => is_json (VObj r) = true)
       (fst (loadOrders (saveOrders [o] None))).
Proof.
  cbv zeta. split; [vm_compute; reflexivity |].
  apply (saveOrders_then_loadOrders
           [{[ "id" := VStr "O1"; "note" := VUndef; "price" := VNum F64.nan ]}]
           None).
Defined.

Lemma jsonify_obj_lookup_Some (o : obj) (k : string) (v : value) :
  o !! k = Some v -> v <> VUndef -> jsonify_obj o !! k = Some (jsonify v).
Proof.
  intros Hk Hv. rewrite jsonify_obj_lookup, Hk. cbn. by destruct v.
Qed.

(** X2. After [upsertOrder(order)] on a JSON file, for an order whose id is
    a string, [getOrderById] of that id finds a record that has every
    property of [order] that is not [undefined], as JSON keeps it. *)
Theorem upsertOrder_then_getOrderById (order : obj) (s : string)
    (f : Store.file) :
  json_file f ->
  order !! "id" = Some (VStr s) ->
  exists r,
    fst (getOrderById (VStr s) (snd (upsertOrder order f))) = Some r
    /\ forall k v, order !! k = Some v -> v <> VUndef ->
                   r !! k = Some (jsonify v).
Proof.
  intros Hf Hid. pose proof (json_file_orders f Hf) as Hd.
  assert (prop order "id" = VStr s) as Hprop by (unfold prop; by rewrite Hid).
  rewrite getOrderById_eq. cbn [fst].
  destruct (list_find (has_id (prop order "id")) (orders_of f))
    as [[idx old] |] eqn:Hfind.
  - rewrite (upsertOrder_old _ _ _ _ Hfind), Hd. cbn [snd].
    rewrite orders_of_Some.
    assert (forall k v, order !! k = Some v -> v <> VUndef ->
              jsonify_obj (assign old order) !! k = Some (jsonify v)) as Hr.
    { intros k v Hk Hv. apply jsonify_obj_lookup_Some; [| done].
      unfold assign. by apply lookup_union_Some_l. }
    rewrite Hprop in Hfind.
    rewrite (list_find_after_mark _ _ _ _ (jsonify_obj (assign old order)) Hfind).
    + eexists. split; [done | exact Hr].
    + unfold has_id, prop, strict_eq. rewrite (Hr _ _ Hid ltac:(done)).
      cbn. apply String.eqb_refl.
  - rewrite (upsertOrder_new _ _ Hfind), Hd. cbn [snd].
    rewrite orders_of_Some. rewrite Hprop in Hfind.
    rewrite list_find_app_r by done. cbn.
    assert (jsonify_obj order !! "id" = Some (VStr s)) as Hjid
      by (by apply (jsonify_obj_lookup_Some _ _ _ Hid)).
    rewrite decide_True.
    + cbn. eexists. split; [done |]. intros k v Hk Hv.
      by apply jsonify_obj_lookup_Some.
    + unfold has_id, prop, strict_eq. rewrite Hjid. cbn. apply String.eqb_refl.
Qed.

(** X2, at an input: the first order, on a file that does not exist. *)
Lemma upsertOrder_then_getOrderById_witness :
  json_file None
  /\ order "O1" "C1" !! "id" = Some (VStr "O1")
  /\ exists r,
      fst (getOrderById (VStr "O1") (snd (upsertOrder (order "O1" "C1") None)))
      = Some r
      /\ forall k v, order "O1" "C1" !! k = Some v -> v <> VUndef ->
                     r !! k = Some (jsonify v).
Proof.
  split; [exact I |]. split; [reflexivity |].
  apply (upsertOrder_then_getOrderById (order "O1" "C1") "O1" None);
    [exact I | reflexivity].
Defined.

(** X3. [upsertOrder] adds one record when no stored record has the id of
    its argument, and keeps the number of records otherwise. *)
Theorem upsertOrder_count (order : obj) (f : Store.file) :
  length (orders_of (snd (upsertOrder order f)))
  = match list_find (has_id (prop order "id")) (orders_of f) with
    | Some _ => length (orders_of f)
    | None => S (length (orders_of f))
    end.
Proof.
  destruct (list_find (has_id (prop order "id")) (orders_of f))
    as [[idx old] |] eqn:Hfind.
  - rewrite (upsertOrder_old _ _ _ _ Hfind). cbn [snd].
    rewrite orders_of_Some, length_insert. unfold stored. apply length_map.
  - rewrite (upsertOrder_new _ _ Hfind). cbn [snd].
    rewrite orders_of_Some, length_app. unfold stored.
    rewrite length_map. cbn. lia.
Qed.

(** X4. On a JSON file, [upsertOrder] leaves every record with another id
    where it is and as it is. *)
Theorem upsertOrder_other_records (order : obj) (f : Store.file) (i : nat)
    (r : obj) :
  json_file f ->
  orders_of f !! i = Some r ->
  ~ has_id (prop order "id") r ->
  orders_of (snd (upsertOrder order f)) !! i = Some r.
Proof.
  intros Hf Hr Hne. pose proof (json_file_orders f Hf) as Hd.
  destruct (list_find (has_id (prop order "id")) (orders_of f))
    as [[idx old] |] eqn:Hfind.
  - rewrite (upsertOrder_old _ _ _ _ Hfind), Hd. cbn [snd].
    rewrite orders_of_Some. apply list_find_Some in Hfind as (Hold & Hhas & _).
    rewrite list_lookup_insert_ne; [done |]. intros ->. congruence.
  - rewrite (upsertOrder_new _ _ Hfind), Hd. cbn [snd].
    rewrite orders_of_Some. by apply lookup_app_l_Some.
Qed.

Lemma upsertOrder_other_records_witness :
  json_file (saved [order "O1" "C1"; order "O2" "C2"])
  /\ orders_of (saved [order "O1" "C1"; order "O2" "C2"]) !! 0%nat
     = Some (order "O1" "C1")
  /\ ~ has_id (prop (paid_order_at "O2" "C2" "2024-05-01T10:00:00.000Z") "id")
         (order "O1" "C1")
  /\ orders_of (snd (upsertOrder
                       (paid_order_at "O2" "C2" "2024-05-01T10:00:00.000Z")
                       (saved [order "O1" "C1"; order "O2" "C2"]))) !! 0%nat
     = Some (order "O1" "C1").
Proof.
  assert (orders_of (saved [order "O1" "C1"; order "O2" "C2"]) !! 0%nat
          = Some (order "O1" "C1")) as H0 by reflexivity.
  assert (~ has_id (prop (paid_order_at "O2" "C2" "2024-05-01T10:00:00.000Z") "id")
            (order "O1" "C1")) as Hne by (vm_compute; discriminate).
  split; [apply json_file_saved |]. split; [exact H0 |]. split; [exact Hne |].
  exact (upsertOrder_other_records _ _ 0%nat _
           (json_file_saved _) H0 Hne).
Defined.

(** X5. [getOrderByChannelId] answers with the first record of the
    channel in file order: no earlier record is of that channel, however
    many later ones are. *)
Theorem getOrderByChannelId_first (ch : value) (f : Store.file) (o : obj) :
  fst (getOrderByChannelId ch f) = Some o ->
  exists i,
    orders_of f !! i = Some o
    /\ in_channel ch o
    /\ forall j r, orders_of f !! j = Some r -> (j < i)%nat -> ~ in_channel ch r.
Proof.
  rewrite getOrderByChannelId_eq. cbn [fst]. intros Hfind.
  destruct (list_find (in_channel ch) (orders_of f)) as [[i o'] |] eqn:Hf;
    [| done].
  injection Hfind as ->. apply list_find_Some in Hf as (Hi & Hin & Hbefore).
  exists i. split; [done |]. split; [done |]. intros j r Hj Hlt.
  by apply (Hbefore j).
Qed.

Lemma getOrderByChannelId_first_witness :
  fst (getOrderByChannelId (VStr "C1")
         (saved [order "O0" "C0"; order "O1" "C1"; order "O2" "C1"]))
  = Some (order "O1" "C1")
  /\ exists i,
      orders_of (saved [order "O0" "C0"; order "O1" "C1"; order "O2" "C1"]) !! i
      = Some (order "O1" "C1")
      /\ in_channel (VStr "C1") (order "O1" "C1")
      /\ forall j r,
          orders_of (saved [order "O0" "C0"; order "O1" "C1"; order "O2" "C1"])
            !! j = Some r ->
          (j < i)%nat -> ~ in_channel (VStr "C1") r.
Proof.
  assert (fst (getOrderByChannelId (VStr "C1")
                 (saved [order "O0" "C0"; order "O1" "C1"; order "O2" "C1"]))
          = Some (order "O1" "C1")) as H by reflexivity.
  split; [exact H |].
  exact (getOrderByChannelId_first _ _ _ H).
Defined.

(** X6. On a JSON file, [markPaid] keeps the number of records and leaves
    every record with another id where it is and as it is. *)
Theorem markPaid_other_records (now : string) (id payment : value)
    (f : Store.file) :
  json_file f ->
  length (orders_of (snd (markPaid now id payment f))) = length (orders_of f)
  /\ forall i r,
      orders_of f !! i = Some r -> ~ has_id id r ->
      orders_of (snd (markPaid now id payment f)) !! i = Some r.
Proof.
  intros Hf.
  destruct (list_find (has_id id) (orders_of f)) as [[idx old] |] eqn:Hfind.
  - destruct (markPaid_found_state now id payment f idx old Hf Hfind)
      as (-> & _ & _).
    rewrite orders_of_Some, length_insert. split; [done |].
    intros i r Hr Hne. apply list_find_Some in Hfind as (Hold & Hhas & _).
    rewrite list_lookup_insert_ne; [done |]. intros ->. congruence.
  - rewrite (markPaid_missing _ _ _ _ Hfind). cbn [snd].
    by rewrite orders_of_Some.
Qed.

Lemma markPaid_other_records_witness :
  json_file (saved [order "O1" "C1"; order "O2" "C2"])
  /\ length (orders_of (snd (markPaid "2024-05-01T10:00:00.000Z" (VStr "O2")
                               (VObj ∅)
                               (saved [order "O1" "C1"; order "O2" "C2"]))))
     = length (orders_of (saved [order "O1" "C1"; order "O2" "C2"]))
  /\ forall i r,
      orders_of (saved [order "O1" "C1"; order "O2" "C2"]) !! i = Some r ->
      ~ has_id (VStr "O2") r ->
      orders_of (snd (markPaid "2024-05-01T10:00:00.000Z" (VStr "O2") (VObj ∅)
                        (saved [order "O1" "C1"; order "O2" "C2"]))) !! i
      = Some r.
Proof.
  split; [apply json_file_saved |].
  exact (markPaid_other_records "2024-05-01T10:00:00.000Z" (VStr "O2") (VObj ∅)
           (saved [order "O1" "C1"; order "O2" "C2"]) (json_file_saved _)).
Defined.



(* ===================================================================== *)
(** * More about the handlers *)
(* ===================================================================== *)

(** ** Errors stay inside *)

(** A branch that hands back no reply: whatever it throws is caught. *)
Lemma button_caught (X : platform) (branch : M (option reply)) (w : world) :
  (forall r, fst (branch w) <> Ok (Some r)) ->
  fst (button X branch w) = Ok tt.
Proof.
  intros H. unfold button, return_nothing. step.
  destruct (branch w) as [[[r |] | err] w1]; cbn in *.
  - by destruct (H r).
  - done.
  - by destruct (resolves X _).
Qed.

(** X8. No error leaves the two webhook handlers and [notifyPaid]: each
    completes normally in every world.  The button handler completes
    normally on its branches [choose_prod:], [pay_crypto:] and
    [pay_stripe:] once the product or the unpaid order is found, whatever
    fails after that; the replies "Product not found", "Order not found"
    and "Already paid" are returned without [await], and when the platform
    rejects one of them the rejection leaves the handler. *)
Theorem handlers_complete_normally (X : platform) (e : env) (now : string)
    (body : value) (req : stripe_request) (order : obj)
    (products : list obj) (uuid : string) (i : interaction) (w : world) :
  let settles r :=
    if resolves X (InteractionReply r) then Ok tt else Throw "rejected" in
  let pay_settles :=
    match fst (getOrderById (custom_arg i) (file w)) with
    | None => settles OrderNotFound
    | Some found =>
        if strict_eq (prop found "status") (VStr "paid")
        then settles AlreadyPaid
        else Ok tt
    end in
  fst (cryptomus_webhook X e now body w) = Ok tt
  /\ fst (stripe_webhook X e now req w) = Ok tt
  /\ fst (notifyPaid X e order w) = Ok tt
  /\ fst (button X (choose_prod X products uuid now i) w)
     = match find_product products (custom_arg i) with
       | None => settles ProductNotFound
       | Some _ => Ok tt
       end
  /\ fst (button X (pay_crypto X e i) w) = pay_settles
  /\ fst (button X (pay_stripe X e i) w) = pay_settles.
Proof.
  cbv zeta. split_and!.
  - unfold cryptomus_webhook, try_catch.
    match goal with
    | |- context [match ?m w with _ => _ end] =>
        destruct (m w) as [[[] | err] w']
    end; done.
  - unfold stripe_webhook, try_catch.
    match goal with
    | |- context [match ?m w with _ => _ end] =>
        destruct (m w) as [[[] | err] w']
    end; done.
  - destruct (notifyPaid_spec X e order w) as (t & -> & _). done.
  - unfold choose_prod. destruct (find_product _ _) as [prod |].
    + apply button_caught. intros r.
      unfold return_nothing. step.
      destruct (create_order X uuid now i prod w) as [[[] | err] w1]; cbn;
        [| done].
      by destruct (resolves X _).
    + unfold button, return_reply. step. by destruct (resolves X _).
  - destruct (fst (getOrderById (custom_arg i) (file w))) as [found |] eqn:Hf.
    + destruct (strict_eq (prop found "status") (VStr "paid")) eqn:Hpaid.
      * unfold button, pay_crypto, return_reply. step.
        destruct (getOrderById _ _) as [o f1]. cbn in Hf. subst o. cbn.
        rewrite Hpaid. cbn. by destruct (resolves X _).
      * apply button_caught. intros r. unfold pay_crypto. step.
        destruct (getOrderById _ _) as [o f1]. cbn in Hf. subst o. cbn.
        rewrite Hpaid.
        destruct (crypto_invoice_for X e found) as [inv | err]; cbn; [| done].
        destruct (upsertOrder _ _) as [o f2]. cbn.
        match goal with
        | |- fst (match ?m ?w0 with _ => _ end) <> _ =>
            destruct (m w0) as [[[] | err] w3]; cbn; [| done]
        end.
        unfold return_nothing. by destruct (resolves X _).
    + unfold button, pay_crypto, return_reply. step.
      destruct (getOrderById _ _) as [o f1]. cbn in Hf. subst o. cbn.
      by destruct (resolves X _).
  - destruct (fst (getOrderById (custom_arg i) (file w))) as [found |] eqn:Hf.
    + destruct (strict_eq (prop found "status") (VStr "paid")) eqn:Hpaid.
      * unfold button, pay_stripe, return_reply. step.
        destruct (getOrderById _ _) as [o f1]. cbn in Hf. subst o. cbn.
        rewrite Hpaid. cbn. by destruct (resolves X _).
      * apply button_caught. intros r. unfold pay_stripe. step.
        destruct (getOrderById _ _) as [o f1]. cbn in Hf. subst o. cbn.
        rewrite Hpaid.
        destruct (stripe_checkout_for X e found) as [inv | err]; cbn; [| done].
        destruct (upsertOrder _ _) as [o f2]. cbn.
        match goal with
        | |- fst (match ?m ?w0 with _ => _ end) <> _ =>
            destruct (m w0) as [[[] | err] w3]; cbn; [| done]
        end.
        unfold return_nothing. by destruct (resolves X _).
    + unfold button, pay_stripe, return_reply. step.
      destruct (getOrderById _ _) as [o f1]. cbn in Hf. subst o. cbn.
      by destruct (resolves X _).
Qed.

(** A reply returned without [await] and rejected: the rejection leaves
    the button handler, and nothing is logged. *)
Lemma button_reply_rejection_escapes :
  let X := {| resolves := fun _ => false; channel_exists := fun _ => true;
              user_exists := fun _ => true;
              constructEvent := fun _ _ _ => Throw "no";
              JSON_parse := fun _ => Throw "no";
              JSON_stringify := fun _ => "{}";
              cryptomus_payment := fun _ => Throw "no";
              stripe_sessions_create := fun _ => Throw "no";
              link_button := fun _ => true;
              slice_upper := fun id => id |} in
  button X (pay_crypto X environment (click "pay_crypto:O9" "C1" "U1"))
    (world_with [order "O1" "C1"])
  = (Throw "rejected", world_with [order "O1" "C1"]).
Proof. reflexivity. Qed.

(** The [MessageCreate] handler has no [catch]: a rejected send leaves
    it as an error. *)
Lemma close_command_can_throw :
  fst (close_command
         {| resolves := fun _ => false; channel_exists := fun _ => true;
            user_exists := fun _ => true;
            constructEvent := fun _ _ _ => Throw "no";
            JSON_parse := fun _ => Throw "no";
            JSON_stringify := fun _ => "{}";
            cryptomus_payment := fun _ => Throw "no";
            stripe_sessions_create := fun _ => Throw "no";
            link_button := fun _ => true;
            slice_upper := fun id => id |}
         environment "2024-05-01T10:00:00.000Z" (close_by_owner "C1")
         (world_with []))
  = Throw "rejected".
Proof. vm_compute. reflexivity. Qed.

(** ** Who may close a ticket *)

(** X9. A message that is not in a guild, or not in a channel named
    [ticket-...], or whose trimmed text is not [+dn], or whose author is
    neither the configured owner nor allowed to manage channels, changes
    nothing: no message, no invoice, no counter, no deletion. *)
Theorem close_command_ignores (X : platform) (e : env) (now : string)
    (m : chat_message) (w : world) :
  in_guild m = false
  \/ (forall name, m_channel_name m = Some name ->
                   Text.startsWith "ticket-" name = false)
  \/ (forall c, content m = Some c -> Text.trim c <> "+dn")
  \/ (has_manage m = false
      /\ (env_get e "OWNER_ID" = VUndef
          \/ env_get e "OWNER_ID" <> VStr (author_id m))) ->
  close_command X e now m w = (Ok tt, w).
Proof.
  intros H. unfold close_command.
  assert (authorized_close e m = false) as ->; [| done].
  unfold authorized_close.
  destruct H as [-> | [Hname | [Hcontent | [-> Howner]]]].
  - done.
  - destruct (m_channel_name m) as [name |].
    + rewrite (Hname name eq_refl). by rewrite andb_false_r.
    + by rewrite andb_false_r.
  - destruct (content m) as [c |].
    + specialize (Hcontent c eq_refl). apply String.eqb_neq in Hcontent.
      rewrite Hcontent. by rewrite andb_false_r.
    + by rewrite andb_false_r.
  - rewrite orb_false_r.
    assert (truthy (env_get e "OWNER_ID")
            && strict_eq (VStr (author_id m)) (env_get e "OWNER_ID") = false)
      as ->; [| by rewrite andb_false_r].
    destruct Howner as [-> | Hne]; [done |].
    unfold env_get in *. destruct (e !! "OWNER_ID") as [s |]; [| done].
    unfold strict_eq. destruct (String.eqb_spec (author_id m) s) as [Heq | _];
      [by rewrite Heq in Hne |]. by rewrite andb_false_r.
Qed.

(** [trim] takes the white space of the language away, not only that of
    ASCII: a no-break space before [+dn] and an ideographic space after it
    leave the command. *)
Lemma trim_beyond_ascii :
  Text.trim
    (string_of_list_ascii
       (map ascii_of_nat [194; 160; 43; 100; 110; 227; 128; 128]%nat))
  = "+dn".
Proof. reflexivity. Qed.

Lemma close_command_ignores_witness :
  let m := {| in_guild := true; m_channel_name := Some "ticket-U1";
              m_channel_id := "C1"; content := Some "+dn";
              author_id := "U1"; has_manage := false |} in
  (in_guild m = false
   \/ (forall name, m_channel_name m = Some name ->
                    Text.startsWith "ticket-" name = false)
   \/ (forall c, content m = Some c -> Text.trim c <> "+dn")
   \/ (has_manage m = false
       /\ (env_get environment "OWNER_ID" = VUndef
           \/ env_get environment "OWNER_ID" <> VStr (author_id m))))
  /\ close_command platform_ok environment "2024-05-01T10:00:00.000Z" m
       (world_with [order "O1" "C1"])
     = (Ok tt, world_with [order "O1" "C1"]).
Proof.
  cbv zeta.
  assert (env_get environment "OWNER_ID" <> VStr "U1") as Hne
    by (vm_compute; discriminate).
  split.
  - right. right. right. split; [reflexivity | right; exact Hne].
  - apply close_command_ignores. right. right. right.
    split; [reflexivity | right; exact Hne].
Defined.

(** ** Payment branches that do not start a payment *)

(** X10. A payment button whose order is not in the file, or is already
    paid, is answered with "Order not found" or "Already paid" and nothing
    else: the orders stay as they are and no message goes to the
    channel. *)
Theorem pay_without_open_order (X : platform) (e : env) (i : interaction)
    (w : world) (pay : M (option reply)) :
  (forall order,
      fst (getOrderById (custom_arg i) (file w)) = Some order ->
      strict_eq (prop order "status") (VStr "paid") = true) ->
  pay = pay_crypto X e i \/ pay = pay_stripe X e i ->
  let answer :=
    InteractionReply
      (match fst (getOrderById (custom_arg i) (file w)) with
       | Some _ => AlreadyPaid
       | None => OrderNotFound
       end) in
  let w' := run (button X pay) w in
  orders_of (file w') = orders_of (file w)
  /\ globals w' = globals w
  /\ exists t,
      trace w' = trace w ++ t
      /\ Forall (fun eff => is_channel_send eff = false) t
      /\ (resolves X answer = true -> t = [answer]).
Proof.
  intros Hpaid Hpay. rewrite getOrderById_eq in *. cbn [fst] in *.
  destruct (list_find (has_id (custom_arg i)) (orders_of (file w)))
    as [[idx o] |] eqn:Hf; cbn [fmap option_fmap option_map snd] in *.
  - specialize (Hpaid o eq_refl).
    destruct Hpay as [-> | ->]; cbv zeta;
      unfold run, button, pay_crypto, pay_stripe, return_reply;
      step; rewrite getOrderById_eq, Hf; cbn; rewrite Hpaid; cbn;
      destruct (resolves X (InteractionReply AlreadyPaid)); cbn;
      rewrite ?orders_of_Some; (split; [done |]); (split; [done |]).
    1, 3: exists [InteractionReply AlreadyPaid]; split_and!;
            [done | by repeat constructor | done].
    all: exists []; split_and!; [by rewrite app_nil_r | constructor | done].
  - destruct Hpay as [-> | ->]; cbv zeta;
      unfold run, button, pay_crypto, pay_stripe, return_reply;
      step; rewrite getOrderById_eq, Hf; cbn;
      destruct (resolves X (InteractionReply OrderNotFound)); cbn;
      rewrite ?orders_of_Some; (split; [done |]); (split; [done |]).
    1, 3: exists [InteractionReply OrderNotFound]; split_and!;
            [done | by repeat constructor | done].
    all: exists []; split_and!; [by rewrite app_nil_r | constructor | done].
Qed.

Lemma pay_without_open_order_witness :
  let w := world_with [paid_order_at "O1" "C1" "2024-05-01T10:00:00.000Z"] in
  let i := click "pay_stripe:O1" "C1" "U1" in
  (forall order,
      fst (getOrderById (custom_arg i) (file w)) = Some order ->
      strict_eq (prop order "status") (VStr "paid") = true)
  /\ trace (run (button platform_ok (pay_stripe platform_ok environment i)) w)
     = [InteractionReply AlreadyPaid].
Proof.
  cbv zeta.
  assert (forall order,
             fst (getOrderById
                    (custom_arg (click "pay_stripe:O1" "C1" "U1"))
                    (file (world_with
                             [paid_order_at "O1" "C1" "2024-05-01T10:00:00.000Z"])))
             = Some order ->
             strict_eq (prop order "status") (VStr "paid") = true) as Hpaid.
  { assert (fst (getOrderById
                   (custom_arg (click "pay_stripe:O1" "C1" "U1"))
                   (file (world_with
                            [paid_order_at "O1" "C1" "2024-05-01T10:00:00.000Z"])))
            = Some (jsonify_obj
                      (paid_order_at "O1" "C1" "2024-05-01T10:00:00.000Z")))
      as -> by reflexivity.
    intros order Horder. injection Horder as <-. reflexivity. }
  split; [exact Hpaid |].
  destruct (pay_without_open_order platform_ok environment
              (click "pay_stripe:O1" "C1" "U1")
              (world_with [paid_order_at "O1" "C1" "2024-05-01T10:00:00.000Z"])
              _ Hpaid (or_intror eq_refl)) as (_ & _ & t & Ht & _ & Hres).
  rewrite Ht. rewrite (Hres eq_refl). reflexivity.
Defined.

Ltac close_world :=
  cbn; rewrite ?orders_of_Some; (split; [done |]); (split; [done |]);
  unfold add_trace; cbn [file globals trace]; rewrite <- ?app_assoc;
  first [ eexists; split; [reflexivity |]
        | exists []; split; [by rewrite app_nil_r |] ];
  repeat constructor.

(** X11. When the call of [createCryptomusInvoice] that the Crypto
    payment branch makes for the order of the button fails (a missing
    merchant id or API key, a rejected or failed request, an answer without
    a link, a product without a name), the branch stores nothing and sends
    nothing to the channel: the order keeps the payment data it had. *)
Theorem pay_crypto_invoice_failure (X : platform) (e : env) (i : interaction)
    (w : world) :
  (forall order,
      fst (getOrderById (custom_arg i) (file w)) = Some order ->
      exists msg, crypto_invoice_for X e order = Throw msg) ->
  let w' := run (button X (pay_crypto X e i)) w in
  orders_of (file w') = orders_of (file w)
  /\ globals w' = globals w
  /\ exists t,
      trace w' = trace w ++ t
      /\ Forall (fun eff => is_channel_send eff = false) t.
Proof.
  intros Hfail. cbv zeta. unfold run, button, pay_crypto, return_reply. step.
  rewrite getOrderById_eq in *. cbn [fst] in Hfail.
  destruct (list_find _ _) as [[idx order] |] eqn:Hfind; cbn.
  2: { destruct (resolves X _); close_world. }
  destruct (strict_eq _ _); cbn.
  { destruct (resolves X _); close_world. }
  destruct (Hfail order eq_refl) as [msg ->].
  cbn. destruct (resolves X _); close_world.
Qed.

Lemma pay_crypto_invoice_failure_witness :
  let e : env := {[ "CRYPTOMUS_API_KEY" := "key" ]} in
  let w := world_with [order "O1" "C1"] in
  let i := click "pay_crypto:O1" "C1" "U1" in
  (forall found,
      fst (getOrderById (custom_arg i) (file w)) = Some found ->
      exists msg, crypto_invoice_for platform_ok e found = Throw msg)
  /\ orders_of (file (run (button platform_ok (pay_crypto platform_ok e i)) w))
     = orders_of (file w).
Proof.
  cbv zeta.
  assert (forall found,
             fst (getOrderById (custom_arg (click "pay_crypto:O1" "C1" "U1"))
                    (file (world_with [order "O1" "C1"])))
             = Some found ->
             exists msg,
               crypto_invoice_for platform_ok {[ "CRYPTOMUS_API_KEY" := "key" ]}
                 found
               = Throw msg) as Hfail.
  { assert (fst (getOrderById (custom_arg (click "pay_crypto:O1" "C1" "U1"))
                   (file (world_with [order "O1" "C1"])))
            = Some (jsonify_obj (order "O1" "C1"))) as -> by reflexivity.
    intros o Ho. injection Ho as <-. eexists. reflexivity. }
  split; [exact Hfail |].
  apply (pay_crypto_invoice_failure platform_ok _
           (click "pay_crypto:O1" "C1" "U1") (world_with [order "O1" "C1"])
           Hfail).
Defined.

(** X12. When the call of [createStripeCheckout] that the Card payment
    branch makes for the order of the button fails (a missing secret key,
    a rejected request, an answer that is not an object, a product without
    a name), the branch stores nothing and sends nothing to the channel. *)
Theorem pay_stripe_checkout_failure (X : platform) (e : env) (i : interaction)
    (w : world) :
  (forall order,
      fst (getOrderById (custom_arg i) (file w)) = Some order ->
      exists msg, stripe_checkout_for X e order = Throw msg) ->
  let w' := run (button X (pay_stripe X e i)) w in
  orders_of (file w') = orders_of (file w)
  /\ globals w' = globals w
  /\ exists t,
      trace w' = trace w ++ t
      /\ Forall (fun eff => is_channel_send eff = false) t.
Proof.
  intros Hfail. cbv zeta. unfold run, button, pay_stripe, return_reply. step.
  rewrite getOrderById_eq in *. cbn [fst] in Hfail.
  destruct (list_find _ _) as [[idx order] |] eqn:Hfind; cbn.
  2: { destruct (resolves X _); close_world. }
  destruct (strict_eq _ _); cbn.
  { destruct (resolves X _); close_world. }
  destruct (Hfail order eq_refl) as [msg ->].
  cbn. destruct (resolves X _); close_world.
Qed.

Lemma pay_stripe_checkout_failure_witness :
  let w := world_with [order "O1" "C1"] in
  let i := click "pay_stripe:O1" "C1" "U1" in
  (forall found,
      fst (getOrderById (custom_arg i) (file w)) = Some found ->
      exists msg, stripe_checkout_for platform_ok ∅ found = Throw msg)
  /\ orders_of (file (run (button platform_ok (pay_stripe platform_ok ∅ i)) w))
     = orders_of (file w).
Proof.
  cbv zeta.
  assert (forall found,
             fst (getOrderById (custom_arg (click "pay_stripe:O1" "C1" "U1"))
                    (file (world_with [order "O1" "C1"])))
             = Some found ->
             exists msg, stripe_checkout_for platform_ok ∅ found = Throw msg)
    as Hfail.
  { assert (fst (getOrderById (custom_arg (click "pay_stripe:O1" "C1" "U1"))
                   (file (world_with [order "O1" "C1"])))
            = Some (jsonify_obj (order "O1" "C1"))) as -> by reflexivity.
    intros o Ho. injection Ho as <-. eexists. reflexivity. }
  split; [exact Hfail |].
  apply (pay_stripe_checkout_failure platform_ok ∅
           (click "pay_stripe:O1" "C1" "U1") (world_with [order "O1" "C1"])
           Hfail).
Defined.

(** ** Closing a ticket *)






(** ** The counters *)

Lemma keeps_globals_ret {A} (a : A) : keeps_globals (ret a).
Proof. by intros w. Qed.

Lemma keeps_globals_lift {A} (r : result A) : keeps_globals (lift r).
Proof. by intros w. Qed.

Lemma keeps_globals_emit (eff : effect) : keeps_globals (emit eff).
Proof. by intros w. Qed.

Lemma keeps_globals_await (X : platform) (eff : effect) :
  keeps_globals (await X eff).
Proof. intros w. unfold await. by destruct (resolves X eff). Qed.

Lemma keeps_globals_store {A} (op : Store.file -> A * Store.file) :
  keeps_globals (store op).
Proof. intros w. unfold store. by destruct (op (file w)). Qed.

Lemma keeps_globals_bind {A B} (m : M A) (k : A -> M B) :
  keeps_globals m -> (forall a, keeps_globals (k a)) -> keeps_globals (m ≫= k).
Proof.
  intros Hm Hk w. step. specialize (Hm w).
  destruct (m w) as [[a | err] w1]; cbn in *; [| done].
  by rewrite Hk.
Qed.

Lemma keeps_globals_try_catch {A} (m : M A) (h : string -> M A) :
  keeps_globals m -> (forall err, keeps_globals (h err)) ->
  keeps_globals (try_catch m h).
Proof.
  intros Hm Hh w. step. specialize (Hm w).
  destruct (m w) as [[a | err] w1]; cbn in *; [done |].
  by rewrite Hh.
Qed.

Ltac keeps_globals_tac :=
  repeat match goal with
         | |- keeps_globals (if ?b then _ else _) => destruct b
         | |- keeps_globals (match ?o with Some _ => _ | None => _ end) =>
             destruct o
         | |- keeps_globals (_ ≫= _) => apply keeps_globals_bind
         | |- keeps_globals (try_catch _ _) => apply keeps_globals_try_catch
         | |- keeps_globals (lift _) => apply keeps_globals_lift
         | |- keeps_globals (ret _) => apply keeps_globals_ret
         | |- keeps_globals (emit _) => apply keeps_globals_emit
         | |- keeps_globals (await _ _) => apply keeps_globals_await
         | |- keeps_globals (store _) => apply keeps_globals_store
         | |- forall _, keeps_globals _ => intro
         end.

Lemma keeps_globals_deliver_invoice (X : platform) (e : env) (now : string)
    (order : obj) :
  keeps_globals (deliver_invoice X e now order).
Proof. unfold deliver_invoice. keeps_globals_tac. Qed.

Lemma keeps_globals_finish_close (X : platform) (e : env) (now : string)
    (m : chat_message) (o : option obj) :
  keeps_globals (finish_close X e now m o).
Proof.
  unfold finish_close. destruct o; keeps_globals_tac.
  apply keeps_globals_deliver_invoice.
Qed.

(** X15. Whatever happens, the [MessageCreate] handler leaves the orders
    as they are (an order closed by force stays unpaid in the file), leaves
    the counters of the other channels alone, and raises the counter of its
    own channel by one at most: no run lowers or removes a counter. *)
Theorem close_command_orders_and_counters (X : platform) (e : env)
    (now : string) (m : chat_message) (w : world) :
  let w' := run (close_command X e now m) w in
  orders_of (file w') = orders_of (file w)
  /\ (forall k, k <> forceKey m -> globals w' !! k = globals w !! k)
  /\ (default 0 (globals w !! forceKey m)
      <= default 0 (globals w' !! forceKey m)
      <= default 0 (globals w !! forceKey m) + 1)%nat.
Proof.
  cbv zeta. split.
  { destruct (close_command_file X e now m w) as [-> | ->];
      [done | by rewrite orders_of_Some]. }
  unfold run, close_command.
  destruct (negb (authorized_close e m)); [cbn; split; [done | lia] |].
  step. rewrite getOrderByChannelId_eq.
  pose proof (keeps_globals_finish_close X e now m) as Hfinish.
  destruct (snd <$> list_find _ _) as [o |]; cbn.
  - destruct (negb _); cbn.
    + unfold count_force. cbn.
      match goal with
      | |- context [if ?c then _ else finish_close _ _ _ _ _] => destruct c
      end.
      * destruct (resolves X _); cbn; rewrite lookup_insert_eq; cbn;
          (split; [by intros k Hk; rewrite lookup_insert_ne | lia]).
      * rewrite !Hfinish. cbn. rewrite lookup_insert_eq. cbn.
        split; [by intros k Hk; rewrite lookup_insert_ne | lia].
    + rewrite !Hfinish. cbn. split; [done | lia].
  - rewrite !Hfinish. cbn. split; [done | lia].
Qed.

(* ===================================================================== *)
(** * Ids, buttons and locks *)
(* ===================================================================== *)

(** ** Invoice numbers *)

Lemma map_string_length (f : ascii -> ascii) (s : string) :
  String.length (Text.map_string f s) = String.length s.
Proof. induction s as [| c s IH]; cbn; [done | by rewrite IH]. Qed.

Lemma slice0_length (n : nat) (s : string) :
  String.length (Text.slice0 n s) = Nat.min n (String.length s).
Proof.
  unfold Text.slice0. revert s.
  induction n as [| n IH]; intros [| c s]; cbn; try done.
  by rewrite IH.
Qed.

(** X16. The invoice number of an order whose id is a string with its
    first eight characters in ASCII (as a UUID has) is [INV-] followed by
    these characters in upper case: twelve characters at most, and the same
    number (hence the same PDF path) for two such orders whose ids agree on
    these characters up to case. *)
Theorem invoiceId_shape (X : platform) (order : obj) (id : string) :
  prop order "id" = VStr id ->
  Text.is_ascii (Text.slice0 8 id) = true ->
  exists inv,
    invoiceId X order = Ok inv
    /\ String.length inv = 4 + Nat.min 8 (String.length id)
    /\ Text.startsWith "INV-" inv = true
    /\ forall X' order' id',
        prop order' "id" = VStr id' ->
        Text.is_ascii (Text.slice0 8 id') = true ->
        Text.toUpperCase (Text.slice0 8 id') = Text.toUpperCase (Text.slice0 8 id) ->
        invoiceId X' order' = Ok inv.
Proof.
  intros Hid Hascii. unfold invoiceId. rewrite Hid, Hascii.
  eexists. split; [done |].
  change ("INV-" +:+ ?x)
    with (String "I" (String "N" (String "V" (String "-" x)))).
  split; [| split].
  - cbn [String.length]. unfold Text.toUpperCase.
    by rewrite map_string_length, slice0_length.
  - unfold Text.startsWith. cbn. by destruct (Text.toUpperCase _).
  - intros X' order' id' Hid' Hascii' Hsame. by rewrite Hid', Hascii', Hsame.
Qed.

Lemma invoiceId_shape_witness :
  prop (order "3f2a9c1e-77aa-4d0e-9a51-0c2f6f1d2b3c" "C1") "id"
  = VStr "3f2a9c1e-77aa-4d0e-9a51-0c2f6f1d2b3c"
  /\ Text.is_ascii (Text.slice0 8 "3f2a9c1e-77aa-4d0e-9a51-0c2f6f1d2b3c") = true
  /\ invoiceId platform_ok (order "3f2a9c1e-77aa-4d0e-9a51-0c2f6f1d2b3c" "C1")
     = Ok "INV-3F2A9C1E"
  /\ invoiceId platform_ok (order "3F2A9C1E-0000-4000-8000-000000000000" "C2")
     = Ok "INV-3F2A9C1E".
Proof.
  assert (prop (order "3f2a9c1e-77aa-4d0e-9a51-0c2f6f1d2b3c" "C1") "id"
          = VStr "3f2a9c1e-77aa-4d0e-9a51-0c2f6f1d2b3c") as Hid by reflexivity.
  assert (Text.is_ascii (Text.slice0 8 "3f2a9c1e-77aa-4d0e-9a51-0c2f6f1d2b3c")
          = true) as Hascii by reflexivity.
  split; [exact Hid |]. split; [exact Hascii |].
  destruct (invoiceId_shape platform_ok _ _ Hid Hascii)
    as (inv & Hinv & _ & _ & Hsame).
  assert (inv = "INV-3F2A9C1E") as ->.
  { assert (invoiceId platform_ok
              (order "3f2a9c1e-77aa-4d0e-9a51-0c2f6f1d2b3c" "C1")
            = Ok "INV-3F2A9C1E") as Hc by reflexivity.
    congruence. }
  split; [exact Hinv |].
  apply (Hsame platform_ok _ "3F2A9C1E-0000-4000-8000-000000000000");
    reflexivity.
Defined.

(** ** Button ids *)

Lemma until_colon_no_colon (s : string) :
  Text.after_colon s = None -> Text.until_colon s = s.
Proof.
  induction s as [| c s IH]; cbn; [done |].
  destruct (Ascii.eqb c ":"); [done |]. intros H. by rewrite IH.
Qed.

(** X17. The handlers read from the [customId] of a payment button,
    [pay_crypto:<id>] or [pay_stripe:<id>], the part of the order id before
    its first colon: the id itself when it has no colon (as a UUID). *)
Theorem custom_arg_of_pay_button (i : interaction) (id : string) :
  customId i = pay_crypto_id id \/ customId i = pay_stripe_id id ->
  custom_arg i = VStr (Text.until_colon id)
  /\ (Text.after_colon id = None -> custom_arg i = VStr id).
Proof.
  intros Hid.
  assert (custom_arg i = VStr (Text.until_colon id)) as H.
  { unfold custom_arg. by destruct Hid as [-> | ->]. }
  split; [done |]. intros Hno. by rewrite H, until_colon_no_colon.
Qed.

Lemma custom_arg_of_pay_button_witness :
  (customId (click (pay_stripe_id "O1") "C1" "U1") = pay_crypto_id "O1"
   \/ customId (click (pay_stripe_id "O1") "C1" "U1") = pay_stripe_id "O1")
  /\ custom_arg (click (pay_stripe_id "O1") "C1" "U1") = VStr "O1"
  /\ custom_arg (click (pay_crypto_id "a:b") "C1" "U1") = VStr "a".
Proof.
  split; [by right |]. split.
  - apply (custom_arg_of_pay_button (click (pay_stripe_id "O1") "C1" "U1") "O1");
      [by right | reflexivity].
  - reflexivity.
Defined.

(** ** Choosing a product *)

(** X18. Choosing a product that exists stores a new order before anything
    is sent, so also when the messages fail: the file gains one record at
    its end, [getOrderById] of the new id finds it, it is pending, of the
    channel and the user of the click, and its product is the id, the name
    and the price of the product chosen.  [uuid] is a fresh id. *)
Theorem choose_prod_stores_pending_order (X : platform) (products : list obj)
    (uuid now : string) (i : interaction) (w : world) (prod : obj) :
  json_file (file w) ->
  Forall (fun o => ~ has_id (VStr uuid) o) (orders_of (file w)) ->
  find_product products (custom_arg i) = Some prod ->
  let w' := run (button X (choose_prod X products uuid now i)) w in
  exists r,
    orders_of (file w') = orders_of (file w) ++ [r]
    /\ fst (getOrderById (VStr uuid) (file w')) = Some r
    /\ r !! "id" = Some (VStr uuid)
    /\ r !! "status" = Some (VStr "pending")
    /\ r !! "channelId" = Some (VStr (channelId i))
    /\ r !! "userId" = Some (VStr (user_id i))
    /\ r !! "product"
       = Some (jsonify (VObj {[ "id" := prop prod "id";
                                "name" := prop prod "name";
                                "price" := prop prod "price" ]})).
Proof.
  intros Hf Hfresh Hprod. cbv zeta.
  pose proof (json_file_orders _ Hf) as Hd.
  assert (file (run (button X (choose_prod X products uuid now i)) w)
          = Some (orders_of (file w) ++ [jsonify_obj (new_order uuid now i prod)]))
    as ->.
  { rewrite button_file. unfold run, choose_prod. rewrite Hprod.
    unfold create_order. step.
    apply (list_find_None (has_id _)) in Hfresh.
    rewrite upsertOrder_new by done. rewrite Hd. cbn.
    destruct (ToString _); cbn; [| done].
    destruct (money _); cbn; [| done].
    destruct (resolves X _); cbn; [| done].
    by destruct (resolves X _). }
  exists (jsonify_obj (new_order uuid now i prod)).
  rewrite orders_of_Some. split; [done |].
  split.
  { rewrite getOrderById_eq, orders_of_Some. cbn [fst].
    apply (list_find_None (has_id _)) in Hfresh.
    rewrite list_find_app_r by done. cbn.
    rewrite decide_True; [done |].
    unfold has_id, prop, strict_eq.
    rewrite (jsonify_obj_lookup_Some _ "id" (VStr uuid)) by done.
    cbn. apply String.eqb_refl. }
  split_and!; rewrite jsonify_obj_lookup; reflexivity.
Qed.

Lemma choose_prod_stores_pending_order_witness :
  let w := world_with [order "O1" "C1"] in
  let i := click "choose_prod:gold" "C2" "U2" in
  json_file (file w)
  /\ Forall (fun o => ~ has_id (VStr "O2") o) (orders_of (file w))
  /\ find_product products (custom_arg i) = Some gold
  /\ exists r,
      orders_of (file (run (button platform_ok
                              (choose_prod platform_ok products "O2"
                                 "2024-05-01T11:00:00.000Z" i)) w))
      = orders_of (file w) ++ [r]
      /\ summary r = (VStr "O2", VStr "C2", VStr "pending").
Proof.
  cbv zeta.
  assert (Forall (fun o => ~ has_id (VStr "O2") o)
            (orders_of (file (world_with [order "O1" "C1"])))) as Hfresh.
  { repeat constructor. vm_compute. discriminate. }
  split; [apply json_file_saved |]. split; [exact Hfresh |].
  split; [reflexivity |].
  destruct (choose_prod_stores_pending_order platform_ok products "O2"
              "2024-05-01T11:00:00.000Z" (click "choose_prod:gold" "C2" "U2")
              (world_with [order "O1" "C1"]) gold
              (json_file_saved _) Hfresh eq_refl)
    as (r & Hr & _ & Hid & Hstatus & Hchannel & _).
  exists r. split; [exact Hr |].
  unfold summary, prop. by rewrite Hid, Hstatus, Hchannel.
Defined.

(** ** Rows of product buttons *)

Lemma rows_loop_spec {B} (mk : obj -> result B) (ps : list obj) (bs : list B) :
  Forall2 (fun p b => mk p = Ok b) ps bs ->
  forall rows row,
    length row <= 5 ->
    Forall (fun r => length r = 5) rows ->
    exists rows' row',
      rows_loop mk ps rows row (length row) = Ok (rows', row', length row')
      /\ length row' <= 5
      /\ Forall (fun r => length r = 5) rows'
      /\ concat rows' ++ row' = concat rows ++ row ++ bs
      /\ (row' = [] -> row = [] /\ bs = []).
Proof.
  induction 1 as [| p b ps bs Hp _ IH]; intros rows row Hlen Hrows.
  - exists rows, row. cbn. rewrite app_nil_r. by repeat split.
  - cbn [rows_loop].
    destruct (Nat.eqb_spec (length row) 5) as [Hfull | Hnot].
    + rewrite Hp. cbn [bind].
      destruct (IH (rows ++ [row]) [b]) as (rows' & row' & Hloop & H5 & Hall & Hcat & Hnil).
      { cbn. lia. }
      { apply Forall_app. split; [done |]. by constructor. }
      exists rows', row'. cbn [app length] in *.
      rewrite Hloop. split; [done |]. split; [done |]. split; [done |].
      split.
      * rewrite Hcat, concat_app. cbn. rewrite app_nil_r.
        by rewrite <- app_assoc.
      * intros Hr. by destruct (Hnil Hr).
    + rewrite Hp. cbn [bind].
      destruct (IH rows (row ++ [b])) as (rows' & row' & Hloop & H5 & Hall & Hcat & Hnil).
      { rewrite length_app. cbn. lia. }
      { done. }
      exists rows', row'.
      replace (S (length row)) with (length (row ++ [b]))
        by (rewrite length_app; cbn; lia).
      rewrite Hloop. split; [done |]. split; [done |]. split; [done |].
      split.
      * rewrite Hcat. by rewrite <- !app_assoc.
      * intros Hr. destruct (Hnil Hr) as [Habs _]. by destruct row.
Qed.

(** X19. When every button can be built, the rows sent with the products
    message hold all the buttons in the order of the products, five in
    every row but the last, which holds one to five: [ceil(n / 5)] rows
    for [n] products, and no row for none. *)
Theorem component_rows_spec {B} (mk : obj -> result B) (ps : list obj)
    (bs : list B) :
  Forall2 (fun p b => mk p = Ok b) ps bs ->
  exists rows,
    component_rows mk ps = Ok rows
    /\ concat rows = bs
    /\ Forall (fun r => 1 <= length r <= 5) rows
    /\ (forall k r, rows !! k = Some r -> S k < length rows -> length r = 5)
    /\ length rows = (length ps + 4) / 5.
Proof.
  intros Hmk. pose proof (Forall2_length _ _ _ Hmk) as Hlen.
  destruct (rows_loop_spec mk ps bs Hmk [] []) as
    (rows' & row' & Hloop & H5 & Hall & Hcat & Hnil); [cbn; lia | done |].
  cbn [length concat app] in *.
  unfold component_rows. rewrite Hloop. cbn [bind].
  assert (length (concat rows') = 5 * length rows') as Hsize.
  { clear -Hall. induction Hall as [| r rows Hr _ IH]; [done |].
    cbn. rewrite length_app, IH. lia. }
  assert (length bs = 5 * length rows' + length row') as Hbs.
  { rewrite <- Hcat, length_app. lia. }
  destruct (Nat.eqb_spec (length row') 0) as [H0 | Hne].
  - apply nil_length_inv in H0. subst row'. rewrite app_nil_r in Hcat.
    exists rows'. split; [done |]. split; [done |]. split.
    { eapply Forall_impl; [exact Hall |]. cbn. intros r Hr. lia. }
    split.
    { intros k r Hk _. by apply (Forall_lookup_1 _ _ _ _ Hall Hk). }
    cbn [length] in Hbs. rewrite Hlen, Hbs.
    apply (Nat.div_unique _ 5 _ 4); lia.
  - exists (rows' ++ [row']). split; [done |]. split.
    { rewrite concat_app. cbn. by rewrite app_nil_r. }
    split.
    { apply Forall_app. split.
      - eapply Forall_impl; [exact Hall |]. cbn. intros r Hr. lia.
      - constructor; [lia | done]. }
    split.
    { intros k r Hk Hlast. rewrite length_app in Hlast. cbn in Hlast.
      rewrite lookup_app_l in Hk by lia.
      by apply (Forall_lookup_1 _ _ _ _ Hall Hk). }
    rewrite length_app. cbn [length]. rewrite Hlen, Hbs.
    apply (Nat.div_unique _ 5 _ (length row' - 1)); lia.
Qed.

Lemma component_rows_spec_witness :
  Forall2 (fun p b => product_button_of p = Ok b) [gold]
    [{| button_id := "choose_prod:gold";
        button_label := "Gold Pack ($9.99)";
        button_emoji := VUndef |}]
  /\ product_rows [gold]
     = Ok [[{| button_id := "choose_prod:gold";
               button_label := "Gold Pack ($9.99)";
               button_emoji := VUndef |}]].
Proof.
  assert (Forall2 (fun p b => product_button_of p = Ok b) [gold]
            [{| button_id := "choose_prod:gold";
                button_label := "Gold Pack ($9.99)";
                button_emoji := VUndef |}]) as Hmk.
  { constructor; [vm_compute; reflexivity | constructor]. }
  split; [exact Hmk |].
  destruct (component_rows_spec product_button_of _ _ Hmk)
    as (rows & Hrows & _).
  unfold product_rows. rewrite Hrows. f_equal.
  assert (component_rows product_button_of [gold]
          = Ok [[{| button_id := "choose_prod:gold";
                    button_label := "Gold Pack ($9.99)";
                    button_emoji := VUndef |}]]) as Hc
    by (vm_compute; reflexivity).
  congruence.
Defined.

(** ** The ticket lock *)

Lemma acquireLock_true (now : Z) (u : string) (ttl : Z) (m : locks) :
  fst (acquireLock now u ttl m) = true ->
  snd (acquireLock now u ttl m) = <[u := now]> m.
Proof. unfold acquireLock. by destruct (_ <? _)%Z. Qed.

(** X20. Once [acquireLock] has given the lock to a user at the time
    [now], every further call for that user at a time before [now + ttlMs]
    is refused and leaves the locks as they are (a refused call does not
    extend the lock); the calls for the other users are answered as if the
    lock had not been taken. *)
Theorem acquireLock_excludes (now : Z) (u : string) (ttl : Z) (m : locks) :
  fst (acquireLock now u ttl m) = true ->
  let m1 := snd (acquireLock now u ttl m) in
  (forall t, (t < now + ttl)%Z -> acquireLock t u ttl m1 = (false, m1))
  /\ (forall t u', u' <> u ->
        fst (acquireLock t u' ttl m1) = fst (acquireLock t u' ttl m)).
Proof.
  intros Hok. cbv zeta. rewrite (acquireLock_true _ _ _ _ Hok). split.
  - intros t Ht. unfold acquireLock. rewrite lookup_insert_eq.
    assert ((if (now =? 0)%Z then 0 else now)%Z = now) as ->
      by (destruct (Z.eqb_spec now 0); lia).
    destruct (Z.ltb_spec (t - now) ttl); [done | lia].
  - intros t u' Hne. unfold acquireLock.
    rewrite lookup_insert_ne by done.
    by destruct (_ <? _)%Z.
Qed.

Lemma acquireLock_excludes_witness :
  fst (acquireLock 1714550400000 "U1" 8000 ∅) = true
  /\ acquireLock 1714550407999 "U1" 8000
       (snd (acquireLock 1714550400000 "U1" 8000 ∅))
     = (false, snd (acquireLock 1714550400000 "U1" 8000 ∅))
  /\ fst (acquireLock 1714550408000 "U1" 8000
            (snd (acquireLock 1714550400000 "U1" 8000 ∅))) = true.
Proof.
  assert (fst (acquireLock 1714550400000 "U1" 8000 ∅) = true) as Hok
    by reflexivity.
  split; [exact Hok |]. split; [| reflexivity].
  apply (acquireLock_excludes 1714550400000 "U1" 8000 ∅ Hok). lia.
Defined.

(** X21. The timer of a lock removes that lock; it leaves a lock taken
    later by the same user at another time (a late timer does not release
    the new lock), and it leaves the locks of the other users. *)
Theorem release_timer_spec (now : Z) (u : string) (ttl : Z) (m : locks) :
  fst (acquireLock now u ttl m) = true ->
  let m1 := snd (acquireLock now u ttl m) in
  release_timer now u m1 !! u = None
  /\ (forall now2,
        now2 <> now ->
        fst (acquireLock now2 u ttl m1) = true ->
        release_timer now u (snd (acquireLock now2 u ttl m1))
        = snd (acquireLock now2 u ttl m1))
  /\ (forall stamp u', u' <> u ->
        release_timer stamp u m1 !! u' = m1 !! u').
Proof.
  intros Hok. cbv zeta. rewrite (acquireLock_true _ _ _ _ Hok).
  split; [| split].
  - unfold release_timer. rewrite lookup_insert_eq, Z.eqb_refl.
    apply lookup_delete_eq.
  - intros now2 Hne Hok2. rewrite (acquireLock_true _ _ _ _ Hok2).
    unfold release_timer. rewrite lookup_insert_eq.
    by destruct (Z.eqb_spec now2 now).
  - intros stamp u' Hne. unfold release_timer. rewrite lookup_insert_eq.
    destruct (now =? stamp)%Z; [| done].
    by rewrite lookup_delete_ne.
Qed.

Lemma release_timer_spec_witness :
  fst (acquireLock 1714550400000 "U1" 8000 ∅) = true
  /\ release_timer 1714550400000 "U1"
       (snd (acquireLock 1714550400000 "U1" 8000 ∅)) !! "U1" = None
  /\ release_timer 1714550400000 "U1"
       (snd (acquireLock 1714550408000 "U1" 8000
               (snd (acquireLock 1714550400000 "U1" 8000 ∅)))) !! "U1"
     = Some 1714550408000%Z.
Proof.
  assert (fst (acquireLock 1714550400000 "U1" 8000 ∅) = true) as Hok
    by reflexivity.
  destruct (release_timer_spec 1714550400000 "U1" 8000 ∅ Hok)
    as (Hown & Hlate & _).
  split; [exact Hok |]. split; [exact Hown |].
  rewrite (Hlate 1714550408000%Z); [reflexivity | lia | reflexivity].
Defined.

(** ** Who may choose a product (the guarded variant) *)

Lemma substring_0_all (n : nat) (s : string) :
  String.length s <= n -> String.substring 0 n s = s.
Proof.
  revert n. induction s as [| c s IH]; intros [| n] Hn; cbn in *; try done;
    try lia.
  rewrite IH; [done | lia].
Qed.

Lemma ticket_owner_of_name (name : string) :
  Text.startsWith "ticket-" name = true ->
  name = "ticket-" +:+ String.substring 7 (String.length name) name.
Proof.
  unfold Text.startsWith. intros H.
  do 7 (destruct name as [| ? name]; [discriminate |];
        cbn in H;
        match type of H with
        | (if ?d then _ else _) = true =>
            destruct d as [<- | ?]; [| discriminate]
        end).
  cbn. rewrite substring_0_all; [done | lia].
Qed.

(** X22. In the variant of part_004 a product button pressed outside a
    ticket channel, or in the ticket of another user by someone who is not
    staff, is only answered: no order is created and nothing goes to the
    channel. *)
Theorem choose_prod_guarded_refuses_outsiders (X : platform)
    (products : list obj) (uuid now : string) (i : interaction) (w : world) :
  (forall name,
      channel_name i = Some name ->
      Text.startsWith "ticket-" name = true ->
      name <> "ticket-" +:+ user_id i /\ is_staff i = false) ->
  let w' := run (button_guarded X (choose_prod_guarded X products uuid now i)) w in
  file w' = file w
  /\ globals w' = globals w
  /\ exists t,
      trace w' = trace w ++ t
      /\ Forall (fun eff => is_channel_send eff = false) t.
Proof.
  intros Hout. cbv zeta.
  unfold run, button_guarded, choose_prod_guarded, return_reply. step.
  destruct (channel_name i) as [name |].
  2: { destruct (resolves X _); cbn; (split; [done |]); (split; [done |]);
       [exists [InteractionReply UseInsideTicket] | exists []];
       (split; [by rewrite ?app_nil_r |]); repeat constructor. }
  destruct (Text.startsWith "ticket-" name) eqn:Hticket; cbn.
  2: { destruct (resolves X _); cbn; (split; [done |]); (split; [done |]);
       [exists [InteractionReply UseInsideTicket] | exists []];
       (split; [by rewrite ?app_nil_r |]); repeat constructor. }
  destruct (Hout name eq_refl Hticket) as [Hne ->].
  assert (String.eqb (String.substring 7 (String.length name) name) (user_id i)
          = false) as ->.
  { apply String.eqb_neq. intros Heq. apply Hne.
    rewrite (ticket_owner_of_name name Hticket) at 1. by rewrite Heq. }
  cbn.
  destruct (resolves X _); cbn; (split; [done |]); (split; [done |]);
    [exists [InteractionReply OnlyOwnerOrStaff] | exists []];
    (split; [by rewrite ?app_nil_r |]); repeat constructor.
Qed.

Lemma choose_prod_guarded_refuses_outsiders_witness :
  let i := {| customId := "choose_prod:gold"; guildId := VStr "G1";
              channelId := "C1"; channel_name := Some "ticket-U1";
              user_id := "U2"; user_tag := "other#0002"; is_staff := false |} in
  (forall name,
      channel_name i = Some name ->
      Text.startsWith "ticket-" name = true ->
      name <> "ticket-" +:+ user_id i /\ is_staff i = false)
  /\ file (run (button_guarded platform_ok
                  (choose_prod_guarded platform_ok products "O2"
                     "2024-05-01T11:00:00.000Z" i)) (world_with []))
     = file (world_with []).
Proof.
  cbv zeta.
  assert (forall name,
             channel_name
               {| customId := "choose_prod:gold"; guildId := VStr "G1";
                  channelId := "C1"; channel_name := Some "ticket-U1";
                  user_id := "U2"; user_tag := "other#0002";
                  is_staff := false |} = Some name ->
             Text.startsWith "ticket-" name = true ->
             name <> "ticket-" +:+ "U2" /\ false = false) as Hout.
  { intros name [= <-] _. split; [discriminate | reflexivity]. }
  split; [exact Hout |].
  apply (choose_prod_guarded_refuses_outsiders platform_ok products "O2"
           "2024-05-01T11:00:00.000Z" _ (world_with []) Hout).
Defined.

(* ===================================================================== *)
(** * More about the webhooks and the adapters *)
(* ===================================================================== *)

(** X23. A paid callback of the Crypto provider for an order id that no
    stored record has is acknowledged with [200 ok] and dropped: the
    orders stay as they are and nobody is notified. *)
Theorem cryptomus_webhook_unknown_order (X : platform) (e : env)
    (now : string) (body : value) (w : world) (s : string) :
  let payload := or_else body (VObj ∅) in
  cryptomus_status payload = Ok s ->
  paidStatuses s = true ->
  truthy (get_opt payload "order_id") = true ->
  Forall (fun o => ~ has_id (get_opt payload "order_id") o)
    (orders_of (file w)) ->
  cryptomus_webhook X e now body w
  = (Ok tt,
     {| file := Some (orders_of (file w));
        globals := globals w;
        trace := trace w ++ [Respond 200 "ok"] |}).
Proof.
  cbv zeta. intros Hs Hpaid Hid Hnone.
  apply (list_find_None (has_id _)) in Hnone.
  unfold cryptomus_webhook. rewrite isCryptomusWebhookTrusted_true.
  cbn [negb]. step. rewrite Hs. cbn. rewrite Hid, Hpaid. cbn.
  by rewrite (markPaid_missing _ _ _ _ Hnone).
Qed.

Lemma cryptomus_webhook_unknown_order_witness :
  let body := VObj {[ "order_id" := VStr "O9"; "status" := VStr "paid" ]} in
  let w := world_with [order "O1" "C1"] in
  cryptomus_status (or_else body (VObj ∅)) = Ok "paid"
  /\ paidStatuses "paid" = true
  /\ truthy (get_opt (or_else body (VObj ∅)) "order_id") = true
  /\ Forall (fun o => ~ has_id (get_opt (or_else body (VObj ∅)) "order_id") o)
       (orders_of (file w))
  /\ trace (snd (cryptomus_webhook platform_ok environment
                   "2024-05-01T10:00:00.000Z" body w))
     = [Respond 200 "ok"].
Proof.
  cbv zeta.
  assert (Forall (fun o => ~ has_id
                              (get_opt (or_else
                                          (VObj {[ "order_id" := VStr "O9";
                                                   "status" := VStr "paid" ]})
                                          (VObj ∅)) "order_id") o)
            (orders_of (file (world_with [order "O1" "C1"])))) as Hnone.
  { repeat constructor. vm_compute. discriminate. }
  assert (cryptomus_status
            (or_else (VObj {[ "order_id" := VStr "O9"; "status" := VStr "paid" ]})
               (VObj ∅)) = Ok "paid") as Hs by reflexivity.
  assert (paidStatuses "paid" = true) as Hpaid by reflexivity.
  assert (truthy (get_opt
                    (or_else (VObj {[ "order_id" := VStr "O9";
                                      "status" := VStr "paid" ]}) (VObj ∅))
                    "order_id") = true) as Hid by reflexivity.
  split; [exact Hs |]. split; [exact Hpaid |]. split; [exact Hid |].
  split; [exact Hnone |].
  rewrite (cryptomus_webhook_unknown_order platform_ok environment
             "2024-05-01T10:00:00.000Z"
             (VObj {[ "order_id" := VStr "O9"; "status" := VStr "paid" ]})
             (world_with [order "O1" "C1"]) "paid" Hs Hpaid Hid Hnone).
  reflexivity.
Defined.

(** X24. A callback of the Crypto provider without an order id (no body,
    no [order_id], or an empty one) changes no order and no counter.  It is
    answered [200 no order] when [String(status)] returns, as it does for
    every status that is not an object or an array, whatever the status
    says; when [String(status)] throws, the error is logged and the answer
    is [200 ok]. *)
Theorem cryptomus_webhook_no_order_id (X : platform) (e : env)
    (now : string) (body : value) (w : world) :
  let payload := or_else body (VObj ∅) in
  truthy (get_opt payload "order_id") = false ->
  cryptomus_webhook X e now body w
  = (Ok tt,
     match cryptomus_status payload with
     | Ok _ => add_trace (Respond 200 "no order") w
     | Throw _ =>
         add_trace (Respond 200 "ok")
           (add_trace (ConsoleLog "Cryptomus webhook error:") w)
     end)
  /\ (plain (get_opt payload "status") = true ->
      cryptomus_webhook X e now body w
      = (Ok tt, add_trace (Respond 200 "no order") w)).
Proof.
  cbv zeta. intros Hid.
  assert (cryptomus_webhook X e now body w
          = (Ok tt,
             match cryptomus_status (or_else body (VObj ∅)) with
             | Ok _ => add_trace (Respond 200 "no order") w
             | Throw _ =>
                 add_trace (Respond 200 "ok")
                   (add_trace (ConsoleLog "Cryptomus webhook error:") w)
             end)) as Hrun.
  { unfold cryptomus_webhook. rewrite isCryptomusWebhookTrusted_true.
    cbn [negb]. step.
    destruct (cryptomus_status _) as [s | err]; cbn; [by rewrite Hid | done]. }
  split; [exact Hrun |].
  intros Hplain. rewrite Hrun. unfold cryptomus_status.
  destruct (plain_ToString
              (or_else (get_opt (or_else body (VObj ∅)) "status") (VStr "")))
    as [s ->]; [| done].
  set (status := get_opt _ "status") in *. unfold or_else.
  by destruct (truthy status).
Qed.

Lemma cryptomus_webhook_no_order_id_witness :
  let body := VObj {[ "status" := VStr "paid" ]} in
  truthy (get_opt (or_else body (VObj ∅)) "order_id") = false
  /\ cryptomus_webhook platform_ok environment "2024-05-01T10:00:00.000Z"
       body (world_with [order "O1" "C1"])
     = (Ok tt, add_trace (Respond 200 "no order") (world_with [order "O1" "C1"])).
Proof.
  cbv zeta. split; [reflexivity |].
  apply (cryptomus_webhook_no_order_id platform_ok environment
           "2024-05-01T10:00:00.000Z" _ (world_with [order "O1" "C1"]));
    reflexivity.
Defined.

(** X25. The Card endpoint, given an event it can read, changes nothing
    and notifies nobody unless the event is a completed checkout whose
    metadata carry an order id: it only answers [200 ok]. *)
Theorem stripe_webhook_ignores (X : platform) (e : env) (now : string)
    (req : stripe_request) (w : world) (event : value) :
  getStripe e = Ok tt ->
  (if truthy (env_get e "STRIPE_WEBHOOK_SECRET")
   then constructEvent X (raw_body req) (signature req)
          (default "" (e !! "STRIPE_WEBHOOK_SECRET"))
   else JSON_parse X (raw_body req)) = Ok event ->
  (exists ty, get event "type" = Ok ty
              /\ strict_eq ty (VStr "checkout.session.completed") = false)
  \/ (exists ty session,
        get event "type" = Ok ty
        /\ bind (get event "data") (fun d => get d "object") = Ok session
        /\ truthy (get_opt (get_opt session "metadata") "orderId") = false) ->
  stripe_webhook X e now req w = (Ok tt, add_trace (Respond 200 "ok") w).
Proof.
  intros Hkey Hevent Hskip. unfold stripe_webhook. step.
  rewrite Hkey. cbn. rewrite Hevent. cbn. unfold on_stripe_event. step.
  destruct Hskip as [(ty & -> & Hty) | (ty & session & -> & Hsession & Hid)];
    cbn.
  - by rewrite Hty.
  - destruct (strict_eq ty _); [| done].
    rewrite Hsession. cbn. by rewrite Hid.
Qed.

Lemma stripe_webhook_ignores_witness :
  let X := {| resolves := fun _ => true; channel_exists := fun _ => true;
              user_exists := fun _ => true;
              constructEvent := fun _ _ _ =>
                Ok (VObj {[ "type" := VStr "invoice.paid" ]});
              JSON_parse := fun _ => Throw "SyntaxError";
              JSON_stringify := fun _ => "{}";
              cryptomus_payment := fun _ => Throw "down";
              stripe_sessions_create := fun _ => Throw "down";
              link_button := fun _ => true;
              slice_upper := fun id => id |} in
  let req := {| raw_body := "{}"; signature := good_signature |} in
  getStripe environment = Ok tt
  /\ stripe_webhook X environment "2024-05-01T10:00:00.000Z" req
       (world_with [order "O1" "C1"])
     = (Ok tt, add_trace (Respond 200 "ok") (world_with [order "O1" "C1"])).
Proof.
  cbv zeta. split; [reflexivity |].
  eapply stripe_webhook_ignores; [reflexivity | reflexivity |].
  left. eexists. split; reflexivity.
Defined.

(** X26. When [createCryptomusInvoice] returns, the provider answered a
    request made with a merchant id and an API key, the answer was a
    success, and the link returned is the one of the answer and is not
    empty; the invoice id is the one of the answer. *)
Theorem createCryptomusInvoice_returns (X : platform) (e : env)
    (amountUsd orderId description successUrl callbackUrl : value)
    (inv : obj) :
  createCryptomusInvoice X e amountUsd orderId description successUrl
    callbackUrl = Ok inv ->
  truthy (fst (getEnv e)) = true
  /\ truthy (snd (getEnv e)) = true
  /\ exists body data,
      invoice_body amountUsd orderId description successUrl callbackUrl
      = Ok body
      /\ cryptomus_payment X body = Ok (true, data)
      /\ prop inv "url" = get_opt (get_opt data "result") "url"
      /\ prop inv "uuid" = get_opt (get_opt data "result") "uuid"
      /\ truthy (prop inv "url") = true.
Proof.
  unfold createCryptomusInvoice.
  destruct (getEnv e) as [merchant apiKey]. cbn [fst snd].
  destruct (truthy merchant); cbn [negb]; [| done].
  destruct (truthy apiKey); cbn [negb]; [| done].
  destruct (invoice_body _ _ _ _ _) as [body |]; cbn [bind]; [| done].
  destruct (cryptomus_payment X body) as [[ok data] |] eqn:Hpay; cbn [bind];
    [| done].
  unfold invoice_answer.
  destruct ok; cbn [negb orb]; [| by destruct (ToString _)].
  destruct (truthy (get_opt (get_opt data "result") "url")) eqn:Hurl;
    cbn [negb]; [| by destruct (ToString _)].
  intros [= <-]. split; [done |]. split; [done |].
  exists body, data. split; [done |]. split; [done |].
  assert (prop ({[ "url" := get_opt (get_opt data "result") "url";
                   "uuid" := get_opt (get_opt data "result") "uuid";
                   "data" := data ]} : obj) "url"
          = get_opt (get_opt data "result") "url") as Hu by reflexivity.
  assert (prop ({[ "url" := get_opt (get_opt data "result") "url";
                   "uuid" := get_opt (get_opt data "result") "uuid";
                   "data" := data ]} : obj) "uuid"
          = get_opt (get_opt data "result") "uuid") as Hi by reflexivity.
  by rewrite Hu, Hi.
Qed.

Lemma createCryptomusInvoice_returns_witness :
  createCryptomusInvoice platform_ok environment (num "9.99") (VStr "O1")
    (VStr "Crystal Store | Gold Pack") VUndef VUndef
  = Ok {[ "url" := VStr "https://pay.example/1"; "uuid" := VStr "inv-1";
          "data" := VObj {[ "result" :=
                              VObj {[ "url" := VStr "https://pay.example/1";
                                      "uuid" := VStr "inv-1" ]} ]} ]}
  /\ truthy (fst (getEnv environment)) = true
  /\ truthy (snd (getEnv environment)) = true.
Proof.
  assert (createCryptomusInvoice platform_ok environment (num "9.99")
            (VStr "O1") (VStr "Crystal Store | Gold Pack") VUndef VUndef
          = Ok {[ "url" := VStr "https://pay.example/1"; "uuid" := VStr "inv-1";
                  "data" := VObj {[ "result" :=
                                      VObj {[ "url" := VStr "https://pay.example/1";
                                              "uuid" := VStr "inv-1" ]} ]} ]})
    as H by reflexivity.
  split; [exact H |].
  destruct (createCryptomusInvoice_returns _ _ _ _ _ _ _ _ H) as (Hm & Hk & _).
  by split.
Defined.

(** ** The data of an invoice *)

Lemma truthy_or_else (a b : value) :
  truthy b = true -> truthy (or_else a b) = true.
Proof. intros Hb. unfold or_else. by destruct (truthy a) eqn:Ha. Qed.

Lemma money_truthy (v : value) (t : string) :
  money v = Ok t -> truthy (VStr t) = true.
Proof.
  unfold money. destruct (ToNumber v) as [x |]; cbn [bind]; [| done].
  by intros [= <-].
Qed.

(** X27. The data the close handler hands to [createInvoicePDF] always
    name a store, a payment method, a paid amount and a transaction: where
    the order has none, the store name falls back to "Crystal Store", the
    method and the transaction to "-" and the amount to the price; the
    invoice and order ids are those of the order. *)
Theorem invoice_data_filled (e : env) (now : string) (order : obj)
    (inv : string) (data : obj) :
  invoice_data e now order inv = Ok data ->
  truthy (prop data "storeName") = true
  /\ truthy (prop data "paymentMethod") = true
  /\ truthy (prop data "paymentAmount") = true
  /\ truthy (prop data "transactionId") = true
  /\ prop data "invoiceId" = VStr inv
  /\ prop data "orderId" = prop order "id"
  /\ prop data "createdAt" = VStr now.
Proof.
  unfold invoice_data.
  destruct (get (prop order "product") "name") as [name |]; cbn [bind]; [| done].
  destruct (get (prop order "product") "price") as [price |]; cbn [bind];
    [| done].
  destruct (get (prop order "payment") "method") as [method |]; cbn [bind];
    [| done].
  destruct (get (prop order "payment") "paidAmount") as [paid |]; cbn [bind];
    [| done].
  assert (forall amount,
             (if truthy paid then Ok paid
              else bind (money price) (fun t => Ok (VStr t))) = Ok amount ->
             truthy amount = true) as Hamount.
  { intros amount. destruct (truthy paid) eqn:Hpaid.
    - by intros [= <-].
    - destruct (money price) as [t |] eqn:Ht; cbn [bind]; [| done].
      intros [= <-]. by apply (money_truthy price). }
  destruct (if truthy paid then _ else _) as [amount |]; cbn [bind]; [| done].
  specialize (Hamount amount eq_refl).
  destruct (get (prop order "payment") "transactionId") as [txid |];
    cbn [bind]; [| done].
  intros [= <-].
  change (truthy (STORE_NAME e) = true
          /\ truthy (or_else method (VStr "-")) = true
          /\ truthy amount = true
          /\ truthy (or_else txid (VStr "-")) = true
          /\ VStr inv = VStr inv
          /\ prop order "id" = prop order "id"
          /\ VStr now = VStr now).
  split_and!; try done; by apply truthy_or_else.
Qed.

Lemma invoice_data_filled_witness :
  exists data,
    invoice_data environment "2024-05-02T08:00:00.000Z" (order "O1" "C1")
      "INV-O1" = Ok data
    /\ prop data "paymentMethod" = VStr "-"
    /\ prop data "paymentAmount" = VStr "$9.99"
    /\ truthy (prop data "transactionId") = true.
Proof.
  eexists. split; [reflexivity |]. split; [reflexivity |].
  split; [vm_compute; reflexivity |].
  eapply (invoice_data_filled environment "2024-05-02T08:00:00.000Z"
            (order "O1" "C1") "INV-O1").
  reflexivity.
Defined.

(* ===================================================================== *)
(** * A payment session is stored with the order *)
(* ===================================================================== *)


Lemma STORE_NAME_plain (e : env) : plain (STORE_NAME e) = true.
Proof.
  unfold STORE_NAME, or_else, env_get, truthy.
  destruct (e !! "STORE_NAME") as [s |];
    [destruct (negb (String.eqb s "")) |]; reflexivity.
Qed.

Lemma join_text_plain (a b : value) (sep : string) :
  plain a = true -> plain b = true -> exists v, join_text a sep b = Ok v.
Proof.
  intros Ha Hb. unfold join_text.
  destruct (plain_ToString a Ha) as (x & ->).
  destruct (plain_ToString b Hb) as (y & ->). cbn. eauto.
Qed.





(* ===================================================================== *)
(** * A completed checkout *)
(* ===================================================================== *)


